(* ===== verification/_CoqProject ===== *)
-Q . S2P
Prelude.v
Modes.v
PyRandom.v
PyMath.v
Rect.v
Draw.v
SIObjects.v
SIWindow.v
SIBattle.v
SIRender.v
RBObjects.v
RBGame.v
RBParticleLoop.v
RBRender.v
Pong.v
PongRender.v
GameModes.v
