(* ===== verification/Prelude.v ===== *)
(** * Arcade games: a shallow-embedding verification of the three pygame games

    The repository holds three independent pygame arcade games, each one a
    real-time loop "poll input, advance the simulation one frame, draw":

    - [src/apps/arcade/games/SpaceInvader.py]: a vertical shooter.  The class
      [SpaceBattle] owns the player ship (class [Player], which owns its
      [Bullet]s), the descending [Alien]s, the [AlienBullet]s, the falling
      [PowerUp]s, the background [Star]s and a [ParticleSystem]; its method
      [run] is the frame loop.
    - [src/apps/arcade/games/RetroBird/main.py] with the sprite classes of
      [src/arcade-flipper/src/games/RetroBird/objects.py]: a Flappy-Bird clone
      whose state is kept in module-level variables of [main.py].
    - [src/arcade-flipper/src/games/pong.py]: Pong against an AI paddle.

    ** Layout of the development (files in dependency order)

    - [Prelude] (this file): the notation scope [arcade_scope], Python's
      number conversions on rationals ([py_int] is [int(x)] on a float, i.e.
      truncation towards zero), boolean comparisons on [Q], the hint database
      [arcade] and the shared tactics.
    - [Modes], Module [Modes]: the game-state machine of the specification
      (section 4.6) as an abstract contract: the modes [Attract], [Playing],
      [Paused], [RoundOver] and exited, the abstract inputs of a tick
      ([IPrimary], [IPause], [IRestart], [IQuit]) with their deterministic
      effect [spec_input], the terminal transition of the update pass
      [spec_update], and one tick [spec_tick] (inputs, then update, the order
      of section 5).  The per-game choices (initial mode, where a restart
      goes) are a [ModeConfig].
    - [PyRandom]: Python's [random] module as an interface.  The class
      [PyRandom] has the two primitives every draw of the module goes through
      ([random()] and [_randbelow(n)]); [randint], [uniform], [choice] are
      defined on top of them exactly as [random.py] does.  The generator is
      threaded through a small state monad [Rand G]; the class [PyRandomLaws]
      states the ranges of the primitives, and every theorem that depends on
      a random value is proved for every lawful generator.  [scripted] is a
      lawful instance whose draws are read from a list: the witnesses use it
      to force the outcome of a roll.
    - [Rect]: the part of [pygame.Rect] the games use: integer attributes,
      the derived [left/right/top/bottom/centerx/centery], the setters that
      move the rectangle, and [colliderect].  (pygame is a library: these
      definitions follow pygame's C implementation and are marked
      spec-modelled in the manifest.)
    - [PyMath]: the part of Python's [math] module the games call: [math.sin]
      and [math.cos] as the class [Trig] with the laws [TrigLaws] (values in
      [[-1, 1]], cosine positive on [[-3/2, 3/2]]), [math.pi] and
      [math.copysign]; [trig_flat] is a lawful instance for the witnesses.
    - [Draw], Module [Draw]: the pygame drawing calls as data.  A draw
      method is the list of calls it makes ([DrawCmd]: [fill], [line],
      [rect], [ellipse], [circle], [polygon], a rendered text, a surface
      drawn earlier and blitted); the fonts the installation provides are
      the class [Fonts]; [cmd_ok] is pygame's argument check (colours of
      three or four integers in [[0, 255]], polygons of at least three
      points), with the lemmas that split it over [++], [map], [flat_map]
      and [imap].
    - [SIObjects]: the entity classes of SpaceInvader.py ([Star],
      [Particle], [ParticleSystem], [Player], [Bullet], [Alien],
      [AlienBullet], [PowerUp]), one Record per class and one definition per
      method; the screen size read at start-up is the class [Screen].
    - [SIWindow], Module [SIWindow]: [parse_window_size] and the screen size
      the module selects with it ([window_screen]), over CPython's [strip],
      [lower], [replace], [split] and [int()] on strings of Latin-1 code
      points.
    - [SIBattle]: class [SpaceBattle]: its state Record, the update passes
      [spawn_alien], [move_aliens], [alien_shoot], [update_alien_bullets],
      [check_collisions], [update_powerups], [reset_game], the event handling
      and one iteration of the [run] loop ([frame]); the reachability
      relation of the loop and its invariant.
    - [SIRender]: every draw method of SpaceInvader.py ([Star.draw],
      [Particle.draw], [Player.draw], the images of [create_spaceship],
      [create_alien], [PowerUp.create_image] and the bullets, the gradient,
      the HUD, [draw_game_over], [get_font]) and [frame_render], the
      iteration of [run] with [self.draw()]; the colour invariant
      [render_inv] of the reachable states.
    - [RBObjects], Module [RetroBird]: the classes of [objects.py]: the
      bird [Grumpy] ([Grumpy_update] is [Grumpy.update], split into
      [gravity] and [fall]; [Grumpy_draw_flap], [Grumpy_reset],
      [Grumpy_init]), the floor [Base] ([Base_update]), the [Pipe]s and
      [pipe_group_update], the [pygame.sprite.Group.update] of the pipes
      with their [kill()].  [main.py] imports these classes as [objects];
      the copy in [src/arcade-flipper] is the one the repository has.
    - [RBGame], Module [RetroBirdGame]: the module-level state of [main.py]
      as the Record [RBGame]; its set-up [RB_init]; the passes of one frame
      ([title_step] on the start screen; [spawn_pipes], [move_step],
      [crash_step], [ground_step] and [score_step], composed by [play_step];
      [update_particles]; the event loop [handle_events] with [start_round]
      and [back_to_title]); one iteration [rb_frame]; the loop [rb_run],
      which stops when [running] is [False]; its reachable states
      [rb_reachable].  A [FrameInput] holds what an iteration reads from
      pygame: two clock readings, the mouse button and the event queue.
    - [RBParticleLoop], Module [RBParticleLoop]: [update_particles] of
      [main.py] as the code runs it: the dicts live in a store indexed by
      object identity, [particles] and [particles[:]] are lists of
      identities, the loop updates each dict in place and
      [particles.remove] searches by value equality ([particle_eqb]).
    - [RBRender], Module [RBRender]: RetroBird's drawing, which the
      sprites do as they update ([draw_bird] at the end of [Grumpy.update]
      and [draw_flap], the floor and the pipes in [Base.update] and
      [Pipe.update], the particles in [update_particles]), the background
      surface built from the stars [draw_retro_background] draws, the title,
      score and game-over screens; [rb_frame_render] is an iteration with
      its drawing, and [colors_inv] the colours of the reachable states.
    - [Pong], Module [Pong]: [pong.py].  The full-screen size is the class
      [Field] (with [FieldLaws]: at least 640x480); the [Paddle] and [Ball]
      classes as Records with [Paddle_move_player], [Paddle_move_ai],
      [Ball_reset] and [Ball_update] (split into [trail_push], [wall_bounce]
      and [paddle_bounce], applied to the player's paddle then the AI's); the
      local variables of [game()] as the Record [PongGame] with [Game_init];
      one iteration of its loop as [pong_frame] (the event loop
      [game_events], the pause, the moves, [score_point]); the program
      [while True: game()] with [win_screen] as the phases [PongPhase] and
      the step [pong_step], with its reachable phases [pong_reachable].
    - [PongRender], Module [PongRender]: Pong's drawing: the pre-rendered
      overlays, [pixel_text], the paddle surface, [Ball.draw] and its
      fading trail, [draw_hud], the win screen; [pong_step_render] is an
      iteration of the program with what it draws (twice in a frame that
      scores without ending the game).
    - [GameModes]: the refinement of [Modes] by the three loops.  Modules
      [SIModes], [RBModes] and [PongModes] each define the mode a loop's
      state is in ([si_mode], [rb_mode], [pong_mode]) and the abstract inputs
      of its events ([si_input], [rb_input], [game_input] and [win_input]).

    ** How the code is modelled

    - Python ints are [Z]; Python floats are rationals [Q] (exact, no
      rounding: a float computation is modelled by the exact value it
      approximates).  [math.sin] and [math.cos] cannot be computed on [Q];
      they are the operations of the class [Trig], with the laws that their
      values lie in [[-1, 1]] and that the cosine is positive on
      [[-3/2, 3/2]].  [math.pi] is the decimal value of the double.
    - pygame stores a Rect's coordinates as C ints; assigning a float to an
      attribute (as in [self.rect.y += self.speed_y]) truncates it towards
      zero (pygame's [pg_IntFromObj] casts the double to int); the model
      writes that truncation out with [py_int].
    - Mutable objects updated in place inside a loop over a copy of a list
      ([for b in self.bullets[:]: b.move(); if ...: self.bullets.remove(b)])
      are modelled by a [Fixpoint] over the list that returns the updated
      survivors in their order; [list.remove] of an object found by
      identity removes exactly the element being visited.
    - Randomness: every call of the [random] module is a call of the [Rand]
      monad, in the order in which the code makes it, so that a concrete
      generator replays a run of the game.
    - Input: the events returned by [pygame.event.get()] are a list of the
      inductive [Event] ([RBEvent] in RetroBird); [pygame.key.get_pressed()]
      and [pygame.mouse.get_pressed()] are booleans;
      [pygame.time.get_ticks()] is an argument of the frame.  [Grumpy.update]
      reads the mouse twice; both reads are the one value of the frame.
    - A sprite group is a list in insertion order ([Group.sprites()] keeps
      it); [pipe_group.sprites()[0]] is the head of the list.
    - RetroBird's float [display_height = 409.6] is the rational [2048/5];
      [display_height // 2] is its floor, 204, and the pipes it places have
      integer coordinates.
    - Rendering: a draw method is the list of pygame calls it makes, with
      the arguments the code computes (colours, positions, sizes, texts); a
      surface drawn once and blitted later is the layer of its calls.  Each
      [*_render] iteration computes the same state as the game's step
      ([frame_render_frame], [pong_step_render_step],
      [rb_frame_render_step]) and, beside it, what is drawn.  The pixels
      are not modelled.  [pygame.time.get_ticks()] read by a draw (blinking
      texts, the shield's pulse) is an argument.

    ** What is proved

    - SpaceInvader entities ([SIObjects]): player bullets, aliens and
      particles leave the registry in a bounded number of frames
      ([player_bullets_expire], [spawned_alien_leaves], [particles_expire]);
      the ship's horizontal bounds; the gun fires one full volley (one
      bullet, or three under the triple-shot power-up) per 10 frames
      ([Player_shoot_rate]); power-up timers expire.
    - SpaceInvader game ([SIBattle]): the spawn countdown (the next alien
      comes exactly [spawn_rate] frames after the previous one) and the
      bounds of [spawn_rate]; the collision pass credits each bullet with at
      most one alien, adds exactly the points of the aliens it removes and is
      idempotent; alien bullets and power-ups leave the registry within
      [n + 1] frames of [update_alien_bullets] and [update_powerups] when
      they are within [n + 1] moves of the bottom edge, whatever they hit
      and whatever the draws ([transients_leave], with the loop of frames as
      [iterM] of [PyRandom]); lives and game-over, and that the life counter
      has no floor ([move_aliens_lives]); the invariant of every reachable
      state of the loop ([frame_reachable_inv]); what [reset_game] resets
      and what it keeps.
    - SpaceInvader configuration ([SIWindow]): every value of
      [ARCADE_WINDOW_SIZE] gives a screen of at least 320x240, so the
      assumption [ScreenLaws] of the theorems above holds of the program's
      screen ([window_screen_laws]); a size printed as [<w>x<h>] (or with [X]
      or a comma) is read back ([parse_window_size_roundtrip], through
      [int(str(z)) = z] for numbers of at most 4300 digits, the limit of
      [int()]); a value without a separator is rejected.

    - RetroBird bird ([RBObjects]): [Grumpy.update] keeps the velocity in
      [[-6, 8]]; a dead bird lands on the floor within 800 frames whatever
      the mouse does ([dead_bird_lands]: in 24 frames the velocity reaches
      1 while the bird rises by at most 144 pixels, then it comes down at
      least a pixel a frame, so 24 + 714 = 738 frames suffice from 200
      pixels above the screen); the start-screen bird bobs
      within [[194, 215]]; the floor tiles stay in [(-WIDTH, WIDTH]].  The
      potential [fall_potential] bounds how high a bird can still climb,
      which keeps every bird in play at most 66 pixels above the screen.
    - RetroBird game ([RBGame]): the invariant of every reachable state
      ([rb_reachable_inv]: bird, floor, speed, pipes in top/bottom pairs
      around a 100-pixel gap, particle lifetimes, where the bird can be in
      each phase); a dead bird ends the round within 800 frames whatever
      the player and the generator do ([dead_bird_ends_round]); what a click
      does on the start and game-over screens; the quit events stop the
      loop; and two behaviours of the code: a bird landing on the floor
      without a crash stays alive, so the game-over box never shows
      ([floor_landing_keeps_alive]), and a dead bird still scores
      ([dead_bird_scores]).  The witnesses run the game from its set-up
      with the scripted generator (a click, then 42 frames of flapping into
      the ceiling) and evaluate the result with [vm_compute].
    - Pong ([Pong]): the invariant of every reachable phase
      ([pong_reachable_inv]: paddles in their columns and inside the field,
      scores in [[0, 6]] during a game, ball speed in [[25, 100]] with the
      velocity bounded by it, trail of at most 10 points, ball between the
      walls); first to 7 wins ([pong_frame_scores]); a paddle sends the ball
      back towards the other side (the angle [rel * pi / 3.5] is within
      [[-8/7, 8/7]], where the cosine is positive); the serve after a point
      and after the win screen; the AI paddle closes the gap to the ball by
      27.3 pixels a frame ([Paddle_move_ai_tracks]); the pause freezes the
      game; quit events exit;
      and a fast ball passes through a paddle, since the collision is only
      tested at the end of the move ([ball_passes_through_paddle]).  The
      witnesses use a 1920x1080 field.
    - The game-state machine ([GameModes]): every iteration of each loop is
      a tick of the specification's machine on the inputs of its events
      ([si_refines_spec], [pong_refines_spec]); RetroBird's iteration handles
      its events after the update, so it is an update followed by the
      inputs of a tick ([rb_refines_spec]).  The refinement is functional:
      the mode after the events is computed by [spec_inputs] from the mode
      before, so a pause without [P], an exit without a quit event or a
      restart without the restart input is excluded.
    - Rendering ([SIRender], [PongRender], [RBRender]): every call an
      iteration draws from a reachable state passes pygame's argument
      checks ([frame_render_ok], [pong_step_render_ok],
      [rb_frame_render_ok]).  What this takes: the star brightness
      ([randint(100, 255)]) and the particle colours of SpaceInvader, and
      the bird, floor, pipe and particle colours of RetroBird, are palette
      colours in every reachable state (invariants by rule induction); the
      engine glow [150 + 5 * (g % 20)] and the shield alpha
      [int(100 + 50 sin t)] stay in range; Pong's trail alpha
      [(i + 1) / len(trail)] is in [(0, 1]] because [enumerate] gives
      [i < len(trail)]; the paddles keep the colours their surfaces were
      made with.
    - RetroBird's particle loop ([RBParticleLoop]): removing particles by
      value while iterating over a copy of the list never raises and gives
      exactly the filter-after-map [update_particles]
      ([update_particles_py_eq]), because the first dict equal to the
      current one is always the current one (the kept ones before it are
      still alive, the current one is not).

    ** Plan for the rest of the development

    - Pong: how far the AI paddle can lag a ball that changes direction,
      and a bound on the frames of a rally.
    - RetroBird and SpaceInvader: the score as a function of the events of
      a run (pipes passed, aliens destroyed).

    ** Not modelled

    The variables [ARCADE_EMBEDDED] and [ARCADE_WINDOW_POS] (they choose
    the frame and the position of the window); the pixels the drawing
    calls produce (only the calls and their arguments are modelled);
    display initialisation and the choice of window mode;
    [objects.Score] (its [update] is [pass] and [main.py] never creates
    one); the frame-rate cap ([clock.tick]) and the blocking
    [pygame.time.delay] (they only change wall-clock time, which the model
    does not have).  No definition needs fuel: every loop of the code is a
    structural recursion on a list or a step of an inductive reachability
    relation. *)

From Stdlib Require Export ZArith QArith Qround Qabs Qminmax Lia Lqa.
From stdpp Require Export base list.

Declare Scope arcade_scope.
Delimit Scope arcade_scope with arcade.

(** ** Python's numbers on rationals *)

(** [int(x)] on a float, and the C cast [(int)dv] pygame applies when a float
    is stored in a Rect: truncation towards zero. *)
Definition py_int (q : Q) : Z := Z.quot (Qnum q) (Zpos (Qden q)).

(** Boolean comparisons, as the [<] and [<=] of a Python [if]. *)
Definition Qltb (x y : Q) : bool := negb (Qle_bool y x).
Definition Qleb (x y : Q) : bool := Qle_bool x y.

Notation "x <q? y" := (Qltb x y) (at level 70, no associativity) : arcade_scope.
Notation "x <=q? y" := (Qleb x y) (at level 70, no associativity) : arcade_scope.
Notation "'int(' q ')'" := (py_int q) (at level 0, format "'int(' q ')'") : arcade_scope.
Open Scope arcade_scope.

Lemma Qltb_spec (x y : Q) : Qltb x y = true <-> (x < y)%Q.
Proof.
  unfold Qltb. rewrite negb_true_iff. split.
  - intros H. apply Qnot_le_lt. intros H'. apply Qle_bool_iff in H'. congruence.
  - intros H. destruct (Qle_bool y x) eqn:E; [|done].
    apply Qle_bool_iff in E. exfalso. apply (Qlt_not_le x y); done.
Qed.

Lemma Qltb_false (x y : Q) : Qltb x y = false <-> (y <= x)%Q.
Proof.
  unfold Qltb. rewrite negb_false_iff. apply Qle_bool_iff.
Qed.

Lemma Qleb_spec (x y : Q) : Qleb x y = true <-> (x <= y)%Q.
Proof. apply Qle_bool_iff. Qed.

Lemma Qleb_false (x y : Q) : Qleb x y = false <-> (y < x)%Q.
Proof.
  unfold Qleb. split.
  - intros H. apply Qnot_le_lt. intros H'. apply Qle_bool_iff in H'. congruence.
  - intros H. destruct (Qle_bool x y) eqn:E; [|done].
    apply Qle_bool_iff in E. exfalso. apply (Qlt_not_le y x); done.
Qed.

(** The integer part of [q] is within one of [q], on both sides. *)
Lemma py_int_bounds (q : Q) :
  (q - 1 < inject_Z (py_int q) /\ inject_Z (py_int q) < q + 1)%Q.
Proof.
  destruct q as [n d]. unfold py_int; simpl.
  pose proof (Z.quot_rem' n (Zpos d)) as Hqr.
  pose proof (Z.rem_bound_abs n (Zpos d) ltac:(lia)) as Hb.
  pose proof (Z.rem_nonneg n (Zpos d)) as Hpos.
  pose proof (Z.rem_nonpos n (Zpos d)) as Hneg.
  unfold Qlt, Qminus, Qplus, inject_Z; simpl.
  destruct (Z.le_gt_cases 0 n); [specialize (Hpos ltac:(lia) ltac:(lia))|
                                 specialize (Hneg ltac:(lia) ltac:(lia))];
  split; nia.
Qed.

Lemma py_int_inject (z : Z) : py_int (inject_Z z) = z.
Proof. unfold py_int, inject_Z; simpl. apply Z.quot_1_r. Qed.

(** Adding at least [1] to an integer coordinate and truncating moves it by at
    least one unit: the step every descending entity makes. *)
Lemma py_int_add_ge (z : Z) (d : Q) :
  (1 <= d)%Q -> (z + 1 <= py_int (inject_Z z + d))%Z.
Proof.
  intros Hd. destruct (py_int_bounds (inject_Z z + d)) as [Hlo _].
  assert (Hz : (inject_Z z < inject_Z (py_int (inject_Z z + d)))%Q) by lra.
  rewrite <- Zlt_Qlt in Hz. lia.
Qed.

(** Adding a value of magnitude below [1] and truncating moves an integer by at
    most one unit. *)
Lemma py_int_add_small (z : Z) (d : Q) :
  (-1 <= d <= 1)%Q -> (z - 1 <= py_int (inject_Z z + d) <= z + 1)%Z.
Proof.
  intros Hd. destruct (py_int_bounds (inject_Z z + d)) as [Hlo Hhi].
  assert (H1 : (inject_Z (z + -2) < inject_Z (py_int (inject_Z z + d)))%Q).
  { rewrite inject_Z_plus. change (inject_Z (-2)) with (-2 # 1)%Q. lra. }
  assert (H2 : (inject_Z (py_int (inject_Z z + d)) < inject_Z (z + 2))%Q).
  { rewrite inject_Z_plus. change (inject_Z 2) with (2 # 1)%Q. lra. }
  rewrite <- Zlt_Qlt in H1, H2. lia.
Qed.

(** A lower bound on a value bounds its integer part from below. *)
Lemma py_int_lower (q : Q) (z : Z) : (inject_Z z <= q)%Q -> (z - 1 < py_int q)%Z.
Proof.
  intros Hq. destruct (py_int_bounds q) as [Hlo _].
  assert (H : (inject_Z (z + -1) < inject_Z (py_int q))%Q).
  { rewrite inject_Z_plus. change (inject_Z (-1)) with (-1 # 1)%Q. lra. }
  rewrite <- Zlt_Qlt in H. lia.
Qed.

(** [int()] truncates toward zero: it does not lower a non-positive value and
    keeps a non-negative one non-negative. *)
Lemma py_int_nonpos (q : Q) : (q <= 0)%Q -> (q <= inject_Z (py_int q))%Q.
Proof.
  destruct q as [n d]. unfold py_int, Qle, inject_Z; simpl. intros Hn.
  pose proof (Z.quot_rem' n (Zpos d)) as Hqr.
  pose proof (Z.rem_nonpos n (Zpos d) ltac:(lia) ltac:(lia)). nia.
Qed.

Lemma py_int_nonneg (q : Q) : (0 <= q)%Q -> (0 <= py_int q)%Z.
Proof.
  destruct q as [n d]. unfold py_int, Qle; simpl. intros Hn.
  apply Z.quot_pos; lia.
Qed.

Lemma inject_Z_sub (a b : Z) : inject_Z (a - b) = (inject_Z a - inject_Z b)%Q.
Proof. unfold inject_Z, Qminus, Qplus, Qopp; cbn. f_equal; lia. Qed.

(** [max(lo, min(hi, y))] lies between [lo] and [hi]. *)
Lemma Qclamp_range (lo hi y : Q) : (lo <= hi)%Q -> (lo <= Qmax lo (Qmin hi y) <= hi)%Q.
Proof.
  intros Hlh. split; [apply Q.le_max_l|].
  apply Q.max_lub; [done | apply Q.le_min_l].
Qed.

Lemma Qclamp_id (lo hi y : Q) : (lo <= y <= hi)%Q -> (Qmax lo (Qmin hi y) == y)%Q.
Proof. intros [H1 H2]. rewrite Q.min_r by done. by apply Q.max_r. Qed.

(** [|x| = max(0, y)], by cases on the signs. *)
Lemma Qabs_eq_Qmax0 (x y : Q) :
  ((x == 0 /\ y <= 0) \/ (0 <= x /\ x == y) \/ (x <= 0 /\ - x == y))%Q -> (Qabs x == Qmax 0 y)%Q.
Proof.
  intros [[E H] | [[H E] | [H E]]].
  - by rewrite E, Q.max_l.
  - by rewrite Qabs_pos, Q.max_r by lra.
  - by rewrite Qabs_neg, Q.max_r by lra.
Qed.

(** Truncating a float that lies between two integers stays between them. *)
Lemma py_int_range (lo hi : Z) (q : Q) :
  (inject_Z lo <= q <= inject_Z hi)%Q -> (lo <= py_int q <= hi)%Z.
Proof.
  intros [Hlo Hhi]. destruct (py_int_bounds q) as [H1 H2].
  assert (inject_Z (lo - 1) < inject_Z (py_int q))%Q by (rewrite inject_Z_sub; change (inject_Z 1) with 1%Q; lra).
  assert (inject_Z (py_int q) < inject_Z (hi + 1))%Q by (rewrite inject_Z_plus; change (inject_Z 1) with 1%Q; lra).
  rewrite <- Zlt_Qlt in *. lia.
Qed.

(** [a / b] of two integers with [0 <= a <= b] is a fraction in [[0, 1]]. *)
Lemma Qdiv_unit (a b : Z) : (0 <= a <= b)%Z -> (0 < b)%Z -> (0 <= inject_Z a / inject_Z b <= 1)%Q.
Proof.
  intros Hab Hb. assert (0 < inject_Z b)%Q by (change 0%Q with (inject_Z 0); rewrite <- Zlt_Qlt; lia).
  split; [apply Qle_shift_div_l | apply Qle_shift_div_r]; try done;
    rewrite ?Qmult_0_l, ?Qmult_1_l; [change 0%Q with (inject_Z 0)|]; rewrite <- Zle_Qle; lia.
Qed.

(** ** Lists *)

Lemma length_filter_le {A} (f : A -> bool) (l : list A) :
  length (List.filter f l) <= length l.
Proof. induction l as [|x l IH]; simpl; [lia|]. destruct (f x); simpl; lia. Qed.

(** The survivors of a pass "update every element, then keep those passing a
    test" satisfy [Q] when every updated element that passes does. *)
Lemma Forall_filter_map {A B} (P : A -> Prop) (Q : B -> Prop)
      (g : A -> B) (keep : B -> bool) (l : list A) :
  Forall P l ->
  (forall x, P x -> keep (g x) = true -> Q (g x)) ->
  Forall Q (List.filter keep (map g l)).
Proof.
  intros Hl HQ. induction Hl as [|x l Hx Hl IH]; simpl; [constructor|].
  destruct (keep (g x)) eqn:E; [constructor|]; auto.
Qed.

(** The same for a pass that first keeps the elements passing a test, then
    updates them. *)
Lemma Forall_map_filter {A B} (P : A -> Prop) (Q : B -> Prop)
      (g : A -> B) (keep : A -> bool) (l : list A) :
  Forall P l ->
  (forall x, P x -> keep x = true -> Q (g x)) ->
  Forall Q (map g (List.filter keep l)).
Proof.
  intros Hl HQ. induction Hl as [|x l Hx Hl IH]; simpl; [constructor|].
  destruct (keep x) eqn:E; simpl; [constructor|]; auto.
Qed.

(** Python's [range(n)]. *)
Definition py_range (n : Z) : list Z := map Z.of_nat (seq 0 (Z.to_nat n)).

Lemma in_py_range (n y : Z) : In y (py_range n) <-> (0 <= y < n)%Z.
Proof.
  unfold py_range. rewrite in_map_iff. split.
  - intros (k & <- & Hk). apply in_seq in Hk. lia.
  - intros Hy. exists (Z.to_nat y). rewrite in_seq. lia.
Qed.

(** Python's [range(start, stop, step)] for a positive [step]. *)
Definition py_range_step (start stop step : Z) : list Z :=
  map (fun k => start + k * step)%Z (py_range ((stop - start + step - 1) / step)).

Lemma Forall_False_nil {A} (l : list A) : Forall (fun _ => False) l -> l = [].
Proof. intros H. destruct H; [done | contradiction]. Qed.

(** ** Automation *)

Create HintDb arcade.
Create Rewrite HintDb arcade_rw.
#[export] Hint Resolve py_int_add_ge py_int_add_small : arcade.
#[export] Hint Rewrite py_int_inject : arcade_rw.

(** Turn the boolean comparisons of a goal's [if]s into hypotheses. *)
Ltac qcase :=
  repeat match goal with
  | |- context [Qltb ?x ?y] =>
      let E := fresh "E" in destruct (Qltb x y) eqn:E;
      [apply Qltb_spec in E | apply Qltb_false in E]
  | |- context [Qleb ?x ?y] =>
      let E := fresh "E" in destruct (Qleb x y) eqn:E;
      [apply Qleb_spec in E | apply Qleb_false in E]
  end.

(** [lra] reads [inject_Z 5] as an unknown: push [inject_Z] through sums
    and differences and unfold it, so that numerals become constants and
    the other integers atoms [z # 1]. *)
Ltac qz := rewrite ?inject_Z_plus, ?inject_Z_sub, ?inject_Z_opp in *; unfold inject_Z in *.

(** Close a decidable goal about concrete data by evaluation. *)
Ltac decide_concrete := apply (bool_decide_unpack _); vm_compute; exact I.

(** Case on the integer comparisons of a goal's [if]s. *)
Ltac zcase :=
  repeat match goal with
  | |- context [(?x <=? ?y)%Z] => destruct (Z.leb_spec x y)
  | |- context [(?x <? ?y)%Z] => destruct (Z.ltb_spec x y)
  | |- context [(?x =? ?y)%Z] => destruct (Z.eqb_spec x y)
  end.
