(* ===== verification/Modes.v ===== *)
(** Modes: the game-state machine of the specification (sections 4.6 and 5),
    the abstract contract the three game loops are proved to implement in
    [GameModes].

    A game is in one of the modes [Attract], [Playing], [Paused] (Pong only),
    [RoundOver], or has exited.  The discrete inputs of a tick ([IPrimary]:
    the click or key press of the attract screen, [IPause], [IRestart],
    [IQuit]) move it between modes deterministically ([spec_input]); the
    terminal condition of a round ([Playing -> RoundOver]) is an internal
    transition of the update pass ([spec_update]).  One tick handles its
    inputs first and then updates ([spec_tick]).  What the specification
    leaves to each game (the initial mode, and whether a restart goes back
    to the attract screen or straight into a new round) is a [ModeConfig]. *)

From S2P Require Import Prelude.

Module Modes.

Inductive Mode := MAttract | MPlaying | MPaused | MRoundOver | MExited.

#[export] Instance Mode_eq_dec : EqDecision Mode.
Proof. solve_decision. Defined.

Inductive Input := IPrimary | IPause | IRestart | IQuit.

Record ModeConfig := { cfg_initial : Mode; cfg_restart : Mode }.

(** One input.  Process exit on a quit event is the only cancellation
    (section 5); an input the current mode does not react to changes
    nothing. *)
Definition spec_input (cfg : ModeConfig) (m : Mode) (i : Input) : Mode :=
  match m, i with
  | MExited, _ => MExited
  | _, IQuit => MExited
  | MAttract, IPrimary => MPlaying
  | MPlaying, IPause => MPaused
  | MPaused, IPause => MPlaying
  | MRoundOver, IRestart => cfg_restart cfg
  | m, _ => m
  end.

Definition spec_inputs (cfg : ModeConfig) (m : Mode) (ins : list Input) : Mode :=
  fold_left (spec_input cfg) ins m.

(** The update pass: a round in play may reach its terminal condition;
    nothing else changes the mode (a paused game is frozen). *)
Definition spec_update (m m' : Mode) : Prop :=
  m' = m \/ (m = MPlaying /\ m' = MRoundOver).

(** One tick: Input, then Update. *)
Definition spec_tick (cfg : ModeConfig) (m : Mode) (ins : list Input) (m' : Mode) : Prop :=
  spec_update (spec_inputs cfg m ins) m'.

(** The modes a game can be in after some ticks. *)
Inductive spec_reachable (cfg : ModeConfig) : Mode -> Prop :=
| spec_reach_init : spec_reachable cfg (cfg_initial cfg)
| spec_reach_tick m ins m' : spec_reachable cfg m -> spec_tick cfg m ins m' -> spec_reachable cfg m'.

(** ** Properties of the machine *)

Lemma spec_inputs_app (cfg : ModeConfig) (m : Mode) (ins1 ins2 : list Input) :
  spec_inputs cfg m (ins1 ++ ins2) = spec_inputs cfg (spec_inputs cfg m ins1) ins2.
Proof. apply fold_left_app. Qed.

Lemma spec_inputs_cons (cfg : ModeConfig) (m : Mode) (i : Input) (ins : list Input) :
  spec_inputs cfg m (i :: ins) = spec_inputs cfg (spec_input cfg m i) ins.
Proof. reflexivity. Qed.

(** Once exited, always exited. *)
Lemma spec_inputs_exited (cfg : ModeConfig) (ins : list Input) :
  spec_inputs cfg MExited ins = MExited.
Proof. induction ins as [|i ins IH]; [done|]. exact IH. Qed.

(** A quit input anywhere in the tick exits. *)
Lemma spec_inputs_quit (cfg : ModeConfig) (m : Mode) (ins1 ins2 : list Input) :
  spec_inputs cfg m (ins1 ++ IQuit :: ins2) = MExited.
Proof.
  rewrite spec_inputs_app, spec_inputs_cons, <- (spec_inputs_exited cfg ins2).
  by destruct (spec_inputs cfg m ins1).
Qed.

Lemma spec_update_refl (m : Mode) : spec_update m m.
Proof. by left. Qed.

Lemma spec_update_end : spec_update MPlaying MRoundOver.
Proof. by right. Qed.

#[export] Hint Resolve spec_update_refl spec_update_end : arcade.

End Modes.
