(* ===== verification/PyRandom.v ===== *)
(** PyRandom: Python's [random] module as an interface.

    Every draw the games make goes through two primitives of [random.Random]:
    [random()] (a float in [[0, 1)]) and [_randbelow(n)] (an int in
    [[0, n)]).  [randint], [randrange], [uniform] and [choice] are written on
    top of them as [Lib/random.py] writes them, so a generator that replays
    the primitives replays the game.  The generator state is threaded through
    the state monad [Rand G] ([ret], [bind] and the notation [x <- m ;; k]
    of the scope [rand_scope]).

    [Always m P] says that every run of [m], from every generator state,
    returns a value satisfying [P]: the theorems on the games are proved in
    this form, from the laws of the class [PyRandomLaws] alone. *)

From S2P Require Import Prelude.

(** The state monad over a generator. *)
Definition Rand (G A : Type) : Type := G -> A * G.

Definition ret {G A} (x : A) : Rand G A := fun g => (x, g).
(** The computation comes first, so that the type of the bound variable is
    known when the continuation is elaborated. *)
Definition bind {G A B} (m : Rand G A) (f : A -> Rand G B) : Rand G B :=
  fun g => let '(a, g') := m g in f a g'.

Declare Scope rand_scope.
Delimit Scope rand_scope with rand.
Notation "x <- m ;; k" := (bind m (fun x => k))
  (at level 100, m at next level, right associativity) : rand_scope.
#[warnings="-notation-incompatible-prefix"]
Notation "' p <- m ;; k" := (bind m (fun x => match x with p => k end))
  (at level 100, p pattern, m at next level, right associativity) : rand_scope.
Open Scope rand_scope.

(** The two primitives of [random.Random]. *)
Class PyRandom (G : Type) := {
  random : Rand G Q;          (** [random.random()] *)
  randbelow : Z -> Rand G Z   (** [random._randbelow(n)] *)
}.

(** What the primitives guarantee. *)
Class PyRandomLaws (G : Type) `{PyRandom G} := {
  random_range : forall g, (0 <= fst (random g) < 1)%Q;
  randbelow_range : forall n g, (0 < n)%Z -> (0 <= fst (randbelow n g) < n)%Z
}.

Section Derived.
Context {G : Type} `{PyRandom G}.

(** [randrange(start, stop)] with step 1: [istart + self._randbelow(width)].
    Python raises [ValueError] when [width <= 0]; every call in the games
    has a non-empty range (see [randint_range]). *)
Definition randrange (start stop : Z) : Rand G Z :=
  k <- randbelow (stop - start);; ret (start + k)%Z.

(** [randint(a, b)]: [self.randrange(a, b+1)]. *)
Definition randint (a b : Z) : Rand G Z := randrange a (b + 1).

(** [uniform(a, b)]: [a + (b-a) * self.random()]. *)
Definition uniform (a b : Q) : Rand G Q :=
  r <- random;; ret (a + (b - a) * r)%Q.

(** [choice(seq)] on a non-empty sequence [x :: xs]:
    [seq[self._randbelow(len(seq))]]. *)
Definition choice {A} (x : A) (xs : list A) : Rand G A :=
  i <- randbelow (Z.of_nat (length (x :: xs)));;
  ret (nth (Z.to_nat i) (x :: xs) x).

(** A sequence of [n] calls of [m] collecting the results, as
    [[m() for _ in range(n)]]. *)
Fixpoint repeatM {A} (n : nat) (m : Rand G A) : Rand G (list A) :=
  match n with
  | O => ret []
  | S n' => x <- m;; xs <- repeatM n' m;; ret (x :: xs)
  end.

(** [for x in xs: x.update()] where each update may draw: the updated
    elements, in order. *)
Fixpoint mapM {A B} (f : A -> Rand G B) (xs : list A) : Rand G (list B) :=
  match xs with
  | [] => ret []
  | x :: xs' => y <- f x;; ys <- mapM f xs';; ret (y :: ys)
  end.

(** [for _ in range(n): x = f(x)] where [f] may draw. *)
Fixpoint iterM {A} (n : nat) (f : A -> Rand G A) (x : A) : Rand G A :=
  match n with
  | O => ret x
  | S n' => y <- f x;; iterM n' f y
  end.

Lemma bind_ret_l {A B} (x : A) (f : A -> Rand G B) : bind (ret x) f = f x.
Proof. reflexivity. Qed.

(** Every run returns a value satisfying [P]. *)
Definition Always {A} (m : Rand G A) (P : A -> Prop) : Prop :=
  forall g, P (fst (m g)).

Lemma always_ret {A} (x : A) (P : A -> Prop) : P x -> Always (ret x) P.
Proof. intros Hx g. exact Hx. Qed.

Lemma always_bind {A B} (m : Rand G A) (f : A -> Rand G B)
      (P : A -> Prop) (R : B -> Prop) :
  Always m P -> (forall a, P a -> Always (f a) R) -> Always (bind m f) R.
Proof.
  intros Hm Hf g. unfold bind. specialize (Hm g).
  destruct (m g) as [a g'] eqn:E. simpl in Hm. apply Hf, Hm.
Qed.

(** A bind whose intermediate result does not matter to [R]. *)
Lemma always_bind_any {A B} (m : Rand G A) (f : A -> Rand G B) (R : B -> Prop) :
  (forall a, Always (f a) R) -> Always (bind m f) R.
Proof. intros Hf g. unfold bind. destruct (m g) as [a g']. apply Hf. Qed.

Lemma always_mono {A} (m : Rand G A) (P R : A -> Prop) :
  Always m P -> (forall a, P a -> R a) -> Always m R.
Proof. intros Hm HPR g. apply HPR, Hm. Qed.

Lemma always_true {A} (m : Rand G A) : Always m (fun _ => True).
Proof. intros g. exact I. Qed.

(** A property of the result that holds whatever the random values, proved
    by binding: the value of a pure function of the draws. *)
Lemma always_fmap {A B} (m : Rand G A) (f : A -> B) (P : B -> Prop) :
  (forall a, P (f a)) -> Always (x <- m ;; ret (f x)) P.
Proof. intros Hf g. unfold bind. destruct (m g). apply Hf. Qed.

(** Every element drawn by [repeatM] satisfies what every run of [m]
    returns. *)
Lemma always_repeatM {A} (n : nat) (m : Rand G A) (P : A -> Prop) :
  Always m P -> Always (repeatM n m) (Forall P).
Proof.
  intros Hm. induction n as [|n IH]; cbn [repeatM]; [by apply always_ret|].
  apply (always_bind _ _ P); [done|]. intros a Ha.
  apply (always_bind _ _ (Forall P)); [done|]. intros l Hl.
  apply always_ret. by constructor.
Qed.

(** Every element [mapM] returns satisfies what [f] guarantees of the
    image of an element satisfying [P]. *)
Lemma always_mapM {A B} (f : A -> Rand G B) (P : A -> Prop) (R : B -> Prop) (xs : list A) :
  Forall P xs -> (forall x, P x -> Always (f x) R) -> Always (mapM f xs) (Forall R).
Proof.
  intros Hxs Hf. induction Hxs as [|x xs Hx _ IH]; cbn [mapM]; [by apply always_ret|].
  apply (always_bind _ _ R); [by apply Hf|]. intros y Hy.
  apply (always_bind _ _ (Forall R)); [done|]. intros ys Hys.
  apply always_ret. by constructor.
Qed.

Context `{!PyRandomLaws G}.

Lemma randint_range (a b : Z) : (a <= b)%Z ->
  Always (randint a b) (fun x => a <= x <= b)%Z.
Proof.
  intros Hab g. unfold randint, randrange, bind.
  pose proof (randbelow_range (b + 1 - a) g ltac:(lia)) as Hr.
  destruct (randbelow (b + 1 - a) g) as [k g'] eqn:E. simpl in *. lia.
Qed.

Lemma uniform_range (a b : Q) : (a <= b)%Q ->
  Always (uniform a b) (fun x => a <= x <= b)%Q.
Proof.
  intros Hab g. unfold uniform, bind.
  pose proof (random_range g) as [H0 H1].
  destruct (random g) as [r g'] eqn:E. simpl in *.
  split; nra.
Qed.

Lemma choice_in {A} (x : A) (xs : list A) :
  Always (choice x xs) (fun y => In y (x :: xs)).
Proof.
  intros g. unfold choice, bind.
  pose proof (randbelow_range (Z.of_nat (length (x :: xs))) g) as Hr.
  destruct (randbelow _ g) as [i g'] eqn:E. simpl in *.
  destruct Hr as [Hlo Hhi]; [lia|].
  destruct (Z.to_nat i) as [|k] eqn:Ei; [by left|].
  right. apply nth_In. lia.
Qed.
End Derived.

#[export] Hint Resolve always_ret always_true : arcade.

(** Run through the binds of a computation whose draws do not matter. *)
Ltac always_run :=
  repeat first [ apply always_ret | apply always_bind_any; intros ? ].

(** ** A scripted generator

    The draws are read from a list of integers: [random()] returns the next
    one modulo 1000, divided by 1000; [_randbelow(n)] the next one modulo
    [n].  An exhausted script reads zeros.  Used by the witnesses to pick the
    outcome of each roll. *)
Definition script_next (g : list Z) : Z * list Z :=
  match g with [] => (0%Z, []) | z :: g' => (z, g') end.

#[export] Instance scripted : PyRandom (list Z) := {
  random := fun g => let '(z, g') := script_next g in ((z mod 1000) # 1000, g');
  randbelow := fun n g => let '(z, g') := script_next g in
                 ((if (0 <? n)%Z then z mod n else 0)%Z, g')
}.

#[export] Instance scripted_laws : PyRandomLaws (list Z).
Proof.
  split.
  - intros g. simpl. destruct (script_next g) as [z g'].
    pose proof (Z.mod_pos_bound z 1000 ltac:(lia)).
    unfold Qle, Qlt; simpl. lia.
  - intros n g Hn. simpl. destruct (script_next g) as [z g'].
    simpl. destruct (Z.ltb_spec 0 n); [|lia]. apply Z.mod_pos_bound. lia.
Qed.
