(* ===== verification/PyMath.v ===== *)
(** PyMath: the functions of Python's [math] module the games call.

    [math.sin] and [math.cos] cannot be computed on rationals: they are the
    operations of the class [Trig], and [TrigLaws] states what the proofs
    use of them (both lie in [[-1, 1]], and the cosine is positive on
    [[-3/2, 3/2]], inside [(-pi/2, pi/2)]).  [math.pi] is the decimal value
    of the double and [math.copysign] is written out.  [trig_flat] (sine 0,
    cosine 1) is a lawful instance for the witnesses. *)

From S2P Require Import Prelude.


Class Trig := { math_sin : Q -> Q; math_cos : Q -> Q }.

Class TrigLaws `{Trig} := {
  sin_range : forall q, (-1 <= math_sin q <= 1)%Q;
  cos_range : forall q, (-1 <= math_cos q <= 1)%Q;
  cos_pos : forall q, (-(3 # 2) <= q <= 3 # 2)%Q -> (0 < math_cos q)%Q
}.

(** [math.pi] to the precision of the double. *)
Definition math_pi : Q := 3141592653589793 # 1000000000000000.

(** [math.copysign(x, y)]: the magnitude of [x] with the sign of [y] (a
    difference of two equal floats is [+0.0], so [y = 0] counts as
    positive). *)
Definition copysign (x y : Q) : Q := if y <q? 0 then (- Qabs x)%Q else Qabs x.

(** A stand-in for the trigonometric functions that satisfies [TrigLaws]. *)
Definition trig_flat : Trig := {| math_sin := fun _ => 0%Q; math_cos := fun _ => 1%Q |}.

#[export] Instance trig_flat_laws : @TrigLaws trig_flat.
Proof. split; intros; cbn; lra. Qed.
