(* ===== verification/Rect.v ===== *)
(** Rect: the part of [pygame.Rect] the games use.

    pygame keeps a Rect as four C ints [x, y, w, h].  The derived attributes
    ([right], [bottom], [centerx], ...) are computed with C integer
    arithmetic ([w / 2] truncates, written [Z.quot]); their setters move the
    rectangle without resizing it.  [colliderect] follows pygame 2's
    [_pg_do_rects_intersect]: rectangles of zero width or height never
    collide, and the comparison is strict, so rectangles that only share an
    edge do not collide either. *)

From S2P Require Import Prelude.

Record Rect := mkRect { rx : Z; ry : Z; rw : Z; rh : Z }.

#[export] Instance Rect_eq_dec : EqDecision Rect.
Proof. solve_decision. Defined.

Module Rect.
Local Open Scope Z_scope.

Definition left (r : Rect) : Z := rx r.
Definition top (r : Rect) : Z := ry r.
Definition right (r : Rect) : Z := rx r + rw r.
Definition bottom (r : Rect) : Z := ry r + rh r.
Definition centerx (r : Rect) : Z := rx r + Z.quot (rw r) 2.
Definition centery (r : Rect) : Z := ry r + Z.quot (rh r) 2.

Definition set_x (r : Rect) (v : Z) : Rect := mkRect v (ry r) (rw r) (rh r).
Definition set_y (r : Rect) (v : Z) : Rect := mkRect (rx r) v (rw r) (rh r).
(** [r.right = v] *)
Definition set_right (r : Rect) (v : Z) : Rect := set_x r (v - rw r).
(** [r.bottom = v] *)
Definition set_bottom (r : Rect) (v : Z) : Rect := set_y r (v - rh r).

(** [surface.get_rect(center=(cx, cy))] for a surface of size [w x h]. *)
Definition from_center (w h cx cy : Z) : Rect :=
  mkRect (cx - Z.quot w 2) (cy - Z.quot h 2) w h.

(** [surface.get_rect(midbottom=(cx, by))]. *)
Definition from_midbottom (w h cx by_ : Z) : Rect :=
  mkRect (cx - Z.quot w 2) (by_ - h) w h.

(** [r.inflate(dx, dy)]: the same centre, the size grown by [dx, dy]
    (pygame moves the corner by [dx / 2] in C arithmetic). *)
Definition inflate (r : Rect) (dx dy : Z) : Rect :=
  mkRect (rx r - Z.quot dx 2) (ry r - Z.quot dy 2) (rw r + dx) (rh r + dy).

(** [A.colliderect(B)]. *)
Definition colliderect (a b : Rect) : bool :=
  if (rw a =? 0) || (rh a =? 0) || (rw b =? 0) || (rh b =? 0) then false
  else (Z.min (rx a) (rx a + rw a) <? Z.max (rx b) (rx b + rw b)) &&
       (Z.min (ry a) (ry a + rh a) <? Z.max (ry b) (ry b + rh b)) &&
       (Z.min (rx b) (rx b + rw b) <? Z.max (rx a) (rx a + rw a)) &&
       (Z.min (ry b) (ry b + rh b) <? Z.max (ry a) (ry a + rh a)).

(** A rectangle of positive size. *)
Definition positive (r : Rect) : Prop := 0 < rw r /\ 0 < rh r.

Lemma colliderect_sym (a b : Rect) : colliderect a b = colliderect b a.
Proof.
  unfold colliderect.
  destruct (rw a =? 0), (rh a =? 0), (rw b =? 0), (rh b =? 0); simpl; try done.
  destruct (Z.min (rx a) _ <? _), (Z.min (ry a) _ <? _),
           (Z.min (rx b) _ <? _), (Z.min (ry b) _ <? _); done.
Qed.

(** On rectangles of positive size, [colliderect] is the usual test that
    the open boxes overlap on both axes. *)
Lemma colliderect_iff (a b : Rect) : positive a -> positive b ->
  colliderect a b = true <->
  left a < right b /\ top a < bottom b /\ left b < right a /\ top b < bottom a.
Proof.
  intros [Ha1 Ha2] [Hb1 Hb2].
  unfold colliderect, left, right, top, bottom.
  rewrite !Z.min_l, !Z.max_r by lia.
  destruct (Z.eqb_spec (rw a) 0), (Z.eqb_spec (rh a) 0),
           (Z.eqb_spec (rw b) 0), (Z.eqb_spec (rh b) 0); try lia; simpl.
  rewrite !andb_true_iff, !Z.ltb_lt. tauto.
Qed.

(** A rectangle entirely above the top edge of another one does not touch
    it. *)
Lemma colliderect_above (a b : Rect) : positive a -> positive b ->
  bottom a <= top b -> colliderect a b = false.
Proof.
  intros Ha Hb Hab. destruct (colliderect a b) eqn:E; [|done].
  apply colliderect_iff in E; [|done..]. lia.
Qed.

(** A rectangle entirely to the left of another one does not touch it. *)
Lemma colliderect_left_of (a b : Rect) : positive a -> positive b ->
  right a <= left b -> colliderect a b = false.
Proof.
  intros Ha Hb Hab. destruct (colliderect a b) eqn:E; [|done].
  apply colliderect_iff in E; [|done..]. lia.
Qed.
End Rect.

#[export] Hint Resolve Rect.colliderect_above Rect.colliderect_left_of : arcade.
