(* ===== verification/Draw.v ===== *)
(** Draw: the pygame drawing calls the games make, as data.

    A draw method is modelled as the list of calls it makes on its target
    surface ([DrawCmd]): [surface.fill], [pygame.draw.line], [rect],
    [ellipse], [circle] and [polygon], the blit of a rendered text, and a
    surface drawn on and then blitted ([DLayer]: a fresh [SRCALPHA]
    surface, or one drawn once at start-up and blitted every frame).  Colours are the tuples the code passes (three or
    four components); texts are the f-strings, as literal pieces and
    integers.

    pygame rejects a colour that is not three or four integers in
    [[0, 255]] ([ValueError: invalid color argument]) and a polygon of
    fewer than three points; [cmd_ok] checks both, and is the
    well-typedness of a drawing the game theorems establish. *)

From Stdlib Require Import String.
From S2P Require Import Prelude.

Module Draw.
Local Open Scope Z_scope.

(** A colour argument: [(r, g, b)] or [(r, g, b, a)]. *)
Definition ColorArg := list Z.

Definition rgb (c : Z * Z * Z) : ColorArg := let '(r, g, b) := c in [r; g; b].

(** [( *c, a)] *)
Definition rgba (c : Z * Z * Z) (a : Z) : ColorArg := rgb c ++ [a].

(** A piece of an f-string: literal text or an integer field. *)
Inductive TextPiece := TStr (s : string) | TInt (z : Z).

(** Where a rendered text is blitted: its top-left corner, or its centre
    ([get_rect(center=...)]). *)
Inductive Anchor := TopLeft | Center.

Inductive DrawCmd :=
| DFill (c : ColorArg)
| DLine (c : ColorArg) (p q : Q * Q) (width : Z)
| DRect (c : ColorArg) (x y w h : Z) (width radius : Z)
| DEllipse (c : ColorArg) (x y w h : Z)
| DCircle (c : ColorArg) (center : Q * Q) (radius width : Z)
| DPolygon (c : ColorArg) (pts : list (Q * Q)) (width : Z)
| DText (font_size : Z) (text : list TextPiece) (c : ColorArg) (anchor : Anchor) (pos : Z * Z)
| DLayer (w h : Z) (inner : list DrawCmd) (pos : Z * Z).

(** Whether pygame can hand out a font of a given size on this machine: the
    outcome of [get_font]'s fallbacks ([SysFont], the default font,
    [Font(None, size)]), which depends on the installation only. *)
Class Fonts := { font_loads : Z -> bool }.

(** pygame's colour argument check. *)
Definition valid_color (c : ColorArg) : bool :=
  ((length c =? 3)%nat || (length c =? 4)%nat) && forallb (fun x => (0 <=? x) && (x <=? 255)) c.

Fixpoint cmd_ok (d : DrawCmd) : bool :=
  match d with
  | DFill c | DLine c _ _ _ | DRect c _ _ _ _ _ _ | DEllipse c _ _ _ _
  | DCircle c _ _ _ | DText _ _ c _ _ => valid_color c
  | DPolygon c pts _ => valid_color c && (3 <=? length pts)%nat
  | DLayer _ _ inner _ => forallb cmd_ok inner
  end.

Definition cmds_ok (ds : list DrawCmd) : bool := forallb cmd_ok ds.

(** ** Lemmas *)

Lemma cmds_ok_app (d1 d2 : list DrawCmd) :
  cmds_ok (d1 ++ d2) = cmds_ok d1 && cmds_ok d2.
Proof. apply forallb_app. Qed.

Lemma cmds_ok_cons (d : DrawCmd) (ds : list DrawCmd) :
  cmds_ok (d :: ds) = cmd_ok d && cmds_ok ds.
Proof. reflexivity. Qed.

Lemma cmds_ok_flat_map {A} (f : A -> list DrawCmd) (l : list A) :
  (forall x, In x l -> cmds_ok (f x) = true) -> cmds_ok (flat_map f l) = true.
Proof.
  induction l as [|x l IH]; intros Hf; [done|].
  cbn [flat_map]. rewrite cmds_ok_app, Hf, IH; auto with datatypes.
Qed.

Lemma cmds_ok_map {A} (f : A -> DrawCmd) (l : list A) :
  (forall x, In x l -> cmd_ok (f x) = true) -> cmds_ok (map f l) = true.
Proof.
  induction l as [|x l IH]; intros Hf; [done|].
  cbn [map]. rewrite cmds_ok_cons, Hf, IH; auto with datatypes.
Qed.

Lemma cmds_ok_imap {A} (f : nat -> A -> DrawCmd) (l : list A) :
  (forall i x, l !! i = Some x -> cmd_ok (f i x) = true) -> cmds_ok (imap f l) = true.
Proof.
  revert f. induction l as [|x l IH]; intros f Hf; [done|].
  rewrite imap_cons, cmds_ok_cons, (Hf 0%nat x eq_refl). apply IH.
  intros i y Hy. exact (Hf (S i) y Hy).
Qed.

Lemma valid_color_rgb (r g b : Z) :
  0 <= r <= 255 -> 0 <= g <= 255 -> 0 <= b <= 255 -> valid_color (rgb (r, g, b)) = true.
Proof.
  intros Hr Hg Hb. unfold valid_color, rgb. cbn.
  repeat match goal with |- context [?x <=? ?y] => destruct (Z.leb_spec x y) end; cbn; lia.
Qed.

Lemma valid_color_rgba (r g b a : Z) :
  0 <= r <= 255 -> 0 <= g <= 255 -> 0 <= b <= 255 -> 0 <= a <= 255 ->
  valid_color (rgba (r, g, b) a) = true.
Proof.
  intros Hr Hg Hb Ha. unfold valid_color, rgba, rgb. cbn.
  repeat match goal with |- context [?x <=? ?y] => destruct (Z.leb_spec x y) end; cbn; lia.
Qed.

End Draw.

(** Checks the drawing of a concrete list of calls, and splits a symbolic
    one into its calls. *)
Ltac draw_ok :=
  repeat first [ rewrite Draw.cmds_ok_app | rewrite Draw.cmds_ok_cons ];
  cbn [Draw.cmd_ok Draw.cmds_ok forallb andb]; rewrite ?andb_true_iff; split_and?; try reflexivity.
