(* ===== verification/SIObjects.v ===== *)
(** SIObjects: the entity classes of [src/apps/arcade/games/SpaceInvader.py].

    One Record per class ([Star], [Particle], [Player], [Bullet], [Alien],
    [AlienBullet], [PowerUp]) with the attributes the class sets in
    [__init__], and one definition per method that changes state, named
    [<Class>_<method>].  A particle system is the list of its particles.
    Constructors and methods that draw random numbers live in [Rand G] and
    draw them in the order of the code.

    The screen size ([SCREEN_WIDTH], [SCREEN_HEIGHT]: 800x600 or the
    launcher's [ARCADE_WINDOW_SIZE], at least 320x240 after
    [parse_window_size]) is the class [Screen], with the law [ScreenLaws]
    that [SIWindow] proves of the configured screen; [math.sin] is the class
    [Trig] of [PyMath].

    The theorems bound the life of every transient entity: player bullets,
    particles, aliens, power-up timers; they bound the ship's horizontal
    position and state the shot cooldown. *)

From S2P Require Import Prelude PyRandom PyMath Rect.

(** ** Configuration read at start-up *)

Class Screen := { SCREEN_WIDTH : Z; SCREEN_HEIGHT : Z }.

(** [parse_window_size] never returns less than 320x240 and the default is
    800x600. *)
Class ScreenLaws `{Screen} := {
  screen_min : (320 <= SCREEN_WIDTH /\ 240 <= SCREEN_HEIGHT)%Z
}.

Definition PLAYER_SPEED : Z := 6.
Definition BULLET_SPEED : Z := 10.
Definition ALIEN_SPAWN_RATE : Z := 60.
Definition POWERUP_SPEED : Z := 3.

Definition Color : Type := (Z * Z * Z)%type.
Definition WHITE : Color := (255, 255, 255)%Z.
Definition RED : Color := (255, 0, 0)%Z.
Definition BLUE : Color := (0, 150, 255)%Z.
Definition ORANGE : Color := (255, 165, 0)%Z.
Definition PURPLE : Color := (200, 0, 255)%Z.
Definition CYAN : Color := (0, 255, 255)%Z.
Definition BLACK : Color := (0, 0, 0)%Z.
Definition GREEN : Color := (0, 255, 0)%Z.
Definition YELLOW : Color := (255, 255, 0)%Z.

(** [Player.move]'s direction argument, ["left"] or ["right"]. *)
Inductive Direction := DirLeft | DirRight.

(** The two power-up types, ["triple"] and ["shield"]. *)
Inductive PowerUpType := Triple | Shield.

#[export] Instance PowerUpType_eq_dec : EqDecision PowerUpType.
Proof. solve_decision. Defined.

Record Star := mkStar {
  star_x : Z; star_y : Q; star_speed : Q; star_brightness : Z; star_size : Z }.

Record Particle := mkParticle {
  pt_x : Q; pt_y : Q; pt_color : Color; pt_vx : Q; pt_vy : Q;
  pt_lifetime : Z; pt_size : Q }.

Record Bullet := mkBullet { b_rect : Rect; b_speed : Z; b_angle : Z }.

Record Player := mkPlayer {
  pl_rect : Rect; pl_speed : Z; pl_bullets : list Bullet;
  pl_shoot_delay : Z; pl_max_shoot_delay : Z;
  pl_powerup_active : bool; pl_powerup_timer : Z;
  pl_shield_active : bool; pl_shield_timer : Z; pl_engine_glow : Z }.

Record Alien := mkAlien {
  al_type : Z; al_rect : Rect; al_speed_y : Q; al_speed_x : Q; al_points : Z;
  al_shoot_cooldown : Z; al_wobble : Q }.

Record AlienBullet := mkAlienBullet { ab_rect : Rect; ab_speed : Z }.

Record PowerUp := mkPowerUp {
  pu_type : PowerUpType; pu_rect : Rect; pu_speed : Z; pu_wobble : Q }.

Section Objects.
Context `{Screen} `{Trig} {G : Type} `{PyRandom G}.
Local Open Scope Z_scope.

(** ** Star *)

Definition Star_init : Rand G Star :=
  x <- randint 0 SCREEN_WIDTH;;
  y <- randint 0 SCREEN_HEIGHT;;
  speed <- uniform (1 # 2) 2;;
  brightness <- randint 100 255;;
  size <- randint 1 3;;
  ret (mkStar x (inject_Z y) speed brightness size).

Definition Star_update (s : Star) : Rand G Star :=
  let y := (star_y s + star_speed s)%Q in
  if inject_Z SCREEN_HEIGHT <q? y then
    x <- randint 0 SCREEN_WIDTH;;
    ret (mkStar x 0 (star_speed s) (star_brightness s) (star_size s))
  else ret (mkStar (star_x s) y (star_speed s) (star_brightness s) (star_size s)).

(** ** Particle and ParticleSystem *)

Definition Particle_init (x y : Q) (color : Color) : Rand G Particle :=
  vx <- uniform (-4) 4;;
  vy <- uniform (-4) 4;;
  size <- randint 2 6;;
  ret (mkParticle x y color vx vy 40 (inject_Z size)).

Definition Particle_update (p : Particle) : Particle :=
  let size := (pt_size p - (1 # 10))%Q in
  mkParticle (pt_x p + pt_vx p)%Q (pt_y p + pt_vy p)%Q (pt_color p)
    (pt_vx p) (pt_vy p + (1 # 5))%Q (pt_lifetime p - 1)
    (if (1 <q? size) then size else 1%Q).

(** [ParticleSystem.emit]: [count] new particles appended in order. *)
Definition ParticleSystem_emit (ps : list Particle) (x y : Q) (color : Color)
    (count : Z) : Rand G (list Particle) :=
  fresh <- repeatM (Z.to_nat count) (Particle_init x y color);;
  ret (ps ++ fresh).

(** [ParticleSystem.update]: drop the dead particles, then update the
    others. *)
Definition ParticleSystem_update (ps : list Particle) : list Particle :=
  map Particle_update (List.filter (fun p => 0 <? pt_lifetime p) ps).

(** ** Bullet *)

Definition Bullet_init (x y angle : Z) : Bullet :=
  mkBullet (Rect.from_center 4 18 x y) BULLET_SPEED angle.

Definition Bullet_move (b : Bullet) : Bullet :=
  let r := b_rect b in
  mkBullet (mkRect (rx r + b_angle b * 2) (ry r - b_speed b) (rw r) (rh r))
    (b_speed b) (b_angle b).

(** ** Player *)

Definition Player_init : Player :=
  mkPlayer (Rect.from_midbottom 60 50 (py_int (inject_Z SCREEN_WIDTH / 2))
              (SCREEN_HEIGHT - 40))
    PLAYER_SPEED [] 0 10 false 0 false 0 0.

Definition with_rect (p : Player) (r : Rect) : Player :=
  mkPlayer r (pl_speed p) (pl_bullets p) (pl_shoot_delay p)
    (pl_max_shoot_delay p) (pl_powerup_active p) (pl_powerup_timer p)
    (pl_shield_active p) (pl_shield_timer p) (pl_engine_glow p).

Definition with_bullets (p : Player) (bs : list Bullet) (delay : Z) : Player :=
  mkPlayer (pl_rect p) (pl_speed p) bs delay
    (pl_max_shoot_delay p) (pl_powerup_active p) (pl_powerup_timer p)
    (pl_shield_active p) (pl_shield_timer p) (pl_engine_glow p).

Definition with_powerups (p : Player) (pa : bool) (pt : Z) (sa : bool) (st : Z)
    : Player :=
  mkPlayer (pl_rect p) (pl_speed p) (pl_bullets p) (pl_shoot_delay p)
    (pl_max_shoot_delay p) pa pt sa st (pl_engine_glow p).

Definition Player_move (p : Player) (dir : Direction) : Player :=
  let r := pl_rect p in
  match dir with
  | DirLeft => if 0 <? Rect.left r then with_rect p (Rect.set_x r (rx r - pl_speed p)) else p
  | DirRight =>
      if Rect.right r <? SCREEN_WIDTH then with_rect p (Rect.set_x r (rx r + pl_speed p))
      else p
  end.

Definition Player_shoot (p : Player) : Player :=
  if pl_shoot_delay p <=? 0 then
    let r := pl_rect p in
    let shots :=
      if pl_powerup_active p then
        [Bullet_init (Rect.centerx r) (Rect.top r) 0;
         Bullet_init (Rect.centerx r - 20) (Rect.top r + 10) (-1);
         Bullet_init (Rect.centerx r + 20) (Rect.top r + 10) 1]
      else [Bullet_init (Rect.centerx r) (Rect.top r) 0] in
    with_bullets p (pl_bullets p ++ shots) (pl_max_shoot_delay p)
  else p.

(** The bullets that survive a frame: each one moves, and is removed once
    its bottom edge is above the screen. *)
Definition bullets_step (bs : list Bullet) : list Bullet :=
  List.filter (fun b => negb (Rect.bottom (b_rect b) <? 0)) (map Bullet_move bs).

Definition Player_update_bullets (p : Player) : Player :=
  let delay := if 0 <? pl_shoot_delay p then pl_shoot_delay p - 1 else pl_shoot_delay p in
  with_bullets p (bullets_step (pl_bullets p)) delay.

(** One power-up timer: count down while active, switch off at zero. *)
Definition timer_step (active : bool) (timer : Z) : bool * Z :=
  if active then (negb (timer - 1 <=? 0), timer - 1) else (active, timer).

Definition Player_update_powerups (p : Player) : Player :=
  let '(pa, pt) := timer_step (pl_powerup_active p) (pl_powerup_timer p) in
  let '(sa, st) := timer_step (pl_shield_active p) (pl_shield_timer p) in
  with_powerups p pa pt sa st.

Definition Player_activate_powerup (p : Player) (t : PowerUpType) : Player :=
  match t with
  | Triple => with_powerups p true 400 (pl_shield_active p) (pl_shield_timer p)
  | Shield => with_powerups p (pl_powerup_active p) (pl_powerup_timer p) true 400
  end.

(** The one state change [Player.draw] makes: the engine glow animation. *)
Definition Player_draw (p : Player) : Player :=
  mkPlayer (pl_rect p) (pl_speed p) (pl_bullets p) (pl_shoot_delay p)
    (pl_max_shoot_delay p) (pl_powerup_active p) (pl_powerup_timer p)
    (pl_shield_active p) (pl_shield_timer p) ((pl_engine_glow p + 1) mod 20).

(** ** Alien *)

Definition Alien_init (ticks x alien_type : Z) : Rand G Alien :=
  '(sy, sx, points) <-
    (if alien_type =? 0 then
       sy <- uniform (3 # 2) (5 # 2);; ret (sy, 0%Q, 10)
     else if alien_type =? 1 then
       sy <- uniform 2 3;;
       d <- choice (-1) [1];;
       m <- uniform (1 # 2) (3 # 2);;
       ret (sy, (inject_Z d * m)%Q, 20)
     else
       sy <- uniform (5 # 2) (7 # 2);;
       ret (sy, (math_sin (inject_Z ticks / 1000) * 2)%Q, 30));;
  cooldown <- randint 60 180;;
  wobble <- uniform 0 (math_pi * 2);;
  ret (mkAlien alien_type (Rect.from_center 50 50 x (-50)) sy sx points
          cooldown wobble).

Definition Alien_move (a : Alien) : Alien :=
  let r := al_rect a in
  let y := py_int (inject_Z (ry r) + al_speed_y a) in
  let wobble := if 1 <=? al_type a then (al_wobble a + (1 # 20))%Q else al_wobble a in
  let x := if 1 <=? al_type a
           then py_int (inject_Z (rx r) + math_sin wobble * (3 # 2))
           else py_int (inject_Z (rx r) + al_speed_x a) in
  let r1 := mkRect x y (rw r) (rh r) in
  let '(r2, sx) :=
    if Rect.left r1 <? 0 then (Rect.set_x r1 0, (- al_speed_x a)%Q)
    else if SCREEN_WIDTH <? Rect.right r1 then
      (Rect.set_right r1 SCREEN_WIDTH, (- al_speed_x a)%Q)
    else (r1, al_speed_x a) in
  mkAlien (al_type a) r2 (al_speed_y a) sx (al_points a) (al_shoot_cooldown a)
    wobble.

Definition with_cooldown (a : Alien) (c : Z) : Alien :=
  mkAlien (al_type a) (al_rect a) (al_speed_y a) (al_speed_x a) (al_points a)
    c (al_wobble a).

Definition Alien_can_shoot (a : Alien) : Rand G (bool * Alien) :=
  let c := al_shoot_cooldown a - 1 in
  if c <=? 0 then
    c' <- randint 80 200;; ret (true, with_cooldown a c')
  else ret (false, with_cooldown a c).

(** ** AlienBullet *)

Definition AlienBullet_init (x y : Z) : AlienBullet :=
  mkAlienBullet (Rect.from_center 6 16 x y) 4.

Definition AlienBullet_move (b : AlienBullet) : AlienBullet :=
  let r := ab_rect b in
  mkAlienBullet (Rect.set_y r (ry r + ab_speed b)) (ab_speed b).

(** ** PowerUp *)

Definition PowerUp_init (x y : Z) (t : PowerUpType) : PowerUp :=
  mkPowerUp t (Rect.from_center 25 25 x y) POWERUP_SPEED 0.

Definition PowerUp_move (p : PowerUp) : PowerUp :=
  let r := pu_rect p in
  let wobble := (pu_wobble p + (1 # 10))%Q in
  let x := py_int (inject_Z (rx r) + math_sin wobble * (1 # 2)) in
  mkPowerUp (pu_type p) (mkRect x (ry r + pu_speed p) (rw r) (rh r)) (pu_speed p)
    wobble.
End Objects.

(** ** Entity lifetimes and bounds *)

Section ObjectProofs.
Context `{Screen} `{Trig} {G : Type} `{PyRandom G}.
Local Open Scope Z_scope.

Lemma Bullet_move_bottom (b : Bullet) :
  Rect.bottom (b_rect (Bullet_move b)) = Rect.bottom (b_rect b) - b_speed b.
Proof. unfold Rect.bottom; simpl. lia. Qed.

Lemma Bullet_move_speed (b : Bullet) : b_speed (Bullet_move b) = b_speed b.
Proof. reflexivity. Qed.

(** Bullets whose bottom edge is less than [k] frames of travel away from
    the top of the screen are all gone after [k] frames. *)
Lemma bullets_step_iter_nil (n : nat) (bs : list Bullet) :
  Forall (fun b => b_speed b = BULLET_SPEED /\
                   Rect.bottom (b_rect b) < BULLET_SPEED * Z.of_nat (S n)) bs ->
  Nat.iter (S n) bullets_step bs = [].
Proof.
  revert bs. induction n as [|n IH]; intros bs Hbs.
  - apply Forall_False_nil. simpl. unfold bullets_step.
    eapply Forall_filter_map; [exact Hbs|].
    intros b [Hs Hb] Hk. apply negb_true_iff, Z.ltb_ge in Hk.
    rewrite Bullet_move_bottom in Hk. unfold BULLET_SPEED in *. lia.
  - rewrite Nat.iter_succ_r. apply IH. unfold bullets_step.
    eapply Forall_filter_map; [exact Hbs|].
    intros b [Hs Hb] Hk. apply negb_true_iff, Z.ltb_ge in Hk.
    rewrite Bullet_move_bottom, Bullet_move_speed. unfold BULLET_SPEED in *. lia.
Qed.

Lemma Player_update_bullets_iter (n : nat) (p : Player) :
  pl_bullets (Nat.iter n Player_update_bullets p) = Nat.iter n bullets_step (pl_bullets p).
Proof.
  induction n as [|n IH]; [done|]. simpl. by rewrite IH.
Qed.

(** C26: Player bullets have a bounded life: a bullet whose bottom edge is at
    [y] leaves the player's list within [y / 10 + 1] frames, so with no new
    shot the list is empty after that many calls of [update_bullets]. *)
Theorem player_bullets_expire (n : nat) (p : Player) :
  Forall (fun b => b_speed b = BULLET_SPEED /\
                   Rect.bottom (b_rect b) < BULLET_SPEED * Z.of_nat (S n)) (pl_bullets p) ->
  pl_bullets (Nat.iter (S n) Player_update_bullets p) = [].
Proof.
  intros Hbs. rewrite Player_update_bullets_iter. by apply bullets_step_iter_nil.
Qed.

(** C27: Particles have a bounded life: with no new emission, particles whose
    [lifetime] is at most [n] are all gone after [n + 1] updates (the
    system drops a particle the update after its lifetime reaches 0). *)
Theorem particles_expire (n : nat) (ps : list Particle) :
  Forall (fun p => pt_lifetime p <= Z.of_nat n) ps ->
  Nat.iter (S n) ParticleSystem_update ps = [].
Proof.
  revert ps. induction n as [|n IH]; intros ps Hps.
  - apply Forall_False_nil. simpl. unfold ParticleSystem_update.
    eapply Forall_map_filter; [exact Hps|].
    intros p Hp Hk. apply Z.ltb_lt in Hk. cbn in *. lia.
  - rewrite Nat.iter_succ_r. apply IH. unfold ParticleSystem_update.
    eapply Forall_map_filter; [exact Hps|].
    intros p Hp Hk. apply Z.ltb_lt in Hk. cbn in *. lia.
Qed.
(** *** Aliens descend and leave the field *)

Lemma Alien_move_top (a : Alien) : (1 <= al_speed_y a)%Q ->
  Rect.top (al_rect a) + 1 <= Rect.top (al_rect (Alien_move a)).
Proof.
  intros Hs. unfold Alien_move, Rect.top.
  destruct (Rect.left _ <? 0); [|destruct (SCREEN_WIDTH <? _)]; simpl;
    apply py_int_add_ge; exact Hs.
Qed.

Lemma Alien_move_speed_y (a : Alien) : al_speed_y (Alien_move a) = al_speed_y a.
Proof.
  unfold Alien_move. destruct (Rect.left _ <? 0); [|destruct (SCREEN_WIDTH <? _)]; done.
Qed.

Lemma Alien_move_iter_top (n : nat) (a : Alien) : (1 <= al_speed_y a)%Q ->
  Rect.top (al_rect a) + Z.of_nat n <= Rect.top (al_rect (Nat.iter n Alien_move a)).
Proof.
  revert a. induction n as [|n IH]; intros a Hs; [simpl; lia|].
  rewrite Nat.iter_succ_r.
  pose proof (Alien_move_top a Hs).
  pose proof (IH (Alien_move a) ltac:(by rewrite Alien_move_speed_y)). lia.
Qed.

Context `{!PyRandomLaws G}.

Lemma Alien_init_shape (ticks x alien_type : Z) :
  Always (Alien_init ticks x alien_type)
    (fun a => (3 # 2 <= al_speed_y a)%Q /\ Rect.top (al_rect a) = -75).
Proof.
  unfold Alien_init.
  apply always_bind with (P := fun t => (3 # 2 <= fst (fst t))%Q).
  - destruct (alien_type =? 0); [|destruct (alien_type =? 1)].
    + eapply always_bind; [apply uniform_range; lra|].
      intros sy Hsy. apply always_ret. cbn in *. lra.
    + eapply always_bind; [apply uniform_range; lra|].
      intros sy Hsy. eapply always_bind; [apply always_true|]. intros d _.
      eapply always_bind; [apply always_true|]. intros m _.
      apply always_ret. cbn in *. lra.
    + eapply always_bind; [apply uniform_range; lra|].
      intros sy Hsy. apply always_ret. cbn in *. lra.
  - intros [[sy sx] pts] Hsy. simpl in Hsy.
    eapply always_bind; [apply always_true|]. intros c _.
    eapply always_bind; [apply always_true|]. intros w _.
    apply always_ret. split; [exact Hsy|]. reflexivity.
Qed.

(** C23: Every alien the spawner creates leaves the field: whatever the random
    draws, [SCREEN_HEIGHT + 76] moves put its top edge below the bottom of
    the screen, where [move_aliens] removes it. *)
Theorem spawned_alien_leaves (ticks x alien_type : Z) :
  Always (Alien_init ticks x alien_type)
    (fun a => forall n : nat, SCREEN_HEIGHT + 75 < Z.of_nat n ->
              SCREEN_HEIGHT < Rect.top (al_rect (Nat.iter n Alien_move a))).
Proof.
  eapply always_mono; [apply Alien_init_shape|].
  intros a [Hs Htop] n Hn.
  pose proof (Alien_move_iter_top n a ltac:(lra)). lia.
Qed.
End ObjectProofs.

Section PlayerProofs.
Context `{Screen}.
Local Open Scope Z_scope.

(** *** The ship's horizontal bounds *)

(** [Player.move] only tests that the ship is not yet past an edge before
    moving by [PLAYER_SPEED], so the ship may overshoot an edge by up to
    [PLAYER_SPEED - 1] pixels, and never by more. *)
Definition ship_in_bounds (p : Player) : Prop :=
  - PLAYER_SPEED < Rect.left (pl_rect p) /\
  Rect.right (pl_rect p) < SCREEN_WIDTH + PLAYER_SPEED.

(** C38: [Player.move] preserves [ship_in_bounds]: the ship never gets
    [PLAYER_SPEED] pixels or more past an edge of the screen. *)
Theorem Player_move_in_bounds (p : Player) (d : Direction) :
  pl_speed p = PLAYER_SPEED -> ship_in_bounds p -> ship_in_bounds (Player_move p d).
Proof.
  unfold ship_in_bounds, Player_move, Rect.left, Rect.right, PLAYER_SPEED.
  intros Hs [Hl Hr]. rewrite Hs.
  destruct d; zcase; simpl; lia.
Qed.

Lemma Player_init_in_bounds `{!ScreenLaws} : ship_in_bounds Player_init.
Proof.
  destruct screen_min as [Hw Hh].
  unfold ship_in_bounds, Player_init, Rect.from_midbottom, Rect.left, Rect.right,
    PLAYER_SPEED, py_int; simpl.
  rewrite Z.mul_1_r, Z.quot_div_nonneg by lia.
  change (Z.pos (1 * 2)) with 2. change (Z.quot 60 2) with 30.
  pose proof (Z.div_mod (@SCREEN_WIDTH _) 2). pose proof (Z.mod_pos_bound (@SCREEN_WIDTH _) 2).
  lia.
Qed.

(** *** Shot cooldown *)

Lemma Player_shoot_blocked (p : Player) : 0 < pl_shoot_delay p -> Player_shoot p = p.
Proof. intros Hd. unfold Player_shoot. zcase; [lia|done]. Qed.

Lemma Player_update_bullets_delay_iter (k : nat) (p : Player) :
  0 <= pl_shoot_delay p ->
  pl_shoot_delay (Nat.iter k Player_update_bullets p) = Z.max 0 (pl_shoot_delay p - Z.of_nat k).
Proof.
  intros Hd. induction k as [|k IH]; simpl; [lia|].
  rewrite IH. zcase; lia.
Qed.

Lemma Player_shoot_fires (p : Player) :
  pl_shoot_delay p <= 0 ->
  length (pl_bullets (Player_shoot p)) =
    (length (pl_bullets p) + if pl_powerup_active p then 3 else 1)%nat /\
  pl_shoot_delay (Player_shoot p) = pl_max_shoot_delay p.
Proof.
  intros Hd. unfold Player_shoot. zcase; [|lia]. cbn.
  rewrite length_app. by destruct (pl_powerup_active p).
Qed.

Lemma Player_shoot_keeps (p : Player) :
  pl_powerup_active (Player_shoot p) = pl_powerup_active p /\
  pl_max_shoot_delay (Player_shoot p) = pl_max_shoot_delay p.
Proof. unfold Player_shoot. by zcase. Qed.

Lemma Player_update_bullets_iter_keeps (k : nat) (p : Player) :
  pl_powerup_active (Nat.iter k Player_update_bullets p) = pl_powerup_active p /\
  pl_max_shoot_delay (Nat.iter k Player_update_bullets p) = pl_max_shoot_delay p.
Proof. induction k as [|k IH]; [done|]. exact IH. Qed.

(** C39: The gun fires one volley per 10 frames: an armed ship's [shoot]
    appends a volley (three bullets under the triple-shot power-up, one
    otherwise); for the next 9 frames of [update_bullets] [shoot] does
    nothing, and from the 10th frame on [shoot] appends a full volley again. *)
Theorem Player_shoot_rate (p : Player) (k : nat) :
  pl_shoot_delay p <= 0 -> pl_max_shoot_delay p = 10 ->
  let volley := if pl_powerup_active p then 3%nat else 1%nat in
  let q := Nat.iter k Player_update_bullets (Player_shoot p) in
  length (pl_bullets (Player_shoot p)) = (length (pl_bullets p) + volley)%nat /\
  ((k < 10)%nat -> Player_shoot q = q) /\
  ((10 <= k)%nat -> length (pl_bullets (Player_shoot q)) = (length (pl_bullets q) + volley)%nat).
Proof.
  intros Hd Hm volley q.
  destruct (Player_shoot_fires p Hd) as [Hl Hs].
  destruct (Player_shoot_keeps p) as [Ha Hm'].
  destruct (Player_update_bullets_iter_keeps k (Player_shoot p)) as [Ha' _].
  assert (Hq : pl_shoot_delay q = Z.max 0 (10 - Z.of_nat k)).
  { unfold q. rewrite Player_update_bullets_delay_iter; lia. }
  split; [exact Hl|]. split; intros Hk; [apply Player_shoot_blocked; lia|].
  destruct (Player_shoot_fires q ltac:(lia)) as [Hl' _].
  rewrite Hl'. unfold q, volley. by rewrite Ha', Ha.
Qed.

(** *** Power-up timers *)

Lemma timer_step_off (k : nat) (t : Z) :
  Nat.iter k (fun s => timer_step (fst s) (snd s)) (false, t) = (false, t).
Proof. induction k as [|k IH]; simpl; [done|]. by rewrite IH. Qed.

Lemma timer_step_iter (k : nat) (t : Z) : 0 < t ->
  Nat.iter k (fun s => timer_step (fst s) (snd s)) (true, t) =
  if (Z.of_nat k <? t) then (true, t - Z.of_nat k) else (false, 0).
Proof.
  revert t. induction k as [|k IH]; intros t Ht; [simpl; zcase; f_equal; lia|].
  rewrite Nat.iter_succ_r. simpl (timer_step _ _).
  destruct (Z.leb_spec (t - 1) 0); simpl.
  - assert (t = 1) by lia. subst. rewrite timer_step_off. zcase; [lia|done].
  - rewrite IH by lia. zcase; try lia; f_equal; lia.
Qed.

(** Which timer a power-up type drives. *)
Definition powerup_state (t : PowerUpType) (p : Player) : bool * Z :=
  match t with
  | Triple => (pl_powerup_active p, pl_powerup_timer p)
  | Shield => (pl_shield_active p, pl_shield_timer p)
  end.

Lemma powerup_state_step (t : PowerUpType) (p : Player) :
  powerup_state t (Player_update_powerups p) =
  timer_step (fst (powerup_state t p)) (snd (powerup_state t p)).
Proof.
  unfold Player_update_powerups.
  destruct (timer_step (pl_powerup_active _) _) eqn:E1,
           (timer_step (pl_shield_active _) _) eqn:E2.
  by destruct t.
Qed.

Lemma powerup_state_iter (t : PowerUpType) (k : nat) (p : Player) :
  powerup_state t (Nat.iter k Player_update_powerups p) =
  Nat.iter k (fun s => timer_step (fst s) (snd s)) (powerup_state t p).
Proof.
  induction k as [|k IH]; [done|].
  rewrite !Nat.iter_succ, powerup_state_step, IH. done.
Qed.

(** C40: A collected power-up (triple shot or shield) stays active for exactly
    400 frames of [update_powerups]. *)
Theorem powerup_duration (p : Player) (t : PowerUpType) (k : nat) :
  fst (powerup_state t (Nat.iter k Player_update_powerups (Player_activate_powerup p t))) =
  (Z.of_nat k <? 400).
Proof.
  rewrite powerup_state_iter.
  replace (powerup_state t (Player_activate_powerup p t)) with (true, 400)
    by (destruct t; done).
  rewrite timer_step_iter by lia. by destruct (Z.of_nat k <? 400).
Qed.
End PlayerProofs.

(** ** Concrete configurations and witnesses *)

(** The default window of SpaceInvader.py: [DEFAULT_SCREEN_WIDTH = 800],
    [DEFAULT_SCREEN_HEIGHT = 600]. *)
Definition default_screen : Screen := {| SCREEN_WIDTH := 800; SCREEN_HEIGHT := 600 |}.

#[export] Instance default_screen_laws : @ScreenLaws default_screen.
Proof. split. simpl. lia. Qed.

Section Witnesses.
#[local] Existing Instances default_screen trig_flat.

Lemma player_bullets_expire_witness :
  pl_bullets (Nat.iter 52 Player_update_bullets (Player_shoot Player_init)) = [].
Proof. apply (player_bullets_expire 51). decide_concrete. Defined.

Lemma particles_expire_witness :
  Nat.iter 41 ParticleSystem_update
    (fst (ParticleSystem_emit [] 0 0 RED 15 [3; 1; 4; 1; 5; 9; 2; 6]%Z)) = [].
Proof. apply (particles_expire 40). decide_concrete. Defined.

Lemma spawned_alien_leaves_witness :
  Always (Alien_init (G := list Z) 0 400 1)
    (fun a => forall n : nat, (600 + 75 < Z.of_nat n)%Z ->
              (600 < Rect.top (al_rect (Nat.iter n Alien_move a)))%Z).
Proof. exact (spawned_alien_leaves 0 400 1). Defined.

Lemma Player_move_in_bounds_witness : ship_in_bounds (Player_move Player_init DirLeft).
Proof. apply Player_move_in_bounds; [reflexivity | decide_concrete]. Defined.

Lemma Player_shoot_rate_witness :
  let q := Nat.iter 10 Player_update_bullets (Player_shoot Player_init) in
  length (pl_bullets (Player_shoot Player_init)) = 1%nat /\
  length (pl_bullets (Player_shoot q)) = (length (pl_bullets q) + 1)%nat.
Proof.
  destruct (Player_shoot_rate Player_init 10 ltac:(vm_compute; discriminate) eq_refl)
    as [H1 [_ H3]].
  split; [exact H1 | apply H3; lia].
Defined.
End Witnesses.
