(* ===== verification/SIWindow.v ===== *)
(** SpaceInvader's window configuration: [parse_window_size] and the screen
    size it selects (lines 8-11 and 29-52 of
    [src/apps/arcade/games/SpaceInvader.py]).

    The environment variable [ARCADE_WINDOW_SIZE] is [None] or a string;
    strings are lists of Latin-1 code points ([ascii] is a code point below
    256).  The [str] methods the function calls ([strip], [lower],
    [replace(' ', '')], [split]) and the [int] constructor are written out
    as CPython implements them on such strings.  [window_screen] is the
    [Screen] the module-level code ends up with; [window_screen_laws] shows
    that it satisfies [ScreenLaws], the assumption under which every theorem
    of [SIObjects] and [SIBattle] is proved. *)

From Stdlib Require Import String Ascii.
From S2P Require Import Prelude SIObjects.

Module SIWindow.
Local Open Scope Z_scope.

(** ** The [str] methods and [int()] *)

(** [str.isspace()] of one character: [\t \n \v \f \r], the separators
    [\x1c-\x1f], the space, [\x85] and the no-break space [\xa0]. *)
Definition py_isspace (c : ascii) : bool :=
  let n := nat_of_ascii c in
  (Nat.leb 9 n && Nat.leb n 13) || (Nat.leb 28 n && Nat.leb n 32) ||
  Nat.eqb n 133 || Nat.eqb n 160.

Fixpoint lstrip (s : list ascii) : list ascii :=
  match s with
  | c :: s' => if py_isspace c then lstrip s' else s
  | [] => []
  end.

(** [str.strip()] *)
Definition py_strip (s : list ascii) : list ascii := rev (lstrip (rev (lstrip s))).

(** [str.lower()] of one character: [A-Z] and the Latin-1 capitals
    [\xc0-\xde] but the multiplication sign [\xd7]. *)
Definition py_lower_char (c : ascii) : ascii :=
  let n := nat_of_ascii c in
  if (Nat.leb 65 n && Nat.leb n 90) || (Nat.leb 192 n && Nat.leb n 222 && negb (Nat.eqb n 215))
  then ascii_of_nat (n + 32) else c.

Definition py_lower (s : list ascii) : list ascii := map py_lower_char s.

(** [.replace(' ', '')] *)
Definition py_remove_spaces (s : list ascii) : list ascii :=
  List.filter (fun c => negb (Ascii.eqb c " "%char)) s.

(** [str.split(sep)] with an explicit separator: every occurrence splits,
    empty parts are kept. *)
Fixpoint py_split (sep : ascii) (s : list ascii) : list (list ascii) :=
  match s with
  | [] => [[]]
  | c :: s' =>
      if Ascii.eqb c sep then [] :: py_split sep s'
      else match py_split sep s' with
           | w :: ws => (c :: w) :: ws
           | [] => [[c]]
           end
  end.

Definition is_digit (c : ascii) : bool :=
  Nat.leb 48 (nat_of_ascii c) && Nat.leb (nat_of_ascii c) 57.

Definition digit_value (c : ascii) : Z := Z.of_nat (nat_of_ascii c) - 48.

(** The digits of [int()] after the first one: each may be preceded by one
    underscore (PEP 515). *)
Fixpoint parse_digits (acc : Z) (s : list ascii) : option Z :=
  match s with
  | [] => Some acc
  | c :: s' =>
      if is_digit c then parse_digits (acc * 10 + digit_value c) s'
      else if Ascii.eqb c "_"%char then
        match s' with
        | d :: s'' => if is_digit d then parse_digits (acc * 10 + digit_value d) s'' else None
        | [] => None
        end
      else None
  end.

(** [sys.get_int_max_str_digits()]'s default: longer decimal strings raise
    [ValueError]. *)
Definition max_str_digits : nat := 4300.

(** [int(s)] on a string, base 10; [None] is the [ValueError]: surrounding
    whitespace, an optional sign, then digits with single underscores
    between them, at most [max_str_digits] of them. *)
Definition py_int_of_str (s : list ascii) : option Z :=
  let t := py_strip s in
  let '(neg, body) :=
    match t with
    | c :: r =>
        if Ascii.eqb c "-"%char then (true, r)
        else if Ascii.eqb c "+"%char then (false, r) else (false, t)
    | [] => (false, t)
    end in
  if Nat.ltb max_str_digits (length (List.filter is_digit body)) then None
  else match body with
       | d :: rest =>
           if is_digit d
           then option_map (fun v => if neg then - v else v) (parse_digits (digit_value d) rest)
           else None
       | [] => None
       end.

(** ** [parse_window_size] *)

(** [raw_value.strip().lower().replace(' ', '')] *)
Definition clean (s : list ascii) : list ascii := py_remove_spaces (py_lower (py_strip s)).

(** The rest of the function, from the choice of the separator. *)
Definition split_size (cleaned_value : list ascii) : option (Z * Z) :=
  let separator := if existsb (fun c => Ascii.eqb c "x"%char) cleaned_value then "x"%char
                   else ","%char in
  match py_split separator cleaned_value with
  | [p0; p1] =>
      match py_int_of_str p0, py_int_of_str p1 with
      | Some width, Some height => Some (Z.max 320 width, Z.max 240 height)
      | _, _ => None
      end
  | _ => None
  end.

Definition parse_window_size (raw_value : option string) : option (Z * Z) :=
  match raw_value with
  | None => None
  | Some raw =>
      match list_ascii_of_string raw with
      | [] => None
      | s => split_size (clean s)
      end
  end.

(** The screen size of the module: [DEFAULT_SCREEN_WIDTH x
    DEFAULT_SCREEN_HEIGHT] unless [parse_window_size] returns a size. *)
Definition window_screen (window_size_env : option string) : Screen :=
  match parse_window_size window_size_env with
  | Some (w, h) => {| SCREEN_WIDTH := w; SCREEN_HEIGHT := h |}
  | None => default_screen
  end.

(** [str(z)] of an integer, to state the round trip. *)
Definition digit_char (d : Z) : ascii := ascii_of_nat (Z.to_nat d + 48).

Fixpoint dec_digits (fuel : nat) (n : Z) : list ascii :=
  match fuel with
  | O => []
  | S f => (if n <? 10 then [] else dec_digits f (n / 10)) ++ [digit_char (n mod 10)]
  end.

Definition py_str (z : Z) : list ascii :=
  let ds := dec_digits (S (Z.to_nat (Z.log2 (Z.abs z)))) (Z.abs z) in
  if z <? 0 then "-"%char :: ds else ds.


(** ** Characters

    Facts about single characters are checked on all 256 code points. *)

Ltac all_chars := intros c; destruct c as [[] [] [] [] [] [] [] []]; vm_compute.

(** A character of [str(z)]: a digit or the minus sign. *)
Definition num_char (c : ascii) : bool := is_digit c || Ascii.eqb c "-"%char.

Lemma num_char_facts : forall c, num_char c = true ->
  py_isspace c = false /\ py_lower_char c = c /\ Ascii.eqb c " "%char = false /\
  Ascii.eqb c "x"%char = false /\ Ascii.eqb c ","%char = false.
Proof. all_chars; first [discriminate | intros _; split_and!; reflexivity]. Qed.

Lemma digit_not_sign : forall c, is_digit c = true ->
  Ascii.eqb c "-"%char = false /\ Ascii.eqb c "+"%char = false.
Proof. all_chars; first [discriminate | intros _; split; reflexivity]. Qed.

Lemma lower_sep : forall c, py_lower_char c = "x"%char \/ py_lower_char c = ","%char ->
  c = "x"%char \/ c = "X"%char \/ c = ","%char.
Proof. all_chars; first [intros [H | H]; discriminate | auto]. Qed.

Lemma digit_char_ok (d : Z) : 0 <= d < 10 -> is_digit (digit_char d) = true /\
  digit_value (digit_char d) = d.
Proof.
  intros Hd. assert (d = 0 \/ d = 1 \/ d = 2 \/ d = 3 \/ d = 4 \/ d = 5 \/ d = 6 \/ d = 7 \/
    d = 8 \/ d = 9) as Hs by lia.
  repeat destruct Hs as [-> | Hs]; [..|subst]; split; reflexivity.
Qed.

(** ** Lists of characters *)

Lemma map_id_Forall {A} (f : A -> A) (l : list A) : Forall (fun x => f x = x) l -> map f l = l.
Proof. induction 1; cbn; congruence. Qed.

Lemma filter_id_Forall {A} (p : A -> bool) (l : list A) :
  Forall (fun x => p x = true) l -> List.filter p l = l.
Proof. induction 1 as [|x l Hx _ IH]; cbn; [done|]. by rewrite Hx, IH. Qed.

Lemma lstrip_nospace (l : list ascii) : Forall (fun c => py_isspace c = false) l -> lstrip l = l.
Proof. destruct 1; cbn; [done|]. by rewrite H. Qed.

Lemma py_strip_nospace (l : list ascii) :
  Forall (fun c => py_isspace c = false) l -> py_strip l = l.
Proof.
  intros H. unfold py_strip. rewrite (lstrip_nospace l H), (lstrip_nospace (rev l)).
  - apply rev_involutive.
  - by apply List.Forall_rev.
Qed.

Lemma py_split_nosep (sep : ascii) (b : list ascii) :
  Forall (fun c => Ascii.eqb c sep = false) b -> py_split sep b = [b].
Proof. induction 1 as [|c b Hc _ IH]; cbn; [done|]. by rewrite Hc, IH. Qed.

Lemma py_split_app (sep : ascii) (a b : list ascii) :
  Forall (fun c => Ascii.eqb c sep = false) a -> Forall (fun c => Ascii.eqb c sep = false) b ->
  py_split sep (a ++ sep :: b) = [a; b].
Proof.
  intros Ha Hb. induction Ha as [|c a Hc _ IH]; cbn.
  - by rewrite Ascii.eqb_refl, py_split_nosep.
  - by rewrite Hc, IH.
Qed.

(** ** Decimal numerals *)

Definition digits_val (acc : Z) (ds : list ascii) : Z :=
  fold_left (fun a c => a * 10 + digit_value c) ds acc.

Lemma parse_digits_all (acc : Z) (ds : list ascii) :
  Forall (fun c => is_digit c = true) ds -> parse_digits acc ds = Some (digits_val acc ds).
Proof. intros H. revert acc. induction H as [|c ds Hc _ IH]; intros acc; cbn; [done|]. by rewrite Hc. Qed.

Lemma dec_digits_digits (f : nat) (n : Z) : 0 <= n ->
  Forall (fun c => is_digit c = true) (dec_digits f n).
Proof.
  revert n. induction f as [|f IH]; intros n Hn; cbn; [done|].
  apply Forall_app; split.
  - destruct (n <? 10); [done|]. apply IH. apply Z.div_pos; lia.
  - constructor; [|done]. apply digit_char_ok. apply Z.mod_pos_bound. lia.
Qed.

Lemma dec_digits_val (f : nat) (n : Z) : 0 <= n < 10 ^ Z.of_nat f ->
  digits_val 0 (dec_digits f n) = n.
Proof.
  revert n. induction f as [|f IH]; intros n Hn; [cbn in *; lia|].
  rewrite Nat2Z.inj_succ, Z.pow_succ_r in Hn by lia. cbn [dec_digits].
  unfold digits_val. rewrite fold_left_app. cbn [fold_left].
  rewrite (proj2 (digit_char_ok _ (Z.mod_pos_bound n 10 ltac:(lia)))).
  zcase.
  - cbn. rewrite Z.mod_small; lia.
  - fold (digits_val 0 (dec_digits f (n / 10))). rewrite IH.
    + pose proof (Z.div_mod n 10). lia.
    + split; [apply Z.div_pos; lia|]. apply Z.div_lt_upper_bound; lia.
Qed.

Lemma dec_digits_length (f : nat) (n : Z) (k : nat) : 0 <= n -> n < 10 ^ Z.of_nat k ->
  (1 <= k)%nat -> (length (dec_digits f n) <= k)%nat.
Proof.
  revert n k. induction f as [|f IH]; intros n k Hn Hk H1; cbn [dec_digits]; [cbn; lia|].
  rewrite length_app. cbn [length]. zcase; [cbn; lia|].
  destruct k as [|[|k]]; [lia| cbn in Hk; lia|].
  rewrite Nat2Z.inj_succ, Z.pow_succ_r in Hk by lia.
  enough (length (dec_digits f (n / 10)) <= S k)%nat by lia.
  apply IH; [apply Z.div_pos; lia | apply Z.div_lt_upper_bound; lia | lia].
Qed.

(** The fuel [log2 n + 1] of [py_str] is enough. *)
Lemma py_str_fuel (n : Z) : 0 <= n -> n < 10 ^ Z.of_nat (S (Z.to_nat (Z.log2 n))).
Proof.
  intros Hn. rewrite Nat2Z.inj_succ, Z2Nat.id by apply Z.log2_nonneg.
  destruct (Z.eq_dec n 0) as [-> | Hn0]; [reflexivity|].
  apply Z.lt_le_trans with (2 ^ Z.succ (Z.log2 n)).
  - apply Z.log2_spec. lia.
  - apply Z.pow_le_mono_l. split; [lia | lia].
Qed.

Lemma dec_digits_cons (f : nat) (n : Z) : exists d rest, dec_digits (S f) n = d :: rest.
Proof.
  cbn [dec_digits]. destruct (_ ++ [_]) as [|d rest] eqn:E; [|eauto].
  by apply app_eq_nil in E as [_ ?].
Qed.

Lemma py_str_num (z : Z) : Forall (fun c => num_char c = true) (py_str z).
Proof.
  assert (Hd := dec_digits_digits (S (Z.to_nat (Z.log2 (Z.abs z)))) (Z.abs z) (Z.abs_nonneg z)).
  unfold py_str. cbv zeta. destruct (z <? 0); [constructor; [reflexivity|]|];
    (eapply Forall_impl; [exact Hd|]); intros c Hc; unfold num_char; by rewrite Hc.
Qed.

Ltac num_forall :=
  eapply Forall_impl; [eassumption|]; intros ? Hc; apply num_char_facts in Hc; tauto.

(** [int(str(z)) == z] for every integer of at most 4300 digits. *)
Lemma py_int_py_str (z : Z) : Z.abs z < 10 ^ 4300 -> py_int_of_str (py_str z) = Some z.
Proof.
  intros Hz. assert (Hs := py_str_num z).
  unfold py_int_of_str. rewrite py_strip_nospace by num_forall.
  unfold py_str in *. cbv zeta in *.
  set (f := S (Z.to_nat (Z.log2 (Z.abs z)))) in *.
  assert (Hd := dec_digits_digits f (Z.abs z) (Z.abs_nonneg z)).
  assert (Hv := dec_digits_val f (Z.abs z) (conj (Z.abs_nonneg z) (py_str_fuel _ (Z.abs_nonneg z)))).
  assert (Hl : (length (dec_digits f (Z.abs z)) <= 4300)%nat).
  { apply dec_digits_length; [apply Z.abs_nonneg | exact Hz | lia]. }
  destruct (dec_digits_cons (Z.to_nat (Z.log2 (Z.abs z))) (Z.abs z)) as (d & rest & E).
  fold f in E. rewrite E in *. inversion Hd as [|? ? Hd0 Hrest]; subst.
  destruct (digit_not_sign d Hd0) as [Hm Hp].
  destruct (Z.ltb_spec z 0); cbv beta iota; rewrite ?Ascii.eqb_refl, ?Hm, ?Hp; cbv beta iota;
    rewrite filter_id_Forall, (proj2 (Nat.ltb_ge max_str_digits _) Hl), Hd0, parse_digits_all by done;
    change (digits_val (digit_value d) rest) with (digits_val 0 (d :: rest)); rewrite Hv;
    cbn [option_map]; f_equal; lia.
Qed.

Lemma existsb_Forall_false {A} (p : A -> bool) (l : list A) :
  Forall (fun x => p x = false) l -> existsb p l = false.
Proof. induction 1 as [|x l Hx _ IH]; cbn; [done|]. by rewrite Hx, IH. Qed.

(** A size written [<int><sep><int>] with [sep] one of [x], [X], [,] is
    cleaned to [<int><x or ,><int>]. *)
Lemma clean_num (a b : list ascii) (sep : ascii) :
  Forall (fun c => num_char c = true) a -> Forall (fun c => num_char c = true) b ->
  sep = "x"%char \/ sep = "X"%char \/ sep = ","%char ->
  clean (a ++ sep :: b) = a ++ py_lower_char sep :: b.
Proof.
  intros Ha Hb Hsep. unfold clean.
  rewrite py_strip_nospace.
  2: { apply Forall_app; split; [num_forall|].
       constructor; [by destruct Hsep as [-> | [-> | ->]] | num_forall]. }
  unfold py_lower. rewrite map_app. cbn [map].
  rewrite !(map_id_Forall py_lower_char) by num_forall.
  unfold py_remove_spaces. rewrite List.filter_app. cbn [List.filter].
  rewrite !filter_id_Forall by (eapply Forall_impl; [eassumption|]; intros ? Hc;
    apply num_char_facts in Hc; destruct Hc as (_ & _ & -> & _); done).
  by destruct Hsep as [-> | [-> | ->]].
Qed.

Lemma split_size_num (a b : list ascii) (sep : ascii) :
  Forall (fun c => num_char c = true) a -> Forall (fun c => num_char c = true) b ->
  sep = "x"%char \/ sep = ","%char ->
  split_size (a ++ sep :: b) =
    match py_int_of_str a, py_int_of_str b with
    | Some w, Some h => Some (Z.max 320 w, Z.max 240 h)
    | _, _ => None
    end.
Proof.
  intros Ha Hb Hsep. unfold split_size.
  rewrite existsb_app. cbn [existsb].
  rewrite !(existsb_Forall_false (fun c => Ascii.eqb c "x"%char)) by num_forall.
  destruct Hsep as [-> | ->]; cbn [Ascii.eqb orb Bool.eqb];
    rewrite py_split_app by num_forall; reflexivity.
Qed.

Lemma In_lstrip (c : ascii) (l : list ascii) : In c (lstrip l) -> In c l.
Proof. induction l as [|c' l IH]; cbn; [done|]. destruct (py_isspace c'); auto. Qed.

Lemma In_clean (c : ascii) (s : list ascii) :
  In c (clean s) -> exists c0, In c0 s /\ c = py_lower_char c0.
Proof.
  unfold clean, py_remove_spaces, py_lower, py_strip.
  intros (Hc & _)%filter_In. apply in_map_iff in Hc as (c0 & <- & Hc0).
  exists c0. split; [|done].
  by apply In_lstrip, in_rev, In_lstrip, in_rev.
Qed.

Lemma parse_window_size_min (raw : option string) (w h : Z) :
  parse_window_size raw = Some (w, h) -> 320 <= w /\ 240 <= h.
Proof.
  unfold parse_window_size, split_size. intros E. repeat case_match; simplify_eq; lia.
Qed.

(** ** What [parse_window_size] guarantees *)

(** C9: Whatever [ARCADE_WINDOW_SIZE] holds, the screen the module sets up
    is at least 320x240: [window_screen] satisfies [ScreenLaws], the
    assumption of the theorems on SpaceInvader's entities and game. *)
Theorem window_screen_laws (raw : option string) : @ScreenLaws (window_screen raw).
Proof.
  unfold window_screen. destruct (parse_window_size raw) as [[w h]|] eqn:E.
  - constructor. cbn. by apply parse_window_size_min in E.
  - apply default_screen_laws.
Qed.

(** C25: A size written as two decimal integers (of at most 4300 digits)
    separated by [x], [X] or [,] is read back: [parse_window_size] returns
    them, raised to at least 320 and 240 (negative sizes included). *)
Theorem parse_window_size_roundtrip (w h : Z) (sep : ascii) :
  Z.abs w < 10 ^ 4300 -> Z.abs h < 10 ^ 4300 ->
  sep = "x"%char \/ sep = "X"%char \/ sep = ","%char ->
  parse_window_size (Some (string_of_list_ascii (py_str w ++ sep :: py_str h))) =
  Some (Z.max 320 w, Z.max 240 h).
Proof.
  intros Hw Hh Hsep. cbn [parse_window_size]. rewrite list_ascii_of_string_of_list_ascii.
  destruct (py_str w ++ sep :: py_str h) as [|c l] eqn:E;
    [by symmetry in E; apply app_cons_not_nil in E|rewrite <- E].
  rewrite clean_num, split_size_num, !py_int_py_str by (auto using py_str_num;
    destruct Hsep as [-> | [-> | ->]]; auto).
  reflexivity.
Qed.

(** C37: A value with no [x], [X] or [,] is rejected: [split] returns one
    part, and [parse_window_size] returns [None] (the default 800x600 is
    kept). *)
Theorem parse_window_size_no_separator (raw : string) :
  ~ In "x"%char (list_ascii_of_string raw) -> ~ In "X"%char (list_ascii_of_string raw) ->
  ~ In ","%char (list_ascii_of_string raw) -> parse_window_size (Some raw) = None.
Proof.
  intros Hx HX Hc. cbn [parse_window_size].
  destruct (list_ascii_of_string raw) as [|c0 l] eqn:E; [done|rewrite <- E].
  assert (Hno : forall sep, sep = "x"%char \/ sep = ","%char ->
            Forall (fun c => Ascii.eqb c sep = false) (clean (list_ascii_of_string raw))).
  { intros sep Hsep. apply List.Forall_forall. intros c (c1 & Hin & ->)%In_clean.
    apply Ascii.eqb_neq. intros Hl. rewrite <- Hl in Hsep.
    rewrite E in Hin. destruct (lower_sep c1 Hsep) as [-> | [-> | ->]]; contradiction. }
  unfold split_size.
  rewrite existsb_Forall_false, py_split_nosep by (apply Hno; auto).
  reflexivity.
Qed.

(** ** Concrete values *)

Lemma parse_window_size_roundtrip_witness :
  parse_window_size (Some (string_of_list_ascii (py_str 1024 ++ "X"%char :: py_str 768))) =
  Some (Z.max 320 1024, Z.max 240 768).
Proof. apply parse_window_size_roundtrip; [vm_compute; reflexivity.. | right; left; reflexivity]. Defined.

Lemma parse_window_size_no_separator_witness : parse_window_size (Some "800"%string) = None.
Proof.
  apply parse_window_size_no_separator; cbn; intuition discriminate.
Defined.

End SIWindow.
