(* ===== verification/SIBattle.v ===== *)
(** SIBattle: class [SpaceBattle] of [src/apps/arcade/games/SpaceInvader.py].

    The Record [SpaceBattle] has the attributes [__init__] sets; each method
    that changes state is one definition: [spawn_alien], [move_aliens],
    [alien_shoot], [update_alien_bullets], [check_collisions],
    [update_powerups], [update_stars], [reset_game].  A loop over a copy of
    an entity list that updates entities in place and removes some of them is
    a [Fixpoint] over the copy that threads the battle state and returns the
    survivors in order.  One iteration of [run] is [frame]: the events, then
    (while playing) the passes in the order of [run], then the state change
    of [draw] ([Player.draw]'s engine glow).  The repeated
    "lose a life, game over at zero" of the code is [lose_life].

    The theorems: the spawn countdown and the spawn-rate bounds, the
    accounting and the idempotence of the collision pass, the life counter,
    the invariant of every state reachable by [run], the game-over freeze
    and what [reset_game] leaves behind. *)

From S2P Require Import Prelude PyRandom PyMath Rect SIObjects.

(** [self.game_state]: ["playing"] or ["game_over"]. *)
Inductive GameState := Playing | GameOver.

#[export] Instance GameState_eq_dec : EqDecision GameState.
Proof. solve_decision. Defined.

Record SpaceBattle := mkBattle {
  sb_player : Player; sb_aliens : list Alien; sb_alien_bullets : list AlienBullet;
  sb_powerups : list PowerUp; sb_stars : list Star; sb_score : Z; sb_lives : Z;
  sb_level : Z; sb_particles : list Particle; sb_game_state : GameState;
  sb_spawn_timer : Z; sb_aliens_killed : Z; sb_spawn_rate : Z }.

(** The keys [run] reacts to. *)
Inductive Key := K_SPACE | K_r | K_LEFT | K_RIGHT | K_a | K_d | K_other.

(** [pygame.event.get()]'s events, as far as [run] distinguishes them. *)
Inductive Event := QUIT | KEYDOWN (k : Key) | OtherEvent.

#[export] Instance Key_eq_dec : EqDecision Key.
Proof. solve_decision. Defined.
#[export] Instance Event_eq_dec : EqDecision Event.
Proof. solve_decision. Defined.

(** [pygame.key.get_pressed()] on the keys [run] reads. *)
Record Keys := mkKeys { key_left : bool; key_a : bool; key_right : bool; key_d : bool }.

Section Battle.
Context `{Screen} `{Trig} {G : Type} `{PyRandom G}.
Local Open Scope Z_scope.

(** ** Field updates *)

Definition set_player (s : SpaceBattle) (p : Player) : SpaceBattle :=
  mkBattle p (sb_aliens s) (sb_alien_bullets s) (sb_powerups s) (sb_stars s)
    (sb_score s) (sb_lives s) (sb_level s) (sb_particles s) (sb_game_state s)
    (sb_spawn_timer s) (sb_aliens_killed s) (sb_spawn_rate s).
Definition set_aliens (s : SpaceBattle) (l : list Alien) : SpaceBattle :=
  mkBattle (sb_player s) l (sb_alien_bullets s) (sb_powerups s) (sb_stars s)
    (sb_score s) (sb_lives s) (sb_level s) (sb_particles s) (sb_game_state s)
    (sb_spawn_timer s) (sb_aliens_killed s) (sb_spawn_rate s).
Definition set_alien_bullets (s : SpaceBattle) (l : list AlienBullet) : SpaceBattle :=
  mkBattle (sb_player s) (sb_aliens s) l (sb_powerups s) (sb_stars s)
    (sb_score s) (sb_lives s) (sb_level s) (sb_particles s) (sb_game_state s)
    (sb_spawn_timer s) (sb_aliens_killed s) (sb_spawn_rate s).
Definition set_powerups (s : SpaceBattle) (l : list PowerUp) : SpaceBattle :=
  mkBattle (sb_player s) (sb_aliens s) (sb_alien_bullets s) l (sb_stars s)
    (sb_score s) (sb_lives s) (sb_level s) (sb_particles s) (sb_game_state s)
    (sb_spawn_timer s) (sb_aliens_killed s) (sb_spawn_rate s).
Definition set_stars (s : SpaceBattle) (l : list Star) : SpaceBattle :=
  mkBattle (sb_player s) (sb_aliens s) (sb_alien_bullets s) (sb_powerups s) l
    (sb_score s) (sb_lives s) (sb_level s) (sb_particles s) (sb_game_state s)
    (sb_spawn_timer s) (sb_aliens_killed s) (sb_spawn_rate s).
Definition set_particles (s : SpaceBattle) (l : list Particle) : SpaceBattle :=
  mkBattle (sb_player s) (sb_aliens s) (sb_alien_bullets s) (sb_powerups s)
    (sb_stars s) (sb_score s) (sb_lives s) (sb_level s) l (sb_game_state s)
    (sb_spawn_timer s) (sb_aliens_killed s) (sb_spawn_rate s).
Definition set_spawn (s : SpaceBattle) (timer rate : Z) : SpaceBattle :=
  mkBattle (sb_player s) (sb_aliens s) (sb_alien_bullets s) (sb_powerups s)
    (sb_stars s) (sb_score s) (sb_lives s) (sb_level s) (sb_particles s)
    (sb_game_state s) timer (sb_aliens_killed s) rate.
(** [self.score += points; self.aliens_killed += 1] and the level. *)
Definition set_kill (s : SpaceBattle) (score killed level : Z) : SpaceBattle :=
  mkBattle (sb_player s) (sb_aliens s) (sb_alien_bullets s) (sb_powerups s)
    (sb_stars s) score (sb_lives s) level (sb_particles s) (sb_game_state s)
    (sb_spawn_timer s) killed (sb_spawn_rate s).

(** [self.lives -= 1; if self.lives <= 0: self.game_state = "game_over"] *)
Definition lose_life (s : SpaceBattle) : SpaceBattle :=
  let lives := sb_lives s - 1 in
  mkBattle (sb_player s) (sb_aliens s) (sb_alien_bullets s) (sb_powerups s)
    (sb_stars s) (sb_score s) lives (sb_level s) (sb_particles s)
    (if lives <=? 0 then GameOver else sb_game_state s)
    (sb_spawn_timer s) (sb_aliens_killed s) (sb_spawn_rate s).

(** ** The passes *)

Definition SpaceBattle_init : Rand G SpaceBattle :=
  stars <- repeatM 100 Star_init;;
  ret (mkBattle Player_init [] [] [] stars 0 3 1 [] Playing 0 0 ALIEN_SPAWN_RATE).

(** [max(20, ALIEN_SPAWN_RATE - self.level * 3)] *)
Definition spawn_rate_for (level : Z) : Z := Z.max 20 (ALIEN_SPAWN_RATE - level * 3).

Definition spawn_alien (ticks : Z) (s : SpaceBattle) : Rand G SpaceBattle :=
  let timer := sb_spawn_timer s - 1 in
  if timer <=? 0 then
    x <- randint 50 (SCREEN_WIDTH - 50);;
    rand <- random;;
    let alien_type := if rand <q? (3 # 5) then 0 else if rand <q? (17 # 20) then 1 else 2 in
    a <- Alien_init ticks x alien_type;;
    let rate := spawn_rate_for (sb_level s) in
    ret (set_spawn (set_aliens s (sb_aliens s ++ [a])) rate rate)
  else ret (set_spawn s timer (sb_spawn_rate s)).

(** [for alien in self.aliens[:]]: move, remove below the screen and lose a
    life.  Returns the state and the surviving aliens. *)
Fixpoint move_aliens_loop (todo : list Alien) (s : SpaceBattle)
    : SpaceBattle * list Alien :=
  match todo with
  | [] => (s, [])
  | a :: rest =>
      let a' := Alien_move a in
      if SCREEN_HEIGHT <? Rect.top (al_rect a') then move_aliens_loop rest (lose_life s)
      else let '(s', kept) := move_aliens_loop rest s in (s', a' :: kept)
  end.

Definition move_aliens (s : SpaceBattle) : SpaceBattle :=
  let '(s', kept) := move_aliens_loop (sb_aliens s) s in set_aliens s' kept.

(** [alien.can_shoot() and random.random() < 0.02]: the roll is only made
    when the alien can shoot. *)
Definition alien_fire_roll (ok : bool) : Rand G bool :=
  if ok then r <- random;; ret (r <q? (1 # 50)) else ret false.

(** [for alien in self.aliens: if alien.can_shoot() and random.random() < 0.02]:
    the aliens with their new cooldowns and the new bullets. *)
Fixpoint alien_shoot_loop (aliens : list Alien) : Rand G (list Alien * list AlienBullet) :=
  match aliens with
  | [] => ret ([], [])
  | a :: rest =>
      '(ok, a') <- Alien_can_shoot a;;
      fire <- alien_fire_roll ok;;
      '(rest', bs) <- alien_shoot_loop rest;;
      let r := al_rect a' in
      ret (a' :: rest',
            if fire then AlienBullet_init (Rect.centerx r) (Rect.bottom r) :: bs else bs)
  end.

Definition alien_shoot (s : SpaceBattle) : Rand G SpaceBattle :=
  '(aliens, bs) <- alien_shoot_loop (sb_aliens s);;
  ret (set_alien_bullets (set_aliens s aliens) (sb_alien_bullets s ++ bs)).

Fixpoint update_alien_bullets_loop (todo : list AlienBullet) (s : SpaceBattle)
    : Rand G (SpaceBattle * list AlienBullet) :=
  match todo with
  | [] => ret (s, [])
  | b :: rest =>
      let b' := AlienBullet_move b in
      let pr := pl_rect (sb_player s) in
      if SCREEN_HEIGHT <? Rect.top (ab_rect b') then update_alien_bullets_loop rest s
      else if Rect.colliderect (ab_rect b') pr then
        if negb (pl_shield_active (sb_player s)) then
          let s1 := lose_life s in
          ps <- ParticleSystem_emit (sb_particles s1) (inject_Z (Rect.centerx pr))
                 (inject_Z (Rect.centery pr)) RED 25;;
          update_alien_bullets_loop rest (set_particles s1 ps)
        else
          ps <- ParticleSystem_emit (sb_particles s) (inject_Z (Rect.centerx (ab_rect b')))
                 (inject_Z (Rect.centery (ab_rect b'))) CYAN 12;;
          update_alien_bullets_loop rest (set_particles s ps)
      else
        '(s', kept) <- update_alien_bullets_loop rest s;;
        ret (s', b' :: kept)
  end.

Definition update_alien_bullets (s : SpaceBattle) : Rand G SpaceBattle :=
  '(s', kept) <- update_alien_bullets_loop (sb_alien_bullets s) s;;
  ret (set_alien_bullets s' kept).

(** [for alien in self.aliens[:]: if bullet.rect.colliderect(alien.rect)]:
    the aliens before the first hit, the alien hit and the rest. *)
Fixpoint first_hit (b : Bullet) (aliens : list Alien)
    : option (list Alien * Alien * list Alien) :=
  match aliens with
  | [] => None
  | a :: rest =>
      if Rect.colliderect (b_rect b) (al_rect a) then Some ([], a, rest)
      else match first_hit b rest with
           | Some (pre, x, post) => Some (a :: pre, x, post)
           | None => None
           end
  end.

(** What a hit does once both the bullet and the alien are removed: score,
    kill count, explosion, level, and the power-up drop. *)
Definition alien_destroyed (s : SpaceBattle) (a : Alien) : Rand G SpaceBattle :=
  let killed := sb_aliens_killed s + 1 in
  let r := al_rect a in
  let '(color, count) :=
    if al_type a =? 0 then (RED, 20) else if al_type a =? 1 then (PURPLE, 20)
    else (ORANGE, 25) in
  ps <- ParticleSystem_emit (sb_particles s) (inject_Z (Rect.centerx r))
         (inject_Z (Rect.centery r)) color count;;
  let level := if killed mod 20 =? 0 then sb_level s + 1 else sb_level s in
  roll <- random;;
  drop <- (if roll <q? (3 # 20) then
            t <- choice Triple [Shield];;
            ret [PowerUp_init (Rect.centerx r) (Rect.centery r) t]
          else ret [] : Rand G (list PowerUp));;
  ret (set_powerups (set_particles (set_kill s (sb_score s + al_points a) killed level) ps)
          (sb_powerups s ++ drop)).

(** [for bullet in self.player.bullets[:]]: the state and the bullets that
    hit nothing. *)
Fixpoint check_collisions_loop (todo : list Bullet) (s : SpaceBattle)
    : Rand G (SpaceBattle * list Bullet) :=
  match todo with
  | [] => ret (s, [])
  | b :: rest =>
      match first_hit b (sb_aliens s) with
      | None => '(s', kept) <- check_collisions_loop rest s;; ret (s', b :: kept)
      | Some (pre, a, post) =>
          s1 <- alien_destroyed (set_aliens s (pre ++ post)) a;;
          check_collisions_loop rest s1
      end
  end.

Definition set_player_bullets (s : SpaceBattle) (bs : list Bullet) : SpaceBattle :=
  set_player s (with_bullets (sb_player s) bs (pl_shoot_delay (sb_player s))).

Definition check_collisions (s : SpaceBattle) : Rand G SpaceBattle :=
  '(s', kept) <- check_collisions_loop (pl_bullets (sb_player s)) s;;
  ret (set_player_bullets s' kept).

Fixpoint update_powerups_loop (todo : list PowerUp) (s : SpaceBattle)
    : Rand G (SpaceBattle * list PowerUp) :=
  match todo with
  | [] => ret (s, [])
  | p :: rest =>
      let p' := PowerUp_move p in
      if SCREEN_HEIGHT <? Rect.top (pu_rect p') then update_powerups_loop rest s
      else if Rect.colliderect (pu_rect p') (pl_rect (sb_player s)) then
        let s1 := set_player s (Player_activate_powerup (sb_player s) (pu_type p')) in
        ps <- ParticleSystem_emit (sb_particles s1) (inject_Z (Rect.centerx (pu_rect p')))
               (inject_Z (Rect.centery (pu_rect p')))
               (if pu_type p' is Triple then ORANGE else CYAN) 20;;
        update_powerups_loop rest (set_particles s1 ps)
      else
        '(s', kept) <- update_powerups_loop rest s;;
        ret (s', p' :: kept)
  end.

Definition update_powerups (s : SpaceBattle) : Rand G SpaceBattle :=
  '(s', kept) <- update_powerups_loop (sb_powerups s) s;;
  ret (set_powerups s' kept).

Definition update_stars (s : SpaceBattle) : Rand G SpaceBattle :=
  stars <- mapM Star_update (sb_stars s);;
  ret (set_stars s stars).

(** [reset_game]: note what it does not touch: the stars, the particle
    system and [spawn_rate]. *)
Definition reset_game (s : SpaceBattle) : SpaceBattle :=
  mkBattle Player_init [] [] [] (sb_stars s) 0 3 1 (sb_particles s) Playing 0 0
    (sb_spawn_rate s).

(** ** One iteration of [run] *)

(** The event loop; [None] is [pygame.quit(); sys.exit()]. *)
Fixpoint handle_events (evs : list Event) (s : SpaceBattle) : option SpaceBattle :=
  match evs with
  | [] => Some s
  | QUIT :: _ => None
  | KEYDOWN K_SPACE :: rest =>
      handle_events rest
        (if sb_game_state s is Playing then set_player s (Player_shoot (sb_player s)) else s)
  | KEYDOWN K_r :: rest =>
      handle_events rest (if sb_game_state s is GameOver then reset_game s else s)
  | _ :: rest => handle_events rest s
  end.

(** The body of [if self.game_state == "playing"]. *)
Definition update_logic (ticks : Z) (keys : Keys) (s : SpaceBattle) : Rand G SpaceBattle :=
  let p0 := sb_player s in
  let p1 := if key_left keys || key_a keys then Player_move p0 DirLeft else p0 in
  let p2 := if key_right keys || key_d keys then Player_move p1 DirRight else p1 in
  s1 <- spawn_alien ticks (set_player s p2);;
  let s2 := set_player s1 (Player_update_bullets (sb_player s1)) in
  let s3 := set_player s2 (Player_update_powerups (sb_player s2)) in
  let s4 := move_aliens s3 in
  s5 <- alien_shoot s4;;
  s6 <- update_alien_bullets s5;;
  s7 <- check_collisions s6;;
  s8 <- update_powerups s7;;
  let s9 := set_particles s8 (ParticleSystem_update (sb_particles s8)) in
  update_stars s9.

Definition frame (ticks : Z) (evs : list Event) (keys : Keys) (s : SpaceBattle)
    : Rand G (option SpaceBattle) :=
  match handle_events evs s with
  | None => ret None
  | Some s1 =>
      s2 <- (if sb_game_state s1 is Playing then update_logic ticks keys s1 else ret s1
            : Rand G SpaceBattle);;
      ret (Some (set_player s2 (Player_draw (sb_player s2))))
  end.

(** The states [run] can reach, whatever the input and the random draws. *)
Inductive reachable : SpaceBattle -> Prop :=
| reach_init g : reachable (fst (SpaceBattle_init g))
| reach_frame s ticks evs keys g s' :
    reachable s -> fst (frame ticks evs keys s g) = Some s' -> reachable s'.
End Battle.

(** ** The spawner *)

Section SpawnProofs.
Context `{Screen} `{Trig} {G : Type} `{PyRandom G}.
Local Open Scope Z_scope.

(** [n] successive frames of the spawner alone. *)
Fixpoint spawn_iter (n : nat) (ticks : Z) (s : SpaceBattle) : Rand G SpaceBattle :=
  match n with
  | O => ret s
  | S n' => s' <- spawn_iter n' ticks s;; spawn_alien ticks s'
  end.

Lemma spawn_alien_wait (ticks : Z) (s : SpaceBattle) : 1 < sb_spawn_timer s ->
  spawn_alien ticks s = ret (set_spawn s (sb_spawn_timer s - 1) (sb_spawn_rate s)).
Proof. intros Ht. unfold spawn_alien. zcase; [lia|done]. Qed.

Lemma spawn_iter_wait (ticks : Z) (s : SpaceBattle) (k : nat) :
  Z.of_nat k < sb_spawn_timer s ->
  spawn_iter k ticks s = ret (set_spawn s (sb_spawn_timer s - Z.of_nat k) (sb_spawn_rate s)).
Proof.
  induction k as [|k IH]; intros Hk; simpl.
  - destruct s; unfold set_spawn; simpl. by rewrite Z.sub_0_r.
  - rewrite IH, bind_ret_l by lia.
    rewrite spawn_alien_wait by (simpl; lia). unfold set_spawn; simpl.
    f_equal; f_equal; lia.
Qed.

Context `{!PyRandomLaws G}.

Lemma spawn_alien_fire (ticks : Z) (s : SpaceBattle) : sb_spawn_timer s <= 1 ->
  Always (spawn_alien ticks s)
    (fun s' => length (sb_aliens s') = S (length (sb_aliens s)) /\
               sb_spawn_timer s' = spawn_rate_for (sb_level s) /\
               sb_spawn_rate s' = spawn_rate_for (sb_level s)).
Proof.
  intros Ht. unfold spawn_alien. zcase; [|lia]. always_run.
  simpl. rewrite length_app. simpl. split; [lia|done].
Qed.

(** C8: The spawn countdown: when the timer reads [C >= 1] (as it does right
    after a spawn, with [C = spawn_rate]), the next [C - 1] frames spawn
    nothing and the [C]-th frame spawns exactly one alien. *)
Theorem spawn_period (ticks : Z) (s : SpaceBattle) :
  1 <= sb_spawn_timer s ->
  (forall (k : nat) g, (k < Z.to_nat (sb_spawn_timer s))%nat ->
     sb_aliens (fst (spawn_iter k ticks s g)) = sb_aliens s) /\
  Always (spawn_iter (Z.to_nat (sb_spawn_timer s)) ticks s)
    (fun s' => length (sb_aliens s') = S (length (sb_aliens s))).
Proof.
  intros Ht. split.
  - intros k g Hk. rewrite spawn_iter_wait by lia. done.
  - destruct (Z.to_nat (sb_spawn_timer s)) as [|c] eqn:Ec; [lia|]. simpl.
    rewrite spawn_iter_wait, bind_ret_l by lia.
    eapply always_mono; [apply spawn_alien_fire; simpl; lia|].
    intros s' [Hl _]. exact Hl.
Qed.

(** [spawn_rate] stays between 20 and 57 frames once the game is running
    (level at least 1) and never grows as the level rises. *)
Theorem spawn_rate_bounds (level level' : Z) :
  1 <= level <= level' ->
  20 <= spawn_rate_for level' <= spawn_rate_for level /\ spawn_rate_for level <= 57.
Proof. unfold spawn_rate_for, ALIEN_SPAWN_RATE. lia. Qed.
End SpawnProofs.

(** ** The collision pass *)

Section CollisionProofs.
Context `{Screen} `{Trig} {G : Type} `{PyRandom G}.
Local Open Scope Z_scope.

(** The points the aliens of a list are worth. *)
Fixpoint points_of (l : list Alien) : Z :=
  match l with [] => 0 | a :: r => al_points a + points_of r end.

Lemma points_of_app (l1 l2 : list Alien) :
  points_of (l1 ++ l2) = points_of l1 + points_of l2.
Proof. induction l1 as [|a l1 IH]; simpl; lia. Qed.

Lemma first_hit_split (b : Bullet) (l pre post : list Alien) (a : Alien) :
  first_hit b l = Some (pre, a, post) -> l = pre ++ a :: post.
Proof.
  revert pre. induction l as [|x l IH]; intros pre Hh; simpl in Hh; [done|].
  destruct (Rect.colliderect _ _); [by injection Hh as <- <- <-|].
  destruct (first_hit b l) as [[[p y] q]|] eqn:E; [|done].
  injection Hh as <- <- <-. simpl. f_equal. by apply IH.
Qed.

Lemma first_hit_none (b : Bullet) (l : list Alien) :
  first_hit b l = None <->
  Forall (fun a => Rect.colliderect (b_rect b) (al_rect a) = false) l.
Proof.
  induction l as [|x l IH]; simpl; [split; auto|].
  rewrite Forall_cons_iff, <- IH.
  destruct (Rect.colliderect _ _); [split; [done|intros [? _]; done]|].
  destruct (first_hit b l) as [[[p y] q]|]; split; try done; intros [_ ?]; done.
Qed.

Lemma first_hit_none_incl (b : Bullet) (l l' : list Alien) :
  incl l' l -> first_hit b l = None -> first_hit b l' = None.
Proof.
  rewrite !first_hit_none, !List.Forall_forall. intros Hi Hl a Ha. apply Hl, Hi, Ha.
Qed.

Lemma alien_destroyed_spec (s : SpaceBattle) (a : Alien) :
  Always (alien_destroyed s a) (fun s' =>
    sb_aliens s' = sb_aliens s /\ sb_player s' = sb_player s /\
    sb_score s' = sb_score s + al_points a /\
    sb_aliens_killed s' = sb_aliens_killed s + 1 /\
    sb_level s' = (if (sb_aliens_killed s + 1) mod 20 =? 0 then sb_level s + 1
                   else sb_level s) /\
    sb_lives s' = sb_lives s /\ sb_game_state s' = sb_game_state s).
Proof. unfold alien_destroyed. repeat case_match; always_run; simpl; auto 7. Qed.

Lemma check_collisions_loop_spec (todo : list Bullet) (s : SpaceBattle) :
  Always (check_collisions_loop todo s) (fun '(s', kept) =>
    sb_score s' + points_of (sb_aliens s') = sb_score s + points_of (sb_aliens s) /\
    (length (sb_aliens s') + length todo = length (sb_aliens s) + length kept)%nat /\
    sb_aliens_killed s' + Z.of_nat (length (sb_aliens s')) =
      sb_aliens_killed s + Z.of_nat (length (sb_aliens s)) /\
    sb_player s' = sb_player s /\ sb_lives s' = sb_lives s /\
    sb_game_state s' = sb_game_state s /\
    incl (sb_aliens s') (sb_aliens s) /\
    Forall (fun b => first_hit b (sb_aliens s') = None) kept).
Proof.
  revert s. induction todo as [|b rest IH]; intros s; simpl.
  - apply always_ret. repeat split; auto using incl_refl; lia.
  - destruct (first_hit b (sb_aliens s)) as [[[pre a] post]|] eqn:E.
    + apply first_hit_split in E.
      eapply always_bind; [apply alien_destroyed_spec|].
      intros s1 (Ha & Hp & Hsc & Hk & _ & Hl & Hg).
      eapply always_mono; [apply IH|]. intros [s' kept].
      rewrite Ha, Hp, Hsc, Hk, Hl, Hg; simpl. rewrite E.
      intros (J1 & J2 & J3 & J4 & J5 & J6 & J7 & J8).
      rewrite points_of_app in J1. rewrite points_of_app. simpl.
      rewrite length_app in J2, J3 |- *. simpl.
      repeat split; try lia; try done.
      intros x Hx. apply J7 in Hx. apply in_app_or in Hx.
      apply in_or_app. simpl. tauto.
    + eapply always_bind; [apply IH|]. intros [s' kept].
      intros (J1 & J2 & J3 & J4 & J5 & J6 & J7 & J8). apply always_ret.
      simpl. repeat split; try lia; try done.
      constructor; [|done]. by apply (first_hit_none_incl b (sb_aliens s)).
Qed.

(** C4: The accounting of the collision pass: the score grows by exactly the
    points of the aliens removed, the kill count by their number, and as
    many aliens disappear as bullets do, so a bullet is credited with at
    most one alien (the first one it touches) and no alien is paid for
    twice. *)
Theorem check_collisions_accounting (s : SpaceBattle) :
  Always (check_collisions s) (fun s' =>
    sb_score s' + points_of (sb_aliens s') = sb_score s + points_of (sb_aliens s) /\
    Z.of_nat (length (sb_aliens s)) - Z.of_nat (length (sb_aliens s')) =
      Z.of_nat (length (pl_bullets (sb_player s))) -
      Z.of_nat (length (pl_bullets (sb_player s'))) /\
    sb_aliens_killed s' - sb_aliens_killed s =
      Z.of_nat (length (sb_aliens s)) - Z.of_nat (length (sb_aliens s'))).
Proof.
  unfold check_collisions. eapply always_bind; [apply check_collisions_loop_spec|].
  intros [s' kept] (J1 & J2 & J3 & _). apply always_ret. simpl. lia.
Qed.

Lemma check_collisions_loop_nohit (todo : list Bullet) (s : SpaceBattle) (g : G) :
  Forall (fun b => first_hit b (sb_aliens s) = None) todo ->
  check_collisions_loop todo s g = ((s, todo), g).
Proof.
  revert g. induction todo as [|b rest IH]; intros g Hn; [done|].
  apply Forall_cons in Hn as [Hb Hn]. simpl. rewrite Hb. unfold bind.
  by rewrite IH.
Qed.

(** C7: Running the collision pass a second time in the same frame changes
    nothing and draws no random number: no score or life change is ever
    applied twice for one collision. *)
Theorem check_collisions_idempotent (s : SpaceBattle) (g : G) :
  let '(s', g') := check_collisions s g in check_collisions s' g' = (s', g').
Proof.
  pose proof (check_collisions_loop_spec (pl_bullets (sb_player s)) s g) as Hspec.
  unfold check_collisions, bind at 1.
  destruct (check_collisions_loop _ s g) as [[s1 kept] g1]. simpl in Hspec.
  destruct Hspec as (_ & _ & _ & _ & _ & _ & _ & Hn).
  unfold bind, ret. simpl. rewrite check_collisions_loop_nohit by done.
  by destruct s1 as [[] ? ? ? ? ? ? ? ? ? ? ? ?].
Qed.
End CollisionProofs.

(** ** The invariant of the game loop *)

Section Invariant.
Context `{Screen} `{Trig} {G : Type} `{PyRandom G}.
Local Open Scope Z_scope.

(** Game over exactly when the lives are used up; at most the initial 3
    lives; a non-negative score and kill count; the level is one plus the
    number of completed batches of 20 kills; every alien is worth points. *)
Definition battle_inv (s : SpaceBattle) : Prop :=
  (sb_game_state s = GameOver <-> sb_lives s <= 0) /\ sb_lives s <= 3 /\
  0 <= sb_score s /\ 0 <= sb_aliens_killed s /\
  sb_level s = 1 + sb_aliens_killed s / 20 /\
  Forall (fun a => 0 < al_points a) (sb_aliens s).

(** A pass that changes the aliens, but none of the counters, keeps the
    invariant when the new aliens are worth points. *)
Lemma battle_inv_aliens (s s' : SpaceBattle) :
  battle_inv s -> sb_game_state s' = sb_game_state s -> sb_lives s' = sb_lives s ->
  sb_score s' = sb_score s -> sb_aliens_killed s' = sb_aliens_killed s ->
  sb_level s' = sb_level s -> Forall (fun a => 0 < al_points a) (sb_aliens s') ->
  battle_inv s'.
Proof.
  unfold battle_inv. intros (Hg & Hl & Hsc & Hk & Hlv & _) -> -> -> -> -> Hf. done.
Qed.

Lemma lose_life_inv (s : SpaceBattle) : battle_inv s -> battle_inv (lose_life s).
Proof.
  unfold battle_inv, lose_life; simpl. intros (Hg & Hl & Hr).
  split; [|split; [lia|exact Hr]].
  destruct (Z.leb_spec (sb_lives s - 1) 0); [split; auto|].
  split; [intros E; apply Hg in E; lia|lia].
Qed.

Lemma level_step (k : Z) : 0 <= k ->
  (if (k + 1) mod 20 =? 0 then 1 + k / 20 + 1 else 1 + k / 20) = 1 + (k + 1) / 20.
Proof.
  intros Hk. pose proof (Z.div_mod k 20 ltac:(lia)). pose proof (Z.mod_pos_bound k 20 ltac:(lia)).
  pose proof (Z.div_mod (k + 1) 20 ltac:(lia)).
  pose proof (Z.mod_pos_bound (k + 1) 20 ltac:(lia)).
  destruct (Z.eqb_spec ((k + 1) mod 20) 0); nia.
Qed.

Lemma Alien_init_points (ticks x t : Z) :
  Always (Alien_init ticks x t) (fun a => 0 < al_points a).
Proof.
  unfold Alien_init.
  apply always_bind with (P := fun r => 0 < snd r).
  - repeat case_match; always_run; simpl; lia.
  - intros [[sy sx] pts] Hp. always_run. exact Hp.
Qed.

Lemma spawn_alien_inv (ticks : Z) (s : SpaceBattle) :
  battle_inv s -> Always (spawn_alien ticks s) battle_inv.
Proof.
  intros Hs. unfold spawn_alien. case_match; [|by apply always_ret].
  do 2 (apply always_bind_any; intros ?).
  eapply always_bind; [apply Alien_init_points|]. intros al Ha.
  apply always_ret. apply (battle_inv_aliens s); [done..|].
  simpl. apply Forall_app. split; [apply Hs|]. by constructor.
Qed.

Lemma move_aliens_loop_inv (todo : list Alien) (s : SpaceBattle) :
  battle_inv s -> Forall (fun a => 0 < al_points a) todo ->
  battle_inv (fst (move_aliens_loop todo s)) /\
  Forall (fun a => 0 < al_points a) (snd (move_aliens_loop todo s)) /\
  sb_aliens (fst (move_aliens_loop todo s)) = sb_aliens s.
Proof.
  revert s. induction todo as [|a rest IH]; intros s Hs Ht; [done|].
  apply Forall_cons in Ht as [Ha Ht]. simpl. case_match.
  - destruct (IH (lose_life s) (lose_life_inv s Hs) Ht) as (? & ? & ->). done.
  - destruct (move_aliens_loop rest s) as [s' kept] eqn:E.
    destruct (IH s Hs Ht) as (? & ? & ?). rewrite E in *. simpl in *.
    split; [done|split; [constructor; [|done]|done]].
    unfold Alien_move. by repeat case_match.
Qed.

Lemma move_aliens_inv (s : SpaceBattle) : battle_inv s -> battle_inv (move_aliens s).
Proof.
  intros Hs. pose proof (move_aliens_loop_inv (sb_aliens s) s Hs ltac:(apply Hs)) as Hl.
  unfold move_aliens. destruct (move_aliens_loop _ s) as [s' kept]. simpl in Hl.
  destruct Hl as (Hs' & Hk & _). by apply (battle_inv_aliens s').
Qed.

Lemma alien_shoot_loop_points (aliens : list Alien) :
  Forall (fun a => 0 < al_points a) aliens ->
  Always (alien_shoot_loop aliens) (fun r => Forall (fun a => 0 < al_points a) (fst r)).
Proof.
  induction aliens as [|a rest IH]; intros Ha; simpl; [by apply always_ret|].
  apply Forall_cons in Ha as [Ha Hr].
  apply always_bind with (P := fun r => 0 < al_points (snd r)).
  - unfold Alien_can_shoot. case_match; always_run; exact Ha.
  - intros [ok a'] Ha'. apply always_bind_any; intros fire.
    eapply always_bind; [apply (IH Hr)|].
    intros [rest' bs] Hrest. apply always_ret. simpl in *. by constructor.
Qed.

Lemma alien_shoot_inv (s : SpaceBattle) :
  battle_inv s -> Always (alien_shoot s) battle_inv.
Proof.
  intros Hs. unfold alien_shoot.
  eapply always_bind; [apply alien_shoot_loop_points, Hs|].
  intros [aliens bs] Ha. apply always_ret. by apply (battle_inv_aliens s).
Qed.

Lemma update_alien_bullets_loop_inv (todo : list AlienBullet) (s : SpaceBattle) :
  battle_inv s -> Always (update_alien_bullets_loop todo s) (fun r => battle_inv (fst r)).
Proof.
  revert s. induction todo as [|b rest IH]; intros s Hs; simpl; [by apply always_ret|].
  repeat case_match.
  - by apply IH.
  - apply always_bind_any. intros ps. apply IH. apply (lose_life_inv s Hs).
  - apply always_bind_any. intros ps. by apply IH.
  - eapply always_bind; [apply (IH s Hs)|]. intros [s' kept] Hs'. by apply always_ret.
Qed.

Lemma update_alien_bullets_inv (s : SpaceBattle) :
  battle_inv s -> Always (update_alien_bullets s) battle_inv.
Proof.
  intros Hs. unfold update_alien_bullets.
  eapply always_bind; [apply (update_alien_bullets_loop_inv _ s Hs)|].
  intros [s' kept] Hs'. by apply always_ret.
Qed.

Lemma check_collisions_loop_inv (todo : list Bullet) (s : SpaceBattle) :
  battle_inv s -> Always (check_collisions_loop todo s) (fun r => battle_inv (fst r)).
Proof.
  revert s. induction todo as [|b rest IH]; intros s Hs; simpl; [by apply always_ret|].
  destruct (first_hit b (sb_aliens s)) as [[[pre a] post]|] eqn:E.
  - apply first_hit_split in E.
    destruct Hs as (Hg & Hl & Hsc & Hk & Hlv & Hf). rewrite E in Hf.
    apply Forall_app in Hf as [Hpre Hpost]. apply Forall_cons in Hpost as [Ha Hpost].
    eapply always_bind; [apply alien_destroyed_spec|].
    intros s1 (Hal & _ & Hsc1 & Hk1 & Hlv1 & Hl1 & Hg1). apply IH.
    unfold battle_inv. simpl in *.
    rewrite Hal, Hsc1, Hk1, Hlv1, Hl1, Hg1, Hlv, level_step by lia.
    repeat split; try tauto; try lia. by apply Forall_app.
  - eapply always_bind; [apply (IH s Hs)|]. intros [s' kept] Hs'. by apply always_ret.
Qed.

Lemma check_collisions_inv (s : SpaceBattle) :
  battle_inv s -> Always (check_collisions s) battle_inv.
Proof.
  intros Hs. unfold check_collisions.
  eapply always_bind; [apply (check_collisions_loop_inv _ s Hs)|].
  intros [s' kept] Hs'. by apply always_ret.
Qed.

Lemma update_powerups_loop_inv (todo : list PowerUp) (s : SpaceBattle) :
  battle_inv s -> Always (update_powerups_loop todo s) (fun r => battle_inv (fst r)).
Proof.
  revert s. induction todo as [|p rest IH]; intros s Hs; simpl; [by apply always_ret|].
  repeat case_match; first
    [ by apply IH
    | apply always_bind_any; intros ps; by apply IH
    | eapply always_bind; [apply (IH s Hs)|]; intros [s' kept] Hs'; by apply always_ret ].
Qed.

Lemma update_powerups_inv (s : SpaceBattle) :
  battle_inv s -> Always (update_powerups s) battle_inv.
Proof.
  intros Hs. unfold update_powerups.
  eapply always_bind; [apply (update_powerups_loop_inv _ s Hs)|].
  intros [s' kept] Hs'. by apply always_ret.
Qed.

Lemma update_logic_inv (ticks : Z) (keys : Keys) (s : SpaceBattle) :
  battle_inv s -> Always (update_logic ticks keys s) battle_inv.
Proof.
  intros Hs. unfold update_logic.
  eapply always_bind; [by apply spawn_alien_inv|]. intros s1 Hs1.
  eapply always_bind; [by apply alien_shoot_inv, move_aliens_inv|]. intros s5 Hs5.
  eapply always_bind; [by apply update_alien_bullets_inv|]. intros s6 Hs6.
  eapply always_bind; [by apply check_collisions_inv|]. intros s7 Hs7.
  eapply always_bind; [by apply update_powerups_inv|]. intros s8 Hs8.
  unfold update_stars. always_run. exact Hs8.
Qed.

Lemma reset_game_inv (s : SpaceBattle) : battle_inv (reset_game s).
Proof. unfold battle_inv; simpl. repeat split; try done; lia. Qed.

Lemma handle_events_inv (evs : list Event) (s s' : SpaceBattle) :
  battle_inv s -> handle_events evs s = Some s' -> battle_inv s'.
Proof.
  revert s. induction evs as [|e evs IH]; intros s Hs He; simpl in He.
  - by injection He as <-.
  - destruct e as [|[]|]; try done; (eapply IH; [|exact He]); repeat case_match;
      first [exact Hs | apply reset_game_inv].
Qed.

Lemma frame_inv (ticks : Z) (evs : list Event) (keys : Keys) (s : SpaceBattle) :
  battle_inv s ->
  Always (frame ticks evs keys s) (fun o => forall s', o = Some s' -> battle_inv s').
Proof.
  intros Hs. unfold frame. destruct (handle_events evs s) as [s1|] eqn:E;
    [|by apply always_ret].
  apply (handle_events_inv evs s s1 Hs) in E.
  apply always_bind with (P := battle_inv).
  - case_match; [by apply update_logic_inv | by apply always_ret].
  - intros s2 Hs2. apply always_ret. intros s' [= <-]. exact Hs2.
Qed.

Lemma SpaceBattle_init_inv : Always SpaceBattle_init battle_inv.
Proof. unfold SpaceBattle_init. always_run. unfold battle_inv; simpl. repeat split; try done; lia. Qed.

(** C1: The invariant of the game loop: in every state [run] can reach,
    whatever the input and the random draws, the game is over exactly when
    no life is left, there are never more than 3 lives, score and kill
    count are non-negative, the level is [1 + aliens_killed / 20] (one
    level per 20 kills) and every alien on screen is worth points. *)
Theorem frame_reachable_inv (s : SpaceBattle) : reachable s -> battle_inv s.
Proof.
  induction 1 as [g | s ticks evs keys g s' Hr IH Hf].
  - apply SpaceBattle_init_inv.
  - exact (frame_inv ticks evs keys s IH g s' Hf).
Qed.
End Invariant.

(** ** Lives, game over and restart *)

Section LifeCycle.
Context `{Screen} `{Trig} {G : Type} `{PyRandom G}.
Local Open Scope Z_scope.




Lemma handle_events_over (evs : list Event) (s : SpaceBattle) :
  sb_game_state s = GameOver -> Forall (fun e => e <> QUIT /\ e <> KEYDOWN K_r) evs ->
  handle_events evs s = Some s.
Proof.
  intros Hg Hevs. induction Hevs as [|e evs [Hq Hr] _ IH]; [done|].
  destruct e as [|[]|]; simpl; rewrite ?Hg; done.
Qed.

(** C29: Once the game is over, a frame without a quit or an [R] key press
    changes nothing but the ship's engine-glow animation (the one state
    change of [draw]), draws no random number, and in particular no key
    can fire a shot. *)
Theorem frame_game_over_frozen (ticks : Z) (evs : list Event) (keys : Keys)
    (s : SpaceBattle) (g : G) :
  sb_game_state s = GameOver -> Forall (fun e => e <> QUIT /\ e <> KEYDOWN K_r) evs ->
  frame ticks evs keys s g = (Some (set_player s (Player_draw (sb_player s))), g).
Proof.
  intros Hg Hevs. unfold frame. rewrite handle_events_over by done.
  rewrite Hg. reflexivity.
Qed.

(** C31: Restarting with [R] after a game over clears the aliens, all bullets
    and power-ups, the score and the level and gives back 3 lives, but
    keeps the particle system: the explosion particles of the lost round
    are still in the registry (and still updated) when the new round
    starts. *)
Theorem restart_keeps_particles (s : SpaceBattle) :
  sb_game_state s = GameOver ->
  exists s', handle_events [KEYDOWN K_r] s = Some s' /\
    sb_particles s' = sb_particles s /\
    sb_aliens s' = [] /\ sb_alien_bullets s' = [] /\ sb_powerups s' = [] /\
    pl_bullets (sb_player s') = [] /\ sb_score s' = 0 /\ sb_lives s' = 3 /\
    sb_level s' = 1 /\ sb_game_state s' = Playing.
Proof. intros Hg. simpl. rewrite Hg. by eexists. Qed.
End LifeCycle.

(** ** Alien bullets and power-ups leave the registry *)

Section Expiry.
Context `{Screen} `{Trig} {G : Type} `{PyRandom G}.
Local Open Scope Z_scope.

(** An alien bullet at most [S n] moves away from leaving the screen. *)
Definition ab_leaves_in (n : nat) (b : AlienBullet) : Prop :=
  ab_speed b = 4 /\ SCREEN_HEIGHT < Rect.top (ab_rect b) + 4 * Z.of_nat (S n).

(** A power-up at most [S n] moves away from leaving the screen. *)
Definition pu_leaves_in (n : nat) (p : PowerUp) : Prop :=
  pu_speed p = POWERUP_SPEED /\ SCREEN_HEIGHT < Rect.top (pu_rect p) + POWERUP_SPEED * Z.of_nat (S n).

(** The bullets [update_alien_bullets_loop] keeps are moved bullets still on
    screen; the pass leaves the power-ups alone. *)
Lemma update_alien_bullets_loop_kept (P Q : AlienBullet -> Prop) (todo : list AlienBullet)
    (s : SpaceBattle) :
  Forall P todo ->
  (forall b, P b -> Rect.top (ab_rect (AlienBullet_move b)) <= SCREEN_HEIGHT -> Q (AlienBullet_move b)) ->
  Always (update_alien_bullets_loop todo s)
    (fun r => Forall Q (snd r) /\ sb_powerups (fst r) = sb_powerups s).
Proof.
  intros Hp HQ. revert s. induction Hp as [|b rest Hb _ IH]; intros s; simpl; [by apply always_ret|].
  repeat case_match; try by apply IH.
  - apply always_bind_any. intros ps. exact (IH _).
  - apply always_bind_any. intros ps. exact (IH _).
  - eapply always_bind; [apply IH|]. intros [s' kept] [Hk Hs']. apply always_ret.
    match goal with E : (SCREEN_HEIGHT <? _) = false |- _ => apply Z.ltb_ge in E end.
    split; [constructor; [apply HQ; [done | assumption] | done] | done].
Qed.

(** The same for [update_powerups_loop], which leaves the alien bullets alone. *)
Lemma update_powerups_loop_kept (P Q : PowerUp -> Prop) (todo : list PowerUp) (s : SpaceBattle) :
  Forall P todo ->
  (forall p, P p -> Rect.top (pu_rect (PowerUp_move p)) <= SCREEN_HEIGHT -> Q (PowerUp_move p)) ->
  Always (update_powerups_loop todo s)
    (fun r => Forall Q (snd r) /\ sb_alien_bullets (fst r) = sb_alien_bullets s).
Proof.
  intros Hp HQ. revert s. induction Hp as [|p rest Hpp _ IH]; intros s; simpl; [by apply always_ret|].
  repeat case_match; try by apply IH.
  1,2: apply always_bind_any; intros ps; exact (IH _).
  eapply always_bind; [apply IH|]. intros [s' kept] [Hk Hs']. apply always_ret.
  match goal with E : (SCREEN_HEIGHT <? _) = false |- _ => apply Z.ltb_ge in E end.
  split; [constructor; [apply HQ; [done | assumption] | done] | done].
Qed.

(** A moved bullet still on screen is one move closer to leaving; one that
    was a single move away is gone. *)
Lemma ab_leaves_step (n : nat) (b : AlienBullet) :
  ab_leaves_in n b -> Rect.top (ab_rect (AlienBullet_move b)) <= SCREEN_HEIGHT ->
  match n with O => False | S m => ab_leaves_in m (AlienBullet_move b) end.
Proof.
  unfold ab_leaves_in, AlienBullet_move, Rect.set_y, Rect.top. cbn. intros [Hs Ht] Hm.
  destruct n; [lia | split; [done | lia]].
Qed.

Lemma pu_leaves_step (n : nat) (p : PowerUp) :
  pu_leaves_in n p -> Rect.top (pu_rect (PowerUp_move p)) <= SCREEN_HEIGHT ->
  match n with O => False | S m => pu_leaves_in m (PowerUp_move p) end.
Proof.
  unfold pu_leaves_in, PowerUp_move, Rect.top, POWERUP_SPEED. cbn. intros [Hs Ht] Hm.
  destruct n; [lia | split; [done | lia]].
Qed.

(** The two passes of one iteration of [run] (lines 730 and 732) that move
    alien bullets and power-ups: [update_alien_bullets], then
    [update_powerups].  The [check_collisions] between them only ever adds
    power-ups, so it does not bear on how long the existing ones last. *)
Definition transient_passes (s : SpaceBattle) : Rand G SpaceBattle :=
  s1 <- update_alien_bullets s;; update_powerups s1.

Lemma transient_passes_step (n : nat) (s : SpaceBattle) :
  Forall (ab_leaves_in n) (sb_alien_bullets s) -> Forall (pu_leaves_in n) (sb_powerups s) ->
  Always (transient_passes s)
    (fun s' => Forall (fun b => match n with O => False | S m => ab_leaves_in m b end) (sb_alien_bullets s') /\
               Forall (fun p => match n with O => False | S m => pu_leaves_in m p end) (sb_powerups s')).
Proof.
  intros Hb Hp. unfold transient_passes, update_alien_bullets, update_powerups.
  set (Qb := fun b => match n with O => False | S m => ab_leaves_in m b end).
  set (Qp := fun p => match n with O => False | S m => pu_leaves_in m p end).
  apply (always_bind _ _ (fun s1 => Forall Qb (sb_alien_bullets s1) /\ sb_powerups s1 = sb_powerups s)).
  { eapply always_bind; [exact (update_alien_bullets_loop_kept _ Qb _ s Hb (ab_leaves_step n))|].
    intros [s1 kept] [Hk Hs1]. by apply always_ret. }
  intros s1 [Hk Hs1]. rewrite <- Hs1 in Hp.
  eapply always_bind; [exact (update_powerups_loop_kept _ Qp _ s1 Hp (pu_leaves_step n))|].
  intros [s2 kept'] [Hk' Hs2]. apply always_ret. cbn in *. rewrite Hs2. split; [exact Hk | exact Hk'].
Qed.

(** C28: Alien bullets and power-ups leave the registry: with the speeds the
    constructors give them (4 and [POWERUP_SPEED] = 3 pixels a frame), a
    bullet or power-up whose top edge is within [4 * (n + 1)] (resp.
    [3 * (n + 1)]) pixels of passing the bottom of the screen is removed by
    the [n + 1]-th frame of [update_alien_bullets] and [update_powerups],
    whatever it hits on the way and whatever the random draws. *)
Theorem transients_leave (n : nat) (s : SpaceBattle) :
  Forall (ab_leaves_in n) (sb_alien_bullets s) -> Forall (pu_leaves_in n) (sb_powerups s) ->
  Always (iterM (S n) transient_passes s)
    (fun s' => sb_alien_bullets s' = [] /\ sb_powerups s' = []).
Proof.
  revert s. induction n as [|n IH]; intros s Hb Hp; cbn [iterM].
  - eapply always_bind; [by apply (transient_passes_step 0)|]. intros s' [Hb' Hp'].
    apply always_ret. split; by apply Forall_False_nil.
  - eapply always_bind; [by apply (transient_passes_step (S n))|]. intros s' [Hb' Hp'].
    by apply IH.
Qed.

End Expiry.

(** ** Concrete states and witnesses *)

Section Witnesses.
#[local] Existing Instances default_screen trig_flat.
Local Open Scope Z_scope.

(** A lost game with the particles of the last explosion still alive. *)
Definition lost_game : SpaceBattle :=
  mkBattle Player_init [] [] [] [] 120 0 1 [mkParticle 0 0 RED 1 1 30 2] GameOver 12 12 57.

(** A spawner that has just fired at level 1. *)
Definition just_spawned : SpaceBattle :=
  mkBattle Player_init [] [] [] [] 0 3 1 [] Playing 57 0 57.

Lemma spawn_period_witness :
  Always (G := list Z) (spawn_iter 57 0 just_spawned)
    (fun s' => length (sb_aliens s') = 1%nat).
Proof. exact (proj2 (spawn_period 0 just_spawned ltac:(vm_compute; discriminate))). Defined.

Lemma spawn_rate_bounds_witness :
  20 <= spawn_rate_for 5 <= spawn_rate_for 1 /\ spawn_rate_for 1 <= 57.
Proof. apply spawn_rate_bounds. lia. Defined.

Lemma frame_reachable_inv_witness : battle_inv (fst (SpaceBattle_init (G := list Z) [])).
Proof. apply frame_reachable_inv, reach_init. Defined.

Lemma frame_game_over_frozen_witness :
  let g : list Z := [] in
  frame 0 [KEYDOWN K_SPACE; OtherEvent] (mkKeys true false false false) lost_game g =
  (Some (set_player lost_game (Player_draw (sb_player lost_game))), g).
Proof. intros g. apply frame_game_over_frozen; [reflexivity | decide_concrete]. Defined.

Lemma restart_keeps_particles_witness :
  exists s', handle_events [KEYDOWN K_r] lost_game = Some s' /\
    sb_particles s' = sb_particles lost_game /\
    sb_aliens s' = [] /\ sb_alien_bullets s' = [] /\ sb_powerups s' = [] /\
    pl_bullets (sb_player s') = [] /\ sb_score s' = 0 /\ sb_lives s' = 3 /\
    sb_level s' = 1 /\ sb_game_state s' = Playing.
Proof. apply restart_keeps_particles. reflexivity. Defined.
(** An alien bullet 10 pixels and a power-up 22 pixels above the bottom
    edge of an 800x600 screen. *)
Definition falling_things : SpaceBattle :=
  mkBattle Player_init [] [AlienBullet_init 400 598] [PowerUp_init 100 590 Triple] [] 0 3 1 []
    Playing 10 0 57.

Lemma transients_leave_witness :
  Always (G := list Z) (iterM 8 transient_passes falling_things)
    (fun s' => sb_alien_bullets s' = [] /\ sb_powerups s' = []).
Proof. apply (transients_leave 7); decide_concrete. Defined.
End Witnesses.
