(* ===== verification/SIRender.v ===== *)
(** SIRender: what SpaceInvader draws ([src/apps/arcade/games/SpaceInvader.py]).

    Each draw method is the list of pygame calls it makes ([Draw.DrawCmd]):
    the images the constructors draw once on their own surfaces
    ([create_spaceship], [create_alien], [PowerUp.create_image], the two
    bullet images), blitted as layers where [SpaceBattle.draw] blits them;
    [Star.draw], [Particle.draw], [Player.draw] with its engine glow and
    shield hexagon; the background gradient, the HUD and [draw_game_over].
    [get_font] is the font the installation provides or [None]
    ([Draw.Fonts]); [pygame.time.get_ticks()] at drawing time is an
    argument.  [frame_render] is one iteration of [run] with its drawing.

    The theorem of the file is that every call [draw] makes in a reachable
    state passes pygame's argument checks: the colour of a star is its
    brightness, of a particle the colour it was emitted with, of the engine
    glow and the shield a computed value, and [render_inv] (every star's
    brightness in [[0, 255]], every particle's colour a valid colour) holds
    in every reachable state. *)

From Stdlib Require Import String.
From S2P Require Import Prelude PyRandom PyMath Rect Draw SIObjects SIBattle.

Import Draw.
Local Open Scope Z_scope.

(** An integer point. *)
Definition pt (x y : Z) : Q * Q := (inject_Z x, inject_Z y).

Section Render.
Context `{Screen} `{Trig} `{Fonts}.

(** [get_font(size)]: a font of that size, or [None] when every fallback
    fails; a font is known by its size. *)
Definition get_font (size : Z) : option Z := if font_loads size then Some size else None.

Definition Star_draw (st : Star) : list DrawCmd :=
  let b := star_brightness st in
  [DCircle (rgb (b, b, b)) (pt (star_x st) (py_int (star_y st))) (star_size st) 0].

(** The [alpha] [Particle.draw] computes is never used. *)
Definition Particle_draw (p : Particle) : list DrawCmd :=
  if 0 <? pt_lifetime p then
    [DCircle (rgb (pt_color p)) (pt (py_int (pt_x p)) (py_int (pt_y p))) (py_int (pt_size p)) 0]
  else [].

Definition ParticleSystem_draw (ps : list Particle) : list DrawCmd := flat_map Particle_draw ps.

Definition Player_width : Z := 60.
Definition Player_height : Z := 50.

Definition create_spaceship : list DrawCmd :=
  [ DPolygon (rgb (200, 200, 220))
      [pt 30 0; pt 15 20; pt 20 35; pt 10 50; pt 50 50; pt 40 35; pt 45 20] 0;
    DEllipse (rgb (100, 200, 255)) 22 8 16 18;
    DEllipse (rgb (200, 240, 255)) 24 10 12 12;
    DPolygon (rgb (150, 150, 180)) [pt 20 20; pt 0 30; pt 5 40; pt 20 35] 0;
    DPolygon (rgb (150, 150, 180)) [pt 40 20; pt 60 30; pt 55 40; pt 40 35] 0;
    DLine (rgb CYAN) (pt 30 5) (pt 30 25) 2;
    DCircle (rgb (80, 80, 100)) (pt 15 48) 4 0;
    DCircle (rgb (80, 80, 100)) (pt 45 48) 4 0;
    DCircle (rgb ORANGE) (pt 15 48) 2 0;
    DCircle (rgb ORANGE) (pt 45 48) 2 0;
    DLine (rgb (150, 150, 170)) (pt 25 15) (pt 25 30) 1;
    DLine (rgb (150, 150, 170)) (pt 35 15) (pt 35 30) 1 ].

(** The rotating hexagon of the shield, around [(center_x, center_y)]. *)
Definition shield_points (time : Z) : list (Q * Q) :=
  let center_x := Player_width / 2 + 15 in
  let center_y := Player_height / 2 + 15 in
  let angle_offset := (inject_Z time / 500)%Q in
  map (fun i => let angle := (math_pi / 3 * inject_Z i + angle_offset)%Q in
                (inject_Z center_x + 38 * math_cos angle, inject_Z center_y + 38 * math_sin angle)%Q)
    (py_range 6).

(** [Player.draw]: the glow counter advances ([Player_draw]) and the ship
    is drawn with the new value; [time] is [pygame.time.get_ticks()]. *)
Definition Player_draw_cmds (time : Z) (p : Player) : Player * list DrawCmd :=
  let p' := Player_draw p in
  let glow := pl_engine_glow p' in
  let glow_size := 3 + glow / 5 in
  let engine_color := (255, 150 + glow * 5, 0) in
  let r := pl_rect p' in
  (p',
   [ DCircle (rgb engine_color) (pt (Rect.left r + 15) (Rect.bottom r - 2)) glow_size 0;
     DCircle (rgb engine_color) (pt (Rect.right r - 15) (Rect.bottom r - 2)) glow_size 0;
     DLayer Player_width Player_height create_spaceship (rx r, ry r) ] ++
   if pl_shield_active p' then
     let alpha := py_int (100 + 50 * math_sin (inject_Z time / 100)) in
     let points := shield_points time in
     [ DLayer (Player_width + 30) (Player_height + 30)
         [DPolygon (rgba CYAN alpha) points 3; DPolygon (rgba BLUE (alpha / 2)) points 1]
         (rx r - 15, ry r - 15) ]
   else []).

Definition Bullet_image : list DrawCmd :=
  [DRect (rgb CYAN) 0 0 4 18 0 0; DRect (rgb WHITE) 1 0 2 6 0 0].

Definition AlienBullet_image : list DrawCmd :=
  [DEllipse (rgb RED) 0 0 6 16; DEllipse (rgb ORANGE) 1 2 4 12; DEllipse (rgb YELLOW) 2 4 2 8].

Definition create_alien (alien_type : Z) : list DrawCmd :=
  if alien_type =? 0 then
    [ DCircle (rgb RED) (pt 25 20) 18 0;
      DCircle (rgb (255, 255, 0)) (pt 17 17) 6 0; DCircle (rgb (255, 255, 0)) (pt 33 17) 6 0;
      DCircle (rgb BLACK) (pt 17 17) 3 0; DCircle (rgb BLACK) (pt 33 17) 3 0 ] ++
    map (fun i => let x := 8 + i * 8 in DLine (rgb RED) (pt x 35) (pt (x - 3) 48) 3) (py_range 5)
  else if alien_type =? 1 then
    [ DEllipse (rgb PURPLE) 10 15 30 25; DCircle (rgb PURPLE) (pt 25 12) 10 0;
      DCircle (rgb (0, 255, 0)) (pt 20 10) 4 0; DCircle (rgb (0, 255, 0)) (pt 30 10) 4 0;
      DCircle (rgb BLACK) (pt 20 10) 2 0; DCircle (rgb BLACK) (pt 30 10) 2 0;
      DLine (rgb PURPLE) (pt 18 8) (pt 12 0) 2; DLine (rgb PURPLE) (pt 32 8) (pt 38 0) 2;
      DCircle (rgb (255, 255, 0)) (pt 12 0) 2 0; DCircle (rgb (255, 255, 0)) (pt 38 0) 2 0 ] ++
    flat_map (fun i => let y := 20 + i * 5 in
                       [DLine (rgb PURPLE) (pt 10 y) (pt 3 (y + 8)) 2;
                        DLine (rgb PURPLE) (pt 40 y) (pt 47 (y + 8)) 2]) (py_range 3)
  else
    [ DEllipse (rgb ORANGE) 5 20 40 15; DEllipse (rgb (255, 200, 0)) 10 18 30 10;
      DEllipse (rgb (200, 100, 0)) 15 10 20 18; DEllipse (rgb (255, 255, 100)) 18 12 14 12 ] ++
    map (fun i => let x := 12 + i * 8 in DCircle (rgb CYAN) (pt x 27) 2 0) (py_range 4).

Definition PowerUp_create_image (t : PowerUpType) : list DrawCmd :=
  match t with
  | Triple =>
      [DCircle (rgb ORANGE) (pt 12 12) 12 0; DCircle (rgb YELLOW) (pt 12 12) 10 0] ++
      match get_font 20 with
      | Some font => [DText font [TStr "3X"] (rgb BLACK) TopLeft (4, 6)]
      | None => []
      end
  | Shield =>
      let points := map (fun i => let angle := (math_pi / 3 * inject_Z i)%Q in
                                  (12 + 7 * math_cos angle, 12 + 7 * math_sin angle)%Q)
                      (py_range 6) in
      [DCircle (rgb CYAN) (pt 12 12) 12 0; DCircle (rgb BLUE) (pt 12 12) 10 0;
       DPolygon (rgb WHITE) points 2]
  end.

(** [screen.blit(x.image, x.rect)] for each kind of sprite. *)
Definition Bullet_blit (b : Bullet) : DrawCmd :=
  DLayer 4 18 Bullet_image (rx (b_rect b), ry (b_rect b)).
Definition AlienBullet_blit (b : AlienBullet) : DrawCmd :=
  DLayer 6 16 AlienBullet_image (rx (ab_rect b), ry (ab_rect b)).
Definition Alien_blit (a : Alien) : DrawCmd :=
  DLayer 50 50 (create_alien (al_type a)) (rx (al_rect a), ry (al_rect a)).
Definition PowerUp_blit (p : PowerUp) : DrawCmd :=
  DLayer 25 25 (PowerUp_create_image (pu_type p)) (rx (pu_rect p), ry (pu_rect p)).

(** One line of the background gradient. *)
Definition gradient_line (y : Z) : DrawCmd :=
  let color_value := py_int (10 + inject_Z y / inject_Z SCREEN_HEIGHT * 20) in
  DLine (rgb (color_value, color_value, color_value + 20)) (pt 0 y) (pt SCREEN_WIDTH y) 1.

Definition draw_game_over (s : SpaceBattle) : list DrawCmd :=
  DLayer SCREEN_WIDTH SCREEN_HEIGHT [DFill (rgba BLACK 200)] (0, 0) ::
  match get_font 90, get_font 48, get_font 36 with
  | Some font_huge, Some font_large, Some font_medium =>
      let cx := SCREEN_WIDTH / 2 in
      let cy := SCREEN_HEIGHT / 2 in
      [ DText font_huge [TStr "GAME OVER"] (rgb RED) TopLeft (cx - 230, cy - 120);
        DText font_large [TStr "Final Score: "; TInt (sb_score s)] (rgb YELLOW) TopLeft
          (cx - 160, cy - 20);
        DText font_medium [TStr "Level Reached: "; TInt (sb_level s)] (rgb CYAN) TopLeft
          (cx - 130, cy + 30);
        DText font_medium [TStr "Aliens Destroyed: "; TInt (sb_aliens_killed s)] (rgb GREEN)
          TopLeft (cx - 150, cy + 70);
        DText font_large [TStr "Press R to Restart"] (rgb WHITE) TopLeft (cx - 180, cy + 130) ]
  | _, _, _ => []
  end.

(** The HUD and the game-over screen, drawn after the sprites. *)
Definition SpaceBattle_hud (s : SpaceBattle) : list DrawCmd :=
  match get_font 32, get_font 24 with
  | Some font, Some font_small =>
      let p := sb_player s in
      [ DLayer SCREEN_WIDTH 60 [DFill (rgba BLACK 120)] (0, 0);
        DText font [TStr "SCORE: "; TInt (sb_score s)] (rgb YELLOW) TopLeft (20, 15);
        DText font [TStr "LEVEL: "; TInt (sb_level s)] (rgb CYAN) TopLeft
          (SCREEN_WIDTH / 2 - 60, 15);
        DText font [TStr "LIVES: "; TInt (sb_lives s)]
          (rgb (if 1 <? sb_lives s then GREEN else RED)) TopLeft (SCREEN_WIDTH - 150, 15) ] ++
      (if pl_powerup_active p then
         [DText font_small [TStr "TRIPLE SHOT: "; TInt (pl_powerup_timer p / 60); TStr "s"]
            (rgb ORANGE) TopLeft (20, 65)]
       else []) ++
      (if pl_shield_active p then
         [DText font_small [TStr "SHIELD: "; TInt (pl_shield_timer p / 60); TStr "s"]
            (rgb CYAN) TopLeft (20, if pl_powerup_active p then 90 else 65)]
       else []) ++
      (if sb_game_state s is GameOver then draw_game_over s else [])
  | _, _ => []
  end.

(** [SpaceBattle.draw]: the state after it ([Player.draw] advances the
    glow) and the calls it makes. *)
Definition SpaceBattle_draw (time : Z) (s : SpaceBattle) : SpaceBattle * list DrawCmd :=
  let '(p', player_cmds) := Player_draw_cmds time (sb_player s) in
  let s' := set_player s p' in
  (s',
   map gradient_line (py_range SCREEN_HEIGHT) ++
   flat_map Star_draw (sb_stars s) ++
   ParticleSystem_draw (sb_particles s) ++
   player_cmds ++
   map Bullet_blit (pl_bullets p') ++
   map AlienBullet_blit (sb_alien_bullets s) ++
   map Alien_blit (sb_aliens s) ++
   map PowerUp_blit (sb_powerups s) ++
   SpaceBattle_hud s').

Context {G : Type} `{PyRandom G}.

(** One iteration of [run] with its drawing: the events, the update while
    playing, then [self.draw()] at time [time]. *)
Definition frame_render (ticks time : Z) (evs : list Event) (keys : Keys) (s : SpaceBattle)
    : Rand G (option (SpaceBattle * list DrawCmd)) :=
  match handle_events evs s with
  | None => ret None
  | Some s1 =>
      s2 <- (if sb_game_state s1 is Playing then update_logic ticks keys s1 else ret s1
            : Rand G SpaceBattle);;
      ret (Some (SpaceBattle_draw time s2))
  end.

End Render.

(** ** The colours of the scene *)

Section RenderInvariant.
Context `{Screen} `{Trig} {G : Type} `{PyRandom G}.

Definition color_ok (c : Color) : Prop := valid_color (rgb c) = true.
Definition star_ok (st : Star) : Prop := 0 <= star_brightness st <= 255.
Definition particles_ok (ps : list Particle) : Prop := Forall (fun p => color_ok (pt_color p)) ps.

(** The state [draw] reads its colours from. *)
Definition render_inv (s : SpaceBattle) : Prop :=
  Forall star_ok (sb_stars s) /\ particles_ok (sb_particles s).

Lemma emit_render (ps : list Particle) (x y : Q) (c : Color) (n : Z) :
  particles_ok ps -> color_ok c -> Always (ParticleSystem_emit ps x y c n) particles_ok.
Proof.
  intros Hps Hc. unfold ParticleSystem_emit.
  apply (always_bind _ _ particles_ok).
  - apply always_repeatM. unfold Particle_init. always_run. exact Hc.
  - intros fresh Hf. apply always_ret. by apply Forall_app.
Qed.

(** A pass that emits particles of a constant colour and goes on. *)
Ltac emit_then k Hs :=
  eapply always_bind; [apply emit_render; [exact (proj2 Hs) | reflexivity] |];
  let ps := fresh "ps" in let Hps := fresh "Hps" in
  intros ps Hps; k; split; [exact (proj1 Hs) | exact Hps].

Lemma spawn_alien_render (ticks : Z) (s : SpaceBattle) :
  render_inv s -> Always (spawn_alien ticks s) render_inv.
Proof. intros Hs. unfold spawn_alien. case_match; always_run; exact Hs. Qed.

Lemma move_aliens_loop_scene (todo : list Alien) (s : SpaceBattle) :
  sb_stars (fst (move_aliens_loop todo s)) = sb_stars s /\
  sb_particles (fst (move_aliens_loop todo s)) = sb_particles s.
Proof.
  revert s. induction todo as [|a rest IH]; intros s; simpl; [done|].
  case_match; [exact (IH (lose_life s))|]. pose proof (IH s) as Hs.
  destruct (move_aliens_loop rest s). exact Hs.
Qed.

Lemma move_aliens_render (s : SpaceBattle) : render_inv s -> render_inv (move_aliens s).
Proof.
  unfold move_aliens, render_inv. pose proof (move_aliens_loop_scene (sb_aliens s) s) as Hsc.
  destruct (move_aliens_loop _ s) as [s' kept]. cbn in *. by destruct Hsc as [-> ->].
Qed.

Lemma alien_shoot_render (s : SpaceBattle) : render_inv s -> Always (alien_shoot s) render_inv.
Proof. intros Hs. unfold alien_shoot. apply always_bind_any. intros [aliens bs]. by apply always_ret. Qed.

Lemma update_alien_bullets_render (s : SpaceBattle) :
  render_inv s -> Always (update_alien_bullets s) render_inv.
Proof.
  intros Hs. unfold update_alien_bullets.
  apply (always_bind _ _ (fun r => render_inv (fst r))); [|intros [s' kept] Hs'; by apply always_ret].
  generalize (sb_alien_bullets s). intros todo. revert s Hs.
  induction todo as [|b rest IH]; intros s Hs; simpl; [by apply always_ret|].
  repeat case_match; try by apply IH.
  - emit_then ltac:(apply IH) Hs.
  - emit_then ltac:(apply IH) Hs.
  - eapply always_bind; [apply (IH s Hs)|]. intros [s' kept] Hs'. by apply always_ret.
Qed.

Lemma alien_destroyed_render (s : SpaceBattle) (a : Alien) :
  render_inv s -> Always (alien_destroyed s a) render_inv.
Proof.
  intros Hs. unfold alien_destroyed.
  destruct (al_type a =? 0); [|destruct (al_type a =? 1)]; emit_then always_run Hs.
Qed.

Lemma check_collisions_render (s : SpaceBattle) :
  render_inv s -> Always (check_collisions s) render_inv.
Proof.
  intros Hs. unfold check_collisions.
  apply (always_bind _ _ (fun r => render_inv (fst r))); [|intros [s' kept] Hs'; by apply always_ret].
  generalize (pl_bullets (sb_player s)). intros todo. revert s Hs.
  induction todo as [|b rest IH]; intros s Hs; simpl; [by apply always_ret|].
  destruct (first_hit b (sb_aliens s)) as [[[pre a] post]|].
  - eapply always_bind; [by apply alien_destroyed_render|]. intros s1 Hs1. by apply IH.
  - eapply always_bind; [apply (IH s Hs)|]. intros [s' kept] Hs'. by apply always_ret.
Qed.

Lemma update_powerups_render (s : SpaceBattle) :
  render_inv s -> Always (update_powerups s) render_inv.
Proof.
  intros Hs. unfold update_powerups.
  apply (always_bind _ _ (fun r => render_inv (fst r))); [|intros [s' kept] Hs'; by apply always_ret].
  generalize (sb_powerups s). intros todo. revert s Hs.
  induction todo as [|p rest IH]; intros s Hs; simpl; [by apply always_ret|].
  repeat case_match; try by apply IH.
  - emit_then ltac:(apply IH) Hs.
  - emit_then ltac:(apply IH) Hs.
  - eapply always_bind; [apply (IH s Hs)|]. intros [s' kept] Hs'. by apply always_ret.
Qed.

Lemma update_stars_render (s : SpaceBattle) :
  render_inv s -> Always (update_stars s) render_inv.
Proof.
  intros Hs. unfold update_stars.
  apply (always_bind _ _ (Forall star_ok)); [|intros stars Hst; apply always_ret; split; [exact Hst|apply Hs]].
  apply (always_mapM _ star_ok); [apply Hs|]. intros st Hst.
  unfold Star_update. case_match; always_run; exact Hst.
Qed.

Lemma update_logic_render (ticks : Z) (keys : Keys) (s : SpaceBattle) :
  render_inv s -> Always (update_logic ticks keys s) render_inv.
Proof.
  intros Hs. unfold update_logic.
  eapply always_bind; [by apply spawn_alien_render|]. intros s1 Hs1.
  eapply always_bind; [by apply alien_shoot_render, move_aliens_render|]. intros s5 Hs5.
  eapply always_bind; [by apply update_alien_bullets_render|]. intros s6 Hs6.
  eapply always_bind; [by apply check_collisions_render|]. intros s7 Hs7.
  eapply always_bind; [by apply update_powerups_render|]. intros s8 Hs8.
  apply update_stars_render. split; [apply Hs8|].
  eapply Forall_map_filter; [apply Hs8|]. intros p Hp _. exact Hp.
Qed.

Lemma handle_events_render (evs : list Event) (s s' : SpaceBattle) :
  render_inv s -> handle_events evs s = Some s' -> render_inv s'.
Proof.
  revert s. induction evs as [|e evs IH]; intros s Hs He; simpl in He.
  - by injection He as <-.
  - destruct e as [|[]|]; try done; (eapply IH; [|exact He]); repeat case_match; exact Hs.
Qed.

Context `{Fonts}.

Lemma frame_render_scene (ticks time : Z) (evs : list Event) (keys : Keys) (s : SpaceBattle) :
  render_inv s ->
  Always (frame_render ticks time evs keys s)
    (fun o => forall r, o = Some r -> exists s2, render_inv s2 /\ r = SpaceBattle_draw time s2).
Proof.
  intros Hs. unfold frame_render. destruct (handle_events evs s) as [s1|] eqn:E;
    [|by apply always_ret].
  apply (handle_events_render evs s s1 Hs) in E.
  apply always_bind with (P := render_inv).
  - case_match; [by apply update_logic_render | by apply always_ret].
  - intros s2 Hs2. apply always_ret. intros r [= <-]. by exists s2.
Qed.

(** The state [frame_render] leaves is the one [frame] computes. *)
Lemma frame_render_frame (ticks time : Z) (evs : list Event) (keys : Keys) (s : SpaceBattle)
    (g : G) :
  fst (frame ticks evs keys s g) = option_map fst (fst (frame_render ticks time evs keys s g)).
Proof. unfold frame, frame_render, bind. repeat case_match; reflexivity. Qed.

Context `{!PyRandomLaws G}.

Lemma SpaceBattle_init_render : Always SpaceBattle_init render_inv.
Proof.
  unfold SpaceBattle_init. apply (always_bind _ _ (Forall star_ok)).
  - apply always_repeatM. unfold Star_init. do 3 (apply always_bind_any; intros ?).
    eapply always_bind; [apply randint_range; lia|]. intros b Hb. always_run. unfold star_ok; cbn in *; lia.
  - intros stars Hst. apply always_ret. split; [exact Hst | constructor].
Qed.

Lemma reachable_render_inv (s : SpaceBattle) : reachable s -> render_inv s.
Proof.
  induction 1 as [g | s ticks evs keys g s' Hr IH Hf].
  - apply SpaceBattle_init_render.
  - rewrite (frame_render_frame ticks 0 evs keys s g) in Hf.
    pose proof (frame_render_scene ticks 0 evs keys s IH g) as Hsc.
    destruct (fst (frame_render ticks 0 evs keys s g)) as [[s2 ds]|]; [|discriminate].
    injection Hf as <-. destruct (Hsc _ eq_refl) as (s3 & Hs3 & Eq).
    unfold SpaceBattle_draw in Eq. destruct (Player_draw_cmds 0 (sb_player s3)).
    injection Eq as -> _. exact Hs3.
Qed.

End RenderInvariant.

(** ** Every call [draw] makes is well typed *)

Section DrawProofs.
Context `{Screen} `{Trig} `{Fonts}.

Lemma gradient_line_ok (y : Z) : 0 <= y < SCREEN_HEIGHT -> cmd_ok (gradient_line y) = true.
Proof.
  intros Hy. unfold gradient_line.
  pose proof (Qdiv_unit y SCREEN_HEIGHT) as Hq. specialize (Hq ltac:(lia) ltac:(lia)).
  assert (Hc : 10 <= py_int (10 + inject_Z y / inject_Z SCREEN_HEIGHT * 20) <= 30).
  { apply py_int_range. change (inject_Z 10) with 10%Q. change (inject_Z 30) with 30%Q.
    revert Hq. generalize (inject_Z y / inject_Z SCREEN_HEIGHT)%Q. intros q Hq. split; lra. }
  cbn [cmd_ok]. apply valid_color_rgb; lia.
Qed.

Lemma Star_draw_ok (st : Star) : star_ok st -> cmds_ok (Star_draw st) = true.
Proof. intros Hs. unfold Star_draw, cmds_ok. cbn [forallb cmd_ok]. by rewrite valid_color_rgb by apply Hs. Qed.

(** A live particle is drawn in full colour whatever its remaining
    lifetime: the [alpha] [Particle.draw] computes is never used, so the
    particles do not fade. *)
Lemma Particle_draw_no_fade (p : Particle) (life : Z) :
  0 < pt_lifetime p -> 0 < life ->
  Particle_draw (mkParticle (pt_x p) (pt_y p) (pt_color p) (pt_vx p) (pt_vy p) life (pt_size p)) =
  Particle_draw p.
Proof. intros Hp Hl. unfold Particle_draw. cbn [pt_lifetime]. by rewrite !(proj2 (Z.ltb_lt _ _)). Qed.

Lemma ParticleSystem_draw_ok (ps : list Particle) :
  particles_ok ps -> cmds_ok (ParticleSystem_draw ps) = true.
Proof.
  intros Hps. apply cmds_ok_flat_map. intros p Hp. apply (proj1 (List.Forall_forall _ _) Hps) in Hp.
  unfold Particle_draw. case_match; [|reflexivity]. cbn. by rewrite Hp.
Qed.

Lemma shield_alpha_range `{!TrigLaws} (time : Z) :
  50 <= py_int (100 + 50 * math_sin (inject_Z time / 100)) <= 150.
Proof.
  apply py_int_range. pose proof (sin_range (inject_Z time / 100)).
  change (inject_Z 50) with 50%Q. change (inject_Z 150) with 150%Q. split; lra.
Qed.

Lemma Player_draw_cmds_ok `{!TrigLaws} (time : Z) (p : Player) :
  cmds_ok (snd (Player_draw_cmds time p)) = true.
Proof.
  unfold Player_draw_cmds. cbn [snd].
  pose proof (Z.mod_pos_bound (pl_engine_glow p + 1) 20 ltac:(lia)) as Hg.
  rewrite cmds_ok_app. apply andb_true_intro. split.
  - cbn [cmds_ok forallb cmd_ok]. rewrite valid_color_rgb by (cbn; lia). reflexivity.
  - case_match; [|reflexivity]. pose proof (shield_alpha_range time).
    cbn [cmds_ok forallb cmd_ok]. unfold CYAN, BLUE.
    rewrite !valid_color_rgba by (Z.div_mod_to_equations; lia). reflexivity.
Qed.

Lemma create_alien_ok (t : Z) : cmds_ok (create_alien t) = true.
Proof. unfold create_alien. destruct (t =? 0); [|destruct (t =? 1)]; reflexivity. Qed.

Lemma PowerUp_create_image_ok (t : PowerUpType) : cmds_ok (PowerUp_create_image t) = true.
Proof. destruct t; cbn; [case_match|]; reflexivity. Qed.

Lemma SpaceBattle_hud_ok (s : SpaceBattle) : cmds_ok (SpaceBattle_hud s) = true.
Proof. unfold SpaceBattle_hud, draw_game_over. repeat case_match; reflexivity. Qed.

Lemma SpaceBattle_draw_ok `{!TrigLaws} (time : Z) (s : SpaceBattle) :
  render_inv s -> cmds_ok (snd (SpaceBattle_draw time s)) = true.
Proof.
  intros [Hst Hps]. pose proof (Player_draw_cmds_ok time (sb_player s)) as Hp.
  unfold SpaceBattle_draw. destruct (Player_draw_cmds time (sb_player s)) as [p' pc].
  cbn [snd] in *. rewrite !cmds_ok_app, Hp, SpaceBattle_hud_ok, ParticleSystem_draw_ok by done.
  rewrite !cmds_ok_map, cmds_ok_flat_map; try reflexivity; intros x Hx;
    first [ apply create_alien_ok | apply PowerUp_create_image_ok | reflexivity
          | apply gradient_line_ok, in_py_range, Hx
          | apply Star_draw_ok; exact (proj1 (List.Forall_forall _ _) Hst x Hx) ].
Qed.

Context {G : Type} `{PyRandom G}.

(** C14: Every call [SpaceBattle.draw] makes, in every frame [run] executes
    from a state it can reach, passes pygame's argument checks: each colour
    is three or four integers in [[0, 255]] (the stars' grey levels, the
    emitted particles' colours, the engine glow and the pulsing shield
    alpha included) and each polygon has at least three points. *)
Theorem frame_render_ok `{!TrigLaws} `{!PyRandomLaws G} (ticks time : Z) (evs : list Event)
    (keys : Keys) (s : SpaceBattle) :
  reachable s ->
  Always (frame_render ticks time evs keys s)
    (fun o => forall s' ds, o = Some (s', ds) -> cmds_ok ds = true).
Proof.
  intros Hr%reachable_render_inv.
  eapply always_mono; [exact (frame_render_scene ticks time evs keys s Hr)|].
  intros o Ho s' ds ->. destruct (Ho _ eq_refl) as (s2 & Hs2 & Eq).
  change ds with (snd (s', ds)). rewrite Eq. by apply SpaceBattle_draw_ok.
Qed.

End DrawProofs.

(** ** Witnesses *)

Section Witnesses.
#[local] Existing Instances default_screen trig_flat.

(** An installation where every font loads. *)
Definition fonts_all : Fonts := {| font_loads := fun _ => true |}.
#[local] Existing Instance fonts_all.

Lemma frame_render_ok_witness :
  Always (G := list Z) (frame_render 0 0 [] (mkKeys false false false false)
                          (fst (SpaceBattle_init (G := list Z) [])))
    (fun o => forall s' ds, o = Some (s', ds) -> cmds_ok ds = true).
Proof. apply frame_render_ok, reach_init. Defined.
End Witnesses.
