(* ===== verification/RBObjects.v ===== *)
(** RBObjects: the sprite classes of
    [src/arcade-flipper/src/games/RetroBird/objects.py], used by
    [src/apps/arcade/games/RetroBird/main.py].

    Module [RetroBird] holds the screen constants, the bird [Grumpy] (its
    [update] with gravity, the velocity cap and the flap on a fresh mouse
    press; [draw_flap], the bobbing of the title screen; [reset]), the
    scrolling floor [Base], the [Pipe] sprites and the update of a pipe
    group ([pygame.sprite.Group.update] with [kill]).  [objects.Score.update]
    is [pass] and has no model.  The mouse state that [Grumpy.update] reads
    with [pygame.mouse.get_pressed()] is an argument.

    The theorems: the bird's velocity stays in [[-6, 8]], a dead bird falls
    to the ground in a bounded number of frames, the title-screen bird bobs
    within a 21-pixel band, and the two floor tiles stay on the strip
    [(-WIDTH, WIDTH]]. *)

From S2P Require Import Prelude PyRandom Rect.

Module RetroBird.
Local Open Scope Z_scope.

(** [SCREEN = WIDTH, HEIGHT = 288, 512] and [display_height = 0.80 * HEIGHT]
    (the top of the floor, a float: 409.6). *)
Definition WIDTH : Z := 288.
Definition HEIGHT : Z := 512.
Definition display_height : Q := ((4 # 5) * inject_Z HEIGHT)%Q.

Definition Color : Type := (Z * Z * Z)%type.
Definition NEON_GREEN : Color := (0, 255, 0).
Definition NEON_BLUE : Color := (0, 255, 255).
Definition NEON_PINK : Color := (255, 0, 255).
Definition NEON_YELLOW : Color := (255, 255, 0).

Record Grumpy := mkGrumpy {
  g_color : Color; g_rect : Rect; g_counter : Z; g_vel : Q; g_jumped : bool;
  g_alive : bool; g_theta : Q; g_flap_pos : Z; g_flap_inc : Z }.

(** [Grumpy.reset]: everything but the colour. *)
Definition Grumpy_reset (g : Grumpy) : Grumpy :=
  mkGrumpy (g_color g) (mkRect 60 (py_int display_height / 2) 40 40) 0 0 false true 0 0 1.

Section Init.
Context {G : Type} `{PyRandom G}.

(** [Grumpy.__init__]: [random.choice(self.bird_colors)], then [reset()]. *)
Definition Grumpy_init : Rand G Grumpy :=
  c <- choice NEON_GREEN [NEON_PINK; NEON_YELLOW; NEON_BLUE];;
  ret (Grumpy_reset (mkGrumpy c (mkRect 0 0 40 40) 0 0 false true 0 0 1)).
End Init.

(** [counter += 1; if counter > 5: counter = 0] *)
Definition flap_counter (c : Z) : Z := if 5 <? c + 1 then 0 else c + 1.

(** [self.vel += 0.3; if self.vel >= 8: self.vel = 8] *)
Definition gravity (v : Q) : Q :=
  let v1 := (v + (3 # 10))%Q in if 8 <=q? v1 then 8%Q else v1.

(** [if self.rect.bottom <= display_height: self.rect.y += int(self.vel)],
    with the size reset to 40x40 that ends [update]. *)
Definition fall (r : Rect) (vel : Q) : Rect :=
  mkRect (rx r)
    (if inject_Z (Rect.bottom r) <=q? display_height then ry r + py_int vel else ry r) 40 40.

(** [Grumpy.update]; [mouse] is [pygame.mouse.get_pressed()[0] == 1]. *)
Definition Grumpy_update (mouse : bool) (g : Grumpy) : Grumpy :=
  let vel := gravity (g_vel g) in
  let r' := fall (g_rect g) vel in
  if g_alive g then
    let '(jumped, vel') := if mouse && negb (g_jumped g) then (true, (-6)%Q)
                           else (g_jumped g, vel) in
    let jumped' := if negb mouse then false else jumped in
    mkGrumpy (g_color g) r' (flap_counter (g_counter g)) vel' jumped' true (g_theta g)
      (g_flap_pos g) (g_flap_inc g)
  else
    mkGrumpy (g_color g) r' (g_counter g) vel (g_jumped g) false (g_theta g)
      (g_flap_pos g) (g_flap_inc g).

(** [Grumpy.draw_flap]: the floating animation of the start screen. *)
Definition Grumpy_draw_flap (g : Grumpy) : Grumpy :=
  let inc := if (g_flap_pos g <=? -10) || (10 <? g_flap_pos g) then - g_flap_inc g
             else g_flap_inc g in
  let r := g_rect g in
  mkGrumpy (g_color g) (mkRect (WIDTH / 2 - 20) (ry r + inc) (rw r) (rh r))
    (flap_counter (g_counter g)) (g_vel g) (g_jumped g) (g_alive g) (g_theta g)
    (g_flap_pos g + inc) inc.

Record Base := mkBase { base_color : Color; base_x1 : Z; base_x2 : Z; base_y : Z }.

Definition Base_init (color : Color) : Base := mkBase color 0 WIDTH (py_int display_height).

(** The wrap-around of one floor tile. *)
Definition base_wrap (x : Z) : Z := if x <=? - WIDTH then WIDTH - 5 else x.

(** [Base.update(speed)] without the drawing. *)
Definition Base_update (speed : Z) (b : Base) : Base :=
  mkBase (base_color b) (base_wrap (base_x1 b - speed)) (base_wrap (base_x2 b - speed))
    (base_y b).

(** [position] of [Pipe.__init__]: [1] for a top pipe, [-1] for a bottom
    one. *)
Inductive PipePosition := PipeTop | PipeBottom.

Record Pipe := mkPipe { pipe_color : Color; pipe_rect : Rect; pipe_is_top : bool }.

(** [Pipe.__init__]: 52x320 at the right edge, [pipe_gap = 100 // 2] above
    or below the gap centre [y]. *)
Definition Pipe_init (y : Z) (position : PipePosition) (color : Color) : Pipe :=
  match position with
  | PipeTop => mkPipe color (mkRect WIDTH (y - 50 - 320) 52 320) true
  | PipeBottom => mkPipe color (mkRect WIDTH (y + 50) 52 320) false
  end.

Definition Pipe_move (speed : Z) (p : Pipe) : Pipe :=
  let r := pipe_rect p in
  mkPipe (pipe_color p) (Rect.set_x r (rx r - speed)) (pipe_is_top p).

(** [pipe_group.update(speed)]: every pipe moves, and [kill()]s itself once
    its right edge has left the screen; the group keeps its order. *)
Definition pipe_group_update (speed : Z) (ps : list Pipe) : list Pipe :=
  List.filter (fun p => negb (Rect.right (pipe_rect p) <? 0)) (map (Pipe_move speed) ps).

(** ** The bird's physics *)

(** The floor test [rect.bottom <= display_height] on integer coordinates. *)
Lemma display_height_le (z : Z) : (inject_Z z <=q? display_height) = (z <=? 409).
Proof.
  destruct (inject_Z z <=q? display_height) eqn:E; symmetry;
    [apply Qleb_spec in E; apply Z.leb_le | apply Qleb_false in E; apply Z.leb_gt];
    unfold display_height, HEIGHT, Qle, Qlt in E; simpl in E; lia.
Qed.

Lemma gravity_cases (v : Q) :
  (gravity v = 8 /\ 8 <= v + (3 # 10) \/ gravity v = v + (3 # 10) /\ v + (3 # 10) < 8)%Q.
Proof. unfold gravity; cbv zeta. qcase; [left | right]; done. Qed.

Lemma gravity_bounds (v : Q) : (-6 <= v <= 8)%Q -> (-6 <= gravity v <= 8)%Q.
Proof. intros Hv. destruct (gravity_cases v) as [[-> ?] | [-> ?]]; lra. Qed.

Lemma gravity_ge (v c : Q) : (c <= 8)%Q -> (c <= v)%Q -> (c <= gravity v)%Q.
Proof. intros Hc Hv. destruct (gravity_cases v) as [[-> ?] | [-> ?]]; lra. Qed.

Lemma fall_bottom (r : Rect) (v : Q) : Rect.bottom (fall r v) = ry (fall r v) + 40.
Proof. reflexivity. Qed.

Lemma fall_y (r : Rect) (v : Q) :
  ry (fall r v) = if Rect.bottom r <=? 409 then ry r + py_int v else ry r.
Proof. unfold fall; simpl. by rewrite display_height_le. Qed.

(** The bird's rectangle is 40x40 and its velocity within [[-6, 8]]: [-6] is
    the flap, [8] the cap of [update]. *)
Definition Grumpy_wf (g : Grumpy) : Prop :=
  rw (g_rect g) = 40 /\ rh (g_rect g) = 40 /\ (-6 <= g_vel g <= 8)%Q.

Lemma Grumpy_update_dead (m : bool) (g : Grumpy) : g_alive g = false ->
  Grumpy_update m g =
  mkGrumpy (g_color g) (fall (g_rect g) (gravity (g_vel g))) (g_counter g)
    (gravity (g_vel g)) (g_jumped g) false (g_theta g) (g_flap_pos g) (g_flap_inc g).
Proof. intros H. unfold Grumpy_update. by rewrite H. Qed.

Lemma Grumpy_update_alive (m : bool) (g : Grumpy) :
  g_alive (Grumpy_update m g) = g_alive g.
Proof.
  unfold Grumpy_update. destruct (g_alive g); [|done].
  by destruct (m && negb (g_jumped g)).
Qed.

Lemma Grumpy_update_rect (m : bool) (g : Grumpy) :
  g_rect (Grumpy_update m g) = fall (g_rect g) (gravity (g_vel g)).
Proof.
  unfold Grumpy_update. destruct (g_alive g); [|done].
  by destruct (m && negb (g_jumped g)).
Qed.

(** The bird's velocity stays within [[-6, 8]] and its rectangle 40x40
    through [Grumpy.update], whatever the mouse does. *)
Theorem Grumpy_update_wf (m : bool) (g : Grumpy) :
  Grumpy_wf g -> Grumpy_wf (Grumpy_update m g).
Proof.
  intros (_ & _ & Hv). pose proof (gravity_bounds (g_vel g) Hv).
  unfold Grumpy_update, Grumpy_wf.
  destruct (g_alive g); [destruct (m && negb (g_jumped g))|]; cbn -[gravity];
    repeat split; lra.
Qed.

Lemma fall_y_lower (r : Rect) (v : Q) : (-6 <= v)%Q -> (ry r - 6 <= ry (fall r v))%Z.
Proof.
  intros Hv. rewrite fall_y. destruct (Rect.bottom r <=? 409); [|lia].
  pose proof (py_int_lower v (-6) Hv). lia.
Qed.

Lemma fall_y_progress (r : Rect) (v : Q) : (1 <= v)%Q -> (Rect.bottom r <= 409)%Z ->
  (ry r + 1 <= ry (fall r v))%Z.
Proof.
  intros Hv Hb. rewrite fall_y. apply Z.leb_le in Hb as ->.
  pose proof (py_int_lower v 1 Hv). lia.
Qed.

Lemma fall_grounded (r : Rect) (v : Q) : (410 <= Rect.bottom r)%Z -> ry (fall r v) = ry r.
Proof. intros Hb. rewrite fall_y. destruct (Z.leb_spec (Rect.bottom r) 409); lia. Qed.

(** A dead bird ignores the mouse: a run of frames is [n] plain updates. *)
Lemma fold_update_dead (ms : list bool) (g : Grumpy) : g_alive g = false ->
  fold_left (fun h m => Grumpy_update m h) ms g =
  Nat.iter (length ms) (Grumpy_update false) g.
Proof.
  revert g. induction ms as [|m ms IH]; intros g Hg; [done|].
  cbn [fold_left length]. rewrite Nat.iter_succ_r, <- IH.
  - by rewrite !Grumpy_update_dead.
  - by rewrite Grumpy_update_alive.
Qed.

(** While it falls, a dead bird gains 0.3 of speed per frame up to the cap,
    and rises by at most 6 pixels per frame. *)
Lemma dead_fall_accel (k : nat) (g : Grumpy) :
  g_alive g = false -> Grumpy_wf g ->
  let h := Nat.iter k (Grumpy_update false) g in
  g_alive h = false /\ Grumpy_wf h /\
  (g_vel h = 8 \/ g_vel g + (3 # 10) * inject_Z (Z.of_nat k) <= g_vel h)%Q /\
  (ry (g_rect g) - 6 * Z.of_nat k <= ry (g_rect h))%Z.
Proof.
  intros Ha Hw. cbv zeta. induction k as [|k (Ha' & Hw' & Hv & Hy)].
  { cbn [Nat.iter nat_rect]. split; [done|]. split; [done|].
    split; [right; change (inject_Z (Z.of_nat 0)) with 0%Q; lra | lia]. }
  rewrite Nat.iter_succ. set (h := Nat.iter k (Grumpy_update false) g) in *.
  rewrite Grumpy_update_alive. split; [done|]. split; [by apply Grumpy_update_wf|].
  rewrite Grumpy_update_dead by done. cbn [g_vel g_rect].
  destruct Hw' as (_ & _ & Hb). pose proof (gravity_cases (g_vel h)) as Hg.
  split.
  - rewrite Nat2Z.inj_succ, <- Z.add_1_r, inject_Z_plus. change (inject_Z 1) with 1%Q.
    remember (inject_Z (Z.of_nat k)) as q eqn:Eq; clear Eq.
    destruct Hg as [[-> ?] | [-> ?]]; [by left | right]. destruct Hv as [Hv | Hv]; [rewrite Hv in *|]; lra.
  - pose proof (fall_y_lower (g_rect h) (gravity (g_vel h))
                 ltac:(apply gravity_bounds; lra)). lia.
Qed.

(** Once it comes down by at least a pixel a frame, a dead bird covers the
    distance to the floor, one pixel a frame at least. *)
Lemma dead_fall_land (k : nat) (g : Grumpy) :
  g_alive g = false -> Grumpy_wf g -> (1 <= g_vel g)%Q ->
  (410 - Rect.bottom (g_rect g) <= Z.of_nat k)%Z ->
  (410 <= Rect.bottom (g_rect (Nat.iter k (Grumpy_update false) g)))%Z.
Proof.
  revert g. induction k as [|k IH]; intros g Ha Hw Hv Hk; [cbn [Nat.iter nat_rect]; lia|].
  rewrite Nat.iter_succ_r. pose proof (Grumpy_update_wf false g Hw) as Hw'.
  destruct Hw as (_ & Hh & Hb). apply IH; [by rewrite Grumpy_update_alive | done | |];
    rewrite Grumpy_update_dead by done; cbn [g_vel g_rect].
  - apply gravity_ge; lra.
  - rewrite fall_bottom. unfold Rect.bottom in *.
    destruct (Z.le_gt_cases (ry (g_rect g) + rh (g_rect g)) 409) as [Hl | Hl].
    + pose proof (fall_y_progress (g_rect g) (gravity (g_vel g))
                    ltac:(apply gravity_ge; lra) Hl). lia.
    + rewrite fall_grounded; [lia | unfold Rect.bottom; lia].
Qed.

(** C35: A dead bird reaches the floor.  From a well-formed state at most 200
    pixels above the screen, after any 800 frames of [Grumpy.update],
    whatever the mouse does, the bird's bottom is on or below the floor
    ([rect.bottom >= display_height], the test that ends the game). *)
Theorem dead_bird_lands (g : Grumpy) (ms : list bool) :
  g_alive g = false -> Grumpy_wf g -> (-200 <= ry (g_rect g))%Z -> (800 <= length ms)%nat ->
  (410 <= Rect.bottom (g_rect (fold_left (fun h m => Grumpy_update m h) ms g)))%Z.
Proof.
  intros Ha Hw Hy Hn. rewrite fold_update_dead by done.
  replace (length ms) with ((length ms - 24) + 24)%nat by lia. rewrite Nat.iter_add.
  destruct (dead_fall_accel 24 g Ha Hw) as (Ha' & Hw' & Hv & Hy').
  pose proof Hw as (_ & _ & Hv0). pose proof Hw' as (_ & Hh & _).
  apply dead_fall_land; [done.. | |].
  - change (inject_Z (Z.of_nat 24)) with (24 # 1)%Q in Hv.
    destruct Hv as [Hv | Hv]; [rewrite Hv|]; lra.
  - unfold Rect.bottom. lia.
Qed.

(** A dead bird at the top of the screen, about to fall. *)
Definition falling_bird : Grumpy :=
  mkGrumpy NEON_GREEN (mkRect 124 0 40 40) 0 (-6) false false 0 0 1.

Lemma dead_bird_lands_witness :
  (410 <= Rect.bottom (g_rect (fold_left (fun h m => Grumpy_update m h)
                                 (repeat true 800) falling_bird)))%Z.
Proof.
  apply dead_bird_lands; [reflexivity | | decide_concrete | decide_concrete].
  unfold Grumpy_wf; cbn. split; [done|]. split; [done|]. split; apply Qle_bool_iff; reflexivity.
Defined.

(** ** The start screen's bobbing *)

(** [flap_inc] is [1] or [-1] and [flap_pos] within the turning points: the
    direction flips once [flap_pos] passes [10] or reaches [-10]. *)
Definition flap_ok (g : Grumpy) : Prop :=
  g_flap_inc g = 1 /\ -9 <= g_flap_pos g <= 11 \/
  g_flap_inc g = -1 /\ -10 <= g_flap_pos g <= 10.

(** [draw_flap] keeps [flap_ok] and moves the bird with [flap_pos]. *)
Lemma draw_flap_step (g : Grumpy) : flap_ok g ->
  flap_ok (Grumpy_draw_flap g) /\
  ry (g_rect (Grumpy_draw_flap g)) - g_flap_pos (Grumpy_draw_flap g) =
  ry (g_rect g) - g_flap_pos g.
Proof.
  unfold flap_ok, Grumpy_draw_flap; cbn [g_flap_inc g_flap_pos g_rect ry].
  intros [[-> ?] | [-> ?]]; zcase; cbn; lia.
Qed.

Lemma draw_flap_iter (n : nat) (g : Grumpy) : flap_ok g ->
  flap_ok (Nat.iter n Grumpy_draw_flap g) /\
  ry (g_rect (Nat.iter n Grumpy_draw_flap g)) - g_flap_pos (Nat.iter n Grumpy_draw_flap g) =
  ry (g_rect g) - g_flap_pos g.
Proof.
  intros Hg. induction n as [|n [Hok Heq]]; [done|].
  rewrite Nat.iter_succ. destruct (draw_flap_step _ Hok) as [? ->]. done.
Qed.

(** On the start screen a freshly reset bird bobs between [y = 194] and
    [y = 215], however many frames of [draw_flap] run. *)
Theorem title_bird_band (n : nat) (g : Grumpy) :
  (194 <= ry (g_rect (Nat.iter n Grumpy_draw_flap (Grumpy_reset g))) <= 215)%Z.
Proof.
  destruct (draw_flap_iter n (Grumpy_reset g)) as [Hok Heq]; [left; cbn; lia|].
  change (ry (g_rect (Grumpy_reset g)) - g_flap_pos (Grumpy_reset g)) with 204 in Heq.
  unfold flap_ok in Hok. lia.
Qed.

(** ** The floor *)

(** Both floor tiles start within [(-WIDTH, WIDTH]]. *)
Definition base_ok (b : Base) : Prop :=
  - WIDTH < base_x1 b <= WIDTH /\ - WIDTH < base_x2 b <= WIDTH.

Lemma base_wrap_ok (x s : Z) : - WIDTH < x <= WIDTH -> 0 <= s ->
  - WIDTH < base_wrap (x - s) <= WIDTH.
Proof. unfold base_wrap, WIDTH. intros. zcase; lia. Qed.

Lemma Base_init_ok (c : Color) : base_ok (Base_init c).
Proof. cbv; split; split; done. Qed.

Lemma Base_update_ok (speed : Z) (b : Base) : 0 <= speed -> base_ok b ->
  base_ok (Base_update speed b).
Proof. intros Hs [H1 H2]. split; apply base_wrap_ok; done. Qed.

(** ** How high a bird can get *)

(** The height a bird moving at [v] can still climb, negated: the bird
    moves by [int(v)] and gains 0.3 a frame, [5/3 v^2] in all while [v < 0]. *)
Definition fall_potential (v : Q) : Q := if 0 <q? v then 0%Q else (- (5 # 3) * v * v)%Q.

(** The bird's top plus what it can still climb stays above [-66]. *)
Definition bird_low (g : Grumpy) : Prop :=
  (-66 <= inject_Z (ry (g_rect g)) + fall_potential (g_vel g))%Q.

Lemma fall_potential_range (v : Q) : (-6 <= v)%Q -> (-60 <= fall_potential v <= 0)%Q.
Proof. unfold fall_potential. qcase; split; nra. Qed.

Lemma fall_potential_mono (a b : Q) : (a <= b)%Q -> (fall_potential a <= fall_potential b)%Q.
Proof. unfold fall_potential. qcase; nra. Qed.

(** One frame of a moving bird does not raise it above what [fall_potential]
    allowed. *)
Lemma fall_potential_step (v : Q) : (-6 <= v <= 8)%Q ->
  (fall_potential v <= inject_Z (py_int (gravity v)) + fall_potential (gravity v))%Q.
Proof.
  intros Hv. destruct (gravity_cases v) as [[-> ?] | [-> Hw]].
  - change (inject_Z (py_int 8) + fall_potential 8)%Q with (8 + 0)%Q.
    pose proof (fall_potential_range v (proj1 Hv)). lra.
  - set (w := (v + (3 # 10))%Q) in *. unfold fall_potential.
    destruct (0 <q? w) eqn:Ew; [apply Qltb_spec in Ew | apply Qltb_false in Ew].
    + pose proof (py_int_nonneg w ltac:(lra)) as Hn. rewrite Zle_Qle in Hn.
      change (inject_Z 0) with 0%Q in Hn. qcase; nra.
    + pose proof (py_int_nonpos w Ew) as Hn. remember (inject_Z (py_int w)) as n eqn:En.
      clear En. unfold w in *. qcase; nra.
Qed.

(** An alive bird below the ceiling, or a falling dead one, stays within
    [bird_low] through [Grumpy.update]. *)
Lemma Grumpy_update_low (m : bool) (g : Grumpy) : Grumpy_wf g -> bird_low g ->
  (g_alive g = true -> 0 < ry (g_rect g)) -> bird_low (Grumpy_update m g).
Proof.
  intros Hw Hl Hy. pose proof (Grumpy_update_wf m g Hw) as (_ & _ & Hv').
  pose proof (fall_potential_range _ (proj1 Hv')) as HP'.
  destruct Hw as (_ & _ & Hv). pose proof (gravity_bounds _ Hv) as Hg.
  destruct (g_alive g) eqn:Ea.
  - pose proof (fall_y_lower (g_rect g) (gravity (g_vel g)) (proj1 Hg)) as Hf.
    specialize (Hy eq_refl). unfold bird_low.
    assert (Hr : (-5 <= ry (g_rect (Grumpy_update m g)))%Z) by (rewrite Grumpy_update_rect; lia).
    rewrite Zle_Qle in Hr. change (inject_Z (-5)) with (-5 # 1)%Q in Hr. lra.
  - unfold bird_low in *. rewrite Grumpy_update_dead by done. cbn [g_rect g_vel].
    pose proof (fall_potential_step _ Hv) as Hs.
    pose proof (fall_potential_mono _ _ (gravity_ge (g_vel g) (g_vel g) (proj2 Hv) (Qle_refl _))).
    rewrite fall_y. destruct (Rect.bottom (g_rect g) <=? 409); [|lra].
    rewrite inject_Z_plus. lra.
Qed.

(** A bird at most 6 pixels above the screen is within [bird_low]. *)
Lemma bird_low_high (g : Grumpy) : Grumpy_wf g -> (-6 <= ry (g_rect g))%Z -> bird_low g.
Proof.
  intros (_ & _ & Hv) Hy. pose proof (fall_potential_range _ (proj1 Hv)).
  rewrite Zle_Qle in Hy. change (inject_Z (-6)) with (-6 # 1)%Q in Hy.
  unfold bird_low. lra.
Qed.

(** A bird within [bird_low] is at most 66 pixels above the screen. *)
Lemma bird_low_top (g : Grumpy) : Grumpy_wf g -> bird_low g -> (-66 <= ry (g_rect g))%Z.
Proof.
  intros (_ & _ & Hv) Hl. pose proof (fall_potential_range _ (proj1 Hv)).
  unfold bird_low in Hl. assert (Hq : (inject_Z (-66) <= inject_Z (ry (g_rect g)))%Q).
  { change (inject_Z (-66)) with (-66 # 1)%Q. lra. }
  by rewrite <- Zle_Qle in Hq.
Qed.

(** ** Facts the game loop uses *)

(** The test [grumpy.rect.bottom >= display_height] on integer coordinates. *)
Lemma display_height_ge (z : Z) : (display_height <=q? inject_Z z) = (410 <=? z).
Proof.
  destruct (display_height <=q? inject_Z z) eqn:E; symmetry;
    [apply Qleb_spec in E; apply Z.leb_le | apply Qleb_false in E; apply Z.leb_gt];
    unfold display_height, HEIGHT, Qle, Qlt in E; simpl in E; lia.
Qed.

Lemma Grumpy_update_flap_ok (m : bool) (g : Grumpy) : flap_ok g -> flap_ok (Grumpy_update m g).
Proof.
  unfold Grumpy_update. destruct (g_alive g); [destruct (m && negb (g_jumped g))|]; done.
Qed.

Lemma draw_flap_wf (g : Grumpy) : Grumpy_wf g -> Grumpy_wf (Grumpy_draw_flap g).
Proof. done. Qed.

(** A new bird: alive, still, 40x40 at [y = 204], at the start of its
    bobbing. *)
Definition fresh_bird (g : Grumpy) : Prop :=
  Grumpy_wf g /\ flap_ok g /\ g_alive g = true /\ ry (g_rect g) = 204 /\ g_flap_pos g = 0.

Section FreshBird.
Context {G : Type} `{PyRandom G}.

Lemma Grumpy_init_fresh : Always Grumpy_init fresh_bird.
Proof.
  unfold Grumpy_init. always_run. unfold fresh_bird, Grumpy_wf, flap_ok; cbn.
  repeat split; try lia; discriminate.
Qed.
End FreshBird.

(** [theta], the tilt set when the bird dies, plays no part in its motion. *)
Definition set_theta (g : Grumpy) (t : Q) : Grumpy :=
  mkGrumpy (g_color g) (g_rect g) (g_counter g) (g_vel g) (g_jumped g) (g_alive g) t
    (g_flap_pos g) (g_flap_inc g).

Lemma Grumpy_update_theta (m : bool) (g : Grumpy) (t : Q) :
  Grumpy_update m (set_theta g t) = set_theta (Grumpy_update m g) t.
Proof.
  unfold Grumpy_update, set_theta; cbn. destruct (g_alive g); [|done].
  by destruct (m && negb (g_jumped g)).
Qed.

Lemma fold_update_theta (ms : list bool) (g : Grumpy) (t : Q) :
  g_rect (fold_left (fun h m => Grumpy_update m h) ms (set_theta g t)) =
  g_rect (fold_left (fun h m => Grumpy_update m h) ms g).
Proof.
  revert g. induction ms as [|m ms IH]; intros g; [done|].
  cbn [fold_left]. by rewrite Grumpy_update_theta, IH.
Qed.
End RetroBird.
