(* ===== verification/RBGame.v ===== *)
(** RBGame: the game loop of [src/apps/arcade/games/RetroBird/main.py].

    The module's globals ([pipe_group], [base], [grumpy], [speed],
    [game_started], [game_over], [score], [start_screen], [pipe_pass],
    [last_pipe], [particles], [current_pipe_color], [running]) are the record
    [RBGame]; one iteration of [while running:] is [rb_frame], which reads
    the two clock readings ([pygame.time.get_ticks()] at the pipe timer and
    in the event loop), the mouse button seen by [grumpy.update()] and the
    event queue from a [FrameInput], and draws from the generator in the
    order of the source.  The drawing is in [RBRender]; it changes no state,
    except for the 200 draws [draw_retro_background] takes from [random]
    before the game starts, which [RB_init] makes.

    The theorems: the invariant of every reachable state (bird, floor,
    speed, pipes in top/bottom pairs with a 100-pixel gap, particle
    lifetimes), that a dead bird always ends the round, what a click does on
    the start and game-over screens, that the quit events stop the loop, and
    two behaviours of the code: a bird that falls on the floor stays
    "alive", so the game-over box is never drawn, and a dead bird still
    scores. *)

From S2P Require Import Prelude PyRandom Rect RBObjects.

Module RetroBirdGame.
Import RetroBird.
Local Open Scope Z_scope.

Definition RED : Color := (255, 0, 0).
Definition WHITE : Color := (255, 255, 255).

(** [pipe_colors], also [Grumpy.bird_colors]. *)
Definition pipe_colors : list Color := [NEON_GREEN; NEON_PINK; NEON_YELLOW; NEON_BLUE].

(** [pipe_frequency] *)
Definition pipe_frequency : Z := 1600.

(** A particle, the dict [{'x', 'y', 'vx', 'vy', 'life', 'color'}]. *)
Record RBParticle := mkRBParticle {
  bp_x : Q; bp_y : Q; bp_vx : Q; bp_vy : Q; bp_life : Z; bp_color : Color }.

Record RBGame := mkRBGame {
  rb_pipes : list Pipe;          (** [pipe_group], oldest first *)
  rb_base : Base;
  rb_grumpy : Grumpy;
  rb_speed : Z;
  rb_game_started : bool;
  rb_game_over : bool;
  rb_score : Z;
  rb_start_screen : bool;
  rb_pipe_pass : bool;
  rb_last_pipe : Z;
  rb_particles : list RBParticle;
  rb_pipe_color : Color;
  rb_running : bool }.

Inductive RBKey := K_ESCAPE | K_q | K_other.
Inductive RBEvent := QUIT | KEYDOWN (k : RBKey) | MOUSEBUTTONDOWN | OtherEvent.

(** What one iteration of the loop reads from pygame. *)
Record FrameInput := mkFrameInput {
  fi_ticks : Z;             (** [get_ticks()] at the pipe timer *)
  fi_mouse : bool;          (** [mouse.get_pressed()[0] == 1] in [grumpy.update()] *)
  fi_events : list RBEvent; (** [pygame.event.get()] *)
  fi_event_ticks : Z }.     (** [get_ticks()] in the event loop *)

(** [range(-100, 100, 4)] *)
Definition pipe_pos_range : list Z := map (fun i : nat => -100 + 4 * Z.of_nat i) (seq 0 50).

(** [display_height // 2] on a float: [floor(409.6 / 2) = 204]. *)
Definition gap_center : Z := Qfloor (display_height / inject_Z 2).

(** The particle update of [update_particles]: move, fall, age. *)
Definition particle_step (p : RBParticle) : RBParticle :=
  mkRBParticle (bp_x p + bp_vx p) (bp_y p + bp_vy p) (bp_vx p) (bp_vy p + (3 # 10))
    (bp_life p - 1) (bp_color p).

(** [update_particles]: every particle is updated and removed once its life
    is over.  [particles.remove(particle)] removes the first element equal to
    the current one; the survivors before it all have [life > 0], so that is
    the current particle itself. *)
Definition update_particles (ps : list RBParticle) : list RBParticle :=
  List.filter (fun p => 0 <? bp_life p) (map particle_step ps).

Section Loop.
Context {G : Type} `{PyRandom G}.

(** [create_particles(x, y, color)]: ten particles appended to [particles]. *)
Definition create_particles (x y : Q) (color : Color) (ps : list RBParticle)
    : Rand G (list RBParticle) :=
  news <- repeatM 10 (vx <- uniform (-3) 3;; vy <- uniform (-5) 0;;
                      ret (mkRBParticle x y vx vy 30 color));;
  ret (ps ++ news).

(** The 50 stars of [draw_retro_background]: four draws each, giving the
    position, the size and the colour of the star. *)
Definition draw_retro_background : Rand G (list (Z * Z * Z * Color)) :=
  repeatM 50 (x <- randint 0 WIDTH;; y <- randint 0 HEIGHT;; size <- randint 1 3;;
              color <- choice WHITE [NEON_BLUE; NEON_PINK];; ret (x, y, size, color)).

(** The module's set-up, lines 65-152: background, [current_pipe_color],
    [Base], [Grumpy], then the variables. *)
Definition RB_init : Rand G RBGame :=
  _ <- draw_retro_background;;
  c <- choice NEON_GREEN [NEON_PINK; NEON_YELLOW; NEON_BLUE];;
  g <- Grumpy_init;;
  ret (mkRBGame [] (Base_init c) g 0 false false 0 true false 0 [] c true).

(** Lines 201-205: the pair of pipes around [height] joins the group. *)
Definition add_pipes (s : RBGame) (height now : Z) : RBGame :=
  let c := rb_pipe_color s in
  mkRBGame (rb_pipes s ++ [Pipe_init height PipeTop c; Pipe_init height PipeBottom c])
    (rb_base s) (rb_grumpy s) (rb_speed s) (rb_game_started s) (rb_game_over s)
    (rb_score s) (rb_start_screen s) (rb_pipe_pass s) now (rb_particles s)
    (rb_pipe_color s) (rb_running s).

(** Lines 194-205: a top and a bottom pipe around a random gap every
    [pipe_frequency] milliseconds of play. *)
Definition spawn_pipes (now : Z) (s : RBGame) : Rand G RBGame :=
  if rb_game_started s && negb (rb_game_over s) && (pipe_frequency <=? now - rb_last_pipe s)
  then
    pipe_pos <- choice (hd 0 pipe_pos_range) (tl pipe_pos_range);;
    ret (add_pipes s (gap_center + pipe_pos) now)
  else ret s.

Definition with_grumpy (s : RBGame) (g : Grumpy) (started : bool) (ps : list RBParticle)
    : RBGame :=
  mkRBGame (rb_pipes s) (rb_base s) g (rb_speed s) started (rb_game_over s) (rb_score s)
    (rb_start_screen s) (rb_pipe_pass s) (rb_last_pipe s) ps (rb_pipe_color s) (rb_running s).

(** [pygame.sprite.spritecollide(grumpy, pipe_group, False)] is non-empty. *)
Definition hits_pipe (g : Grumpy) (ps : list Pipe) : bool :=
  existsb (fun p => Rect.colliderect (g_rect g) (pipe_rect p)) ps.

(** [grumpy.alive = False; grumpy.theta = grumpy.vel * -2] *)
Definition kill_bird (g : Grumpy) : Grumpy :=
  mkGrumpy (g_color g) (g_rect g) (g_counter g) (g_vel g) (g_jumped g) false
    (g_vel g * (-2)) (g_flap_pos g) (g_flap_inc g).

(** Lines 211-217: a crash into a pipe or the ceiling kills the bird. *)
Definition crash_step (s : RBGame) : Rand G RBGame :=
  let g := rb_grumpy s in
  if hits_pipe g (rb_pipes s) || (Rect.top (g_rect g) <=? 0) then
    ps <- (if g_alive g
           then create_particles (inject_Z (Rect.centerx (g_rect g)))
                  (inject_Z (Rect.centery (g_rect g))) RED (rb_particles s)
           else ret (rb_particles s));;
    ret (with_grumpy s (kill_bird g) false ps)
  else ret s.

(** Lines 219-221: the bird on the floor ends the round. *)
Definition ground_step (s : RBGame) : RBGame :=
  if display_height <=q? inject_Z (Rect.bottom (g_rect (rb_grumpy s))) then
    mkRBGame (rb_pipes s) (rb_base s) (rb_grumpy s) 0 (rb_game_started s) true (rb_score s)
      (rb_start_screen s) (rb_pipe_pass s) (rb_last_pipe s) (rb_particles s)
      (rb_pipe_color s) (rb_running s)
  else s.

Definition with_particles (s : RBGame) (ps : list RBParticle) : RBGame :=
  mkRBGame (rb_pipes s) (rb_base s) (rb_grumpy s) (rb_speed s) (rb_game_started s)
    (rb_game_over s) (rb_score s) (rb_start_screen s) (rb_pipe_pass s) (rb_last_pipe s) ps
    (rb_pipe_color s) (rb_running s).

Definition with_score (s : RBGame) (pass : bool) (score : Z) (ps : list RBParticle) : RBGame :=
  mkRBGame (rb_pipes s) (rb_base s) (rb_grumpy s) (rb_speed s) (rb_game_started s)
    (rb_game_over s) score (rb_start_screen s) pass (rb_last_pipe s) ps (rb_pipe_color s)
    (rb_running s).

(** Lines 223-233: the bird entering the gap of the oldest pipe arms
    [pipe_pass]; leaving it scores. *)
Definition score_step (s : RBGame) : Rand G RBGame :=
  match rb_pipes s with
  | [] => ret s
  | p :: _ =>
      let g := g_rect (rb_grumpy s) in
      let pr := pipe_rect p in
      let pass := if (Rect.left pr <? Rect.left g) && (Rect.right g <? Rect.right pr) &&
                     negb (rb_pipe_pass s) && g_alive (rb_grumpy s)
                  then true else rb_pipe_pass s in
      if pass && (Rect.right pr <? Rect.left g) then
        ps <- create_particles (inject_Z (WIDTH / 2)) 60 NEON_YELLOW (rb_particles s);;
        ret (with_score s false (rb_score s + 1) ps)
      else ret (with_score s pass (rb_score s) (rb_particles s))
  end.

(** Lines 207-209: the pipes, the floor and the bird move. *)
Definition move_step (mouse : bool) (s : RBGame) : RBGame :=
  mkRBGame (pipe_group_update (rb_speed s) (rb_pipes s)) (Base_update (rb_speed s) (rb_base s))
    (Grumpy_update mouse (rb_grumpy s)) (rb_speed s) (rb_game_started s) (rb_game_over s)
    (rb_score s) (rb_start_screen s) (rb_pipe_pass s) (rb_last_pipe s) (rb_particles s)
    (rb_pipe_color s) (rb_running s).

(** Lines 194-233: a frame of play (also run after the round is over). *)
Definition play_step (now : Z) (mouse : bool) (s : RBGame) : Rand G RBGame :=
  s1 <- spawn_pipes now s;;
  s3 <- crash_step (move_step mouse s1);;
  score_step (ground_step s3).

(** Lines 187-190: the start screen. *)
Definition title_step (s : RBGame) : RBGame :=
  mkRBGame (rb_pipes s) (Base_update 0 (rb_base s)) (Grumpy_draw_flap (rb_grumpy s)) 0
    (rb_game_started s) (rb_game_over s) (rb_score s) (rb_start_screen s) (rb_pipe_pass s)
    (rb_last_pipe s) (rb_particles s) (rb_pipe_color s) (rb_running s).

Definition stop (s : RBGame) : RBGame :=
  mkRBGame (rb_pipes s) (rb_base s) (rb_grumpy s) (rb_speed s) (rb_game_started s)
    (rb_game_over s) (rb_score s) (rb_start_screen s) (rb_pipe_pass s) (rb_last_pipe s)
    (rb_particles s) (rb_pipe_color s) false.

(** Lines 251-260: a click on the start screen starts a round. *)
Definition start_round (now : Z) (s : RBGame) : Rand G RBGame :=
  c <- choice NEON_GREEN [NEON_PINK; NEON_YELLOW; NEON_BLUE];;
  ret (mkRBGame [] (Base_init c) (rb_grumpy s) 2 true false 0 false (rb_pipe_pass s)
         (now - pipe_frequency) (rb_particles s) c (rb_running s)).

(** Lines 262-265: a click after the round goes back to the start screen
    with a new bird. *)
Definition back_to_title (s : RBGame) : Rand G RBGame :=
  g <- Grumpy_init;;
  ret (mkRBGame (rb_pipes s) (rb_base s) g (rb_speed s) (rb_game_started s) (rb_game_over s)
         (rb_score s) true (rb_pipe_pass s) (rb_last_pipe s) [] (rb_pipe_color s)
         (rb_running s)).

(** One event of lines 244-265. *)
Definition handle_event (now : Z) (s : RBGame) (e : RBEvent) : Rand G RBGame :=
  match e with
  | QUIT => ret (stop s)
  | KEYDOWN K_ESCAPE | KEYDOWN K_q => ret (stop s)
  | MOUSEBUTTONDOWN =>
      s1 <- (if rb_start_screen s then start_round now s else ret s);;
      if rb_game_over s1 then back_to_title s1 else ret s1
  | _ => ret s
  end.

Fixpoint handle_events (now : Z) (s : RBGame) (es : list RBEvent) : Rand G RBGame :=
  match es with
  | [] => ret s
  | e :: es' => s1 <- handle_event now s e;; handle_events now s1 es'
  end.

(** One iteration of [while running:]. *)
Definition rb_frame (inp : FrameInput) (s : RBGame) : Rand G RBGame :=
  s1 <- (if rb_start_screen s then ret (title_step s)
         else play_step (fi_ticks inp) (fi_mouse inp) s);;
  let s2 := with_particles s1 (update_particles (rb_particles s1)) in
  handle_events (fi_event_ticks inp) s2 (fi_events inp).

(** [while running:] over a sequence of frame inputs; the loop stops once
    [running] is [False]. *)
Fixpoint rb_run (inps : list FrameInput) (s : RBGame) : Rand G RBGame :=
  match inps with
  | [] => ret s
  | inp :: inps' => if rb_running s then s1 <- rb_frame inp s;; rb_run inps' s1 else ret s
  end.

(** The states the loop can be in at the top of an iteration. *)
Inductive rb_reachable : RBGame -> Prop :=
| rb_reach_init (g : G) : rb_reachable (fst (RB_init g))
| rb_reach_step (s : RBGame) (inp : FrameInput) (g : G) :
    rb_reachable s -> rb_running s = true -> rb_reachable (fst (rb_frame inp s g)).
End Loop.

(** ** Pipes come in pairs *)

Definition pair_pipes (tb : Pipe * Pipe) : list Pipe := [fst tb; snd tb].

(** A top pipe and the bottom pipe under it: one column, 52x320 each, a
    100-pixel gap whose centre is between [y = 104] and [y = 300]. *)
Definition pipe_pair_ok (tb : Pipe * Pipe) : Prop :=
  let t := pipe_rect (fst tb) in
  let b := pipe_rect (snd tb) in
  pipe_is_top (fst tb) = true /\ pipe_is_top (snd tb) = false /\
  rx b = rx t /\ rw t = 52 /\ rw b = 52 /\ rh t = 320 /\ rh b = 320 /\
  ry b = Rect.bottom t + 100 /\ 104 <= ry b - 50 <= 300.

(** The group is a sequence of such pairs, oldest first. *)
Definition pipes_paired (ps : list Pipe) : Prop :=
  exists prs, ps = concat (map pair_pipes prs) /\ Forall pipe_pair_ok prs.

Definition pair_move (speed : Z) (tb : Pipe * Pipe) : Pipe * Pipe :=
  (Pipe_move speed (fst tb), Pipe_move speed (snd tb)).

(** The two pipes of a pair leave the screen in the same frame. *)
Lemma pipe_group_update_pairs (speed : Z) (prs : list (Pipe * Pipe)) :
  Forall pipe_pair_ok prs ->
  pipe_group_update speed (concat (map pair_pipes prs)) =
  concat (map pair_pipes
    (List.filter (fun tb => negb (Rect.right (pipe_rect (fst tb)) <? 0))
       (map (pair_move speed) prs))).
Proof.
  unfold pipe_group_update. induction 1 as [|[t b] prs Hok _ IH]; [done|].
  destruct Hok as (_ & _ & Hx & Hwt & Hwb & _). cbn -[Rect.right] in *.
  assert (E : Rect.right (Rect.set_x (pipe_rect b) (rx (pipe_rect b) - speed)) =
              Rect.right (Rect.set_x (pipe_rect t) (rx (pipe_rect t) - speed)))
    by (unfold Rect.right; cbn; lia).
  rewrite E, IH. by destruct (Rect.right (Rect.set_x (pipe_rect t) _) <? 0).
Qed.

Lemma pipe_group_update_paired (speed : Z) (ps : list Pipe) :
  pipes_paired ps -> pipes_paired (pipe_group_update speed ps).
Proof.
  intros (prs & -> & Hok). eexists; split; [by apply pipe_group_update_pairs|].
  apply (Forall_filter_map pipe_pair_ok); [done|].
  intros [t b] Htb _. revert Htb. unfold pipe_pair_ok, Rect.bottom; cbn. intuition lia.
Qed.

Lemma pipe_pos_range_bounds (z : Z) : In z pipe_pos_range -> -100 <= z <= 96.
Proof. unfold pipe_pos_range. rewrite in_map_iff. intros (i & <- & Hi). apply in_seq in Hi. lia. Qed.

(** The gap chosen by [random.choice(range(-100, 100, 4))]. *)
Lemma spawn_gap (pos : Z) : In pos (hd 0 pipe_pos_range :: tl pipe_pos_range) ->
  104 <= gap_center + pos <= 300.
Proof.
  change (hd 0 pipe_pos_range :: tl pipe_pos_range) with pipe_pos_range.
  intros Hin. apply pipe_pos_range_bounds in Hin. change gap_center with 204. lia.
Qed.

Lemma pipes_paired_spawn (ps : list Pipe) (y : Z) (c : Color) :
  pipes_paired ps -> 104 <= y <= 300 ->
  pipes_paired (ps ++ [Pipe_init y PipeTop c; Pipe_init y PipeBottom c]).
Proof.
  intros (prs & -> & Hok) Hy. exists (prs ++ [(Pipe_init y PipeTop c, Pipe_init y PipeBottom c)]).
  rewrite map_app, concat_app. split; [done|]. apply Forall_app. split; [done|].
  constructor; [|constructor]. unfold pipe_pair_ok, Rect.bottom; cbn. repeat split; lia.
Qed.

(** ** Particles *)

Definition particle_ok (p : RBParticle) : Prop := 0 < bp_life p <= 30.

Lemma update_particles_ok (ps : list RBParticle) :
  Forall particle_ok ps -> Forall particle_ok (update_particles ps).
Proof.
  intros Hps. apply (Forall_filter_map particle_ok); [done|].
  intros p Hp Hk. apply Z.ltb_lt in Hk. revert Hp Hk. unfold particle_ok; cbn. lia.
Qed.

Section ParticleDraws.
Context {G : Type} `{PyRandom G}.

Lemma create_particles_ok (x y : Q) (c : Color) (ps : list RBParticle) :
  Forall particle_ok ps -> Always (create_particles x y c ps) (Forall particle_ok).
Proof.
  intros Hps. unfold create_particles.
  apply (always_bind _ _ (Forall particle_ok)).
  - apply always_repeatM. always_run. unfold particle_ok; cbn; lia.
  - intros news Hn. apply always_ret. by apply Forall_app.
Qed.
End ParticleDraws.

(** ** The invariant *)

(** What holds of the game whatever the phase. *)
Definition core_inv (s : RBGame) : Prop :=
  Grumpy_wf (rb_grumpy s) /\ flap_ok (rb_grumpy s) /\ base_ok (rb_base s) /\
  (rb_speed s = 0 \/ rb_speed s = 2) /\ (rb_game_over s = true -> rb_speed s = 0) /\
  (rb_game_started s = true -> g_alive (rb_grumpy s) = true) /\ 0 <= rb_score s /\
  pipes_paired (rb_pipes s) /\ Forall particle_ok (rb_particles s).

(** Where the bird is: bobbing around [y = 204] on the start screen; in play,
    below the ceiling while alive, never more than [bird_low] allows, and
    above the floor until the round is over. *)
Definition bird_inv (s : RBGame) : Prop :=
  let g := rb_grumpy s in
  (rb_start_screen s = true -> g_alive g = true /\ ry (g_rect g) - g_flap_pos g = 204) /\
  (rb_start_screen s = false -> bird_low g /\ (g_alive g = true -> 0 < ry (g_rect g)) /\
     (rb_game_over s = false -> Rect.bottom (g_rect g) <= 409)).

Definition rb_inv (s : RBGame) : Prop := core_inv s /\ bird_inv s.

(** The invariant in the middle of a frame of play, after the bird moved and
    before the crash test. *)
Definition mid_inv (s : RBGame) : Prop :=
  core_inv s /\ rb_start_screen s = false /\ bird_low (rb_grumpy s).

Ltac game_simpl :=
  cbn [rb_pipes rb_base rb_grumpy rb_speed rb_game_started rb_game_over rb_score
       rb_start_screen rb_pipe_pass rb_last_pipe rb_particles rb_pipe_color rb_running
       g_rect g_vel g_alive g_flap_pos g_flap_inc] in *.

(** Close the small goals left by splitting an invariant. *)
Ltac inv_close := first [done | lia | by intros ? | by left | by right].

Lemma pipes_paired_nil : pipes_paired [].
Proof. by exists []. Qed.

Lemma add_pipes_inv (s : RBGame) (h now : Z) :
  rb_inv s -> 104 <= h <= 300 -> rb_inv (add_pipes s h now).
Proof.
  intros [(? & ? & ? & ? & ? & ? & ? & Hp & ?) Hbird] Hh. split; [|exact Hbird].
  unfold add_pipes, core_inv. game_simpl. split_and!; auto using pipes_paired_spawn.
Qed.

Lemma bird_inv_play (s : RBGame) : rb_start_screen s = false -> bird_low (rb_grumpy s) ->
  (g_alive (rb_grumpy s) = true -> 0 < ry (g_rect (rb_grumpy s))) ->
  (rb_game_over s = false -> Rect.bottom (g_rect (rb_grumpy s)) <= 409) -> bird_inv s.
Proof. intros Hs Hl Hy Hb. split; [by rewrite Hs | done]. Qed.

Lemma ground_step_inv (s : RBGame) : mid_inv s ->
  (g_alive (rb_grumpy s) = true -> 0 < ry (g_rect (rb_grumpy s))) -> rb_inv (ground_step s).
Proof.
  intros [(? & ? & ? & ? & Hover & ? & ? & ? & ?) [Hs Hl]] Hy. unfold ground_step.
  rewrite display_height_ge. destruct (Z.leb_spec 410 (Rect.bottom (g_rect (rb_grumpy s)))).
  - split; [unfold core_inv; game_simpl; split_and!; auto|].
    apply bird_inv_play; game_simpl; auto; discriminate.
  - split; [done|]. apply bird_inv_play; auto. intros; lia.
Qed.

Lemma with_particles_inv (s : RBGame) :
  rb_inv s -> rb_inv (with_particles s (update_particles (rb_particles s))).
Proof.
  intros [(? & ? & ? & ? & ? & ? & ? & ? & Hp) ?]. split; [|done].
  unfold core_inv, with_particles. game_simpl. split_and!; auto using update_particles_ok.
Qed.

Lemma title_step_inv (s : RBGame) : rb_inv s -> rb_start_screen s = true ->
  rb_inv (title_step s).
Proof.
  intros [(Hw & Hf & Hb & ? & ? & Hst & ? & ? & ?) [Hbird _]] Hs.
  destruct (Hbird Hs) as [Ha Hy]. destruct (draw_flap_step _ Hf) as [Hf' Hy'].
  assert (Ha' : g_alive (Grumpy_draw_flap (rb_grumpy s)) = true) by done.
  split.
  - unfold core_inv, title_step. game_simpl. split_and!; auto using draw_flap_wf.
    apply Base_update_ok; [lia | done].
  - split; [intros _; unfold title_step; game_simpl; split; [done | lia] | unfold title_step; game_simpl; rewrite Hs; by intros ?].
Qed.

Section InvariantDraws.
Context {G : Type} `{PyRandom G} `{!PyRandomLaws G}.

Lemma spawn_pipes_inv (now : Z) (s : RBGame) : rb_inv s ->
  Always (spawn_pipes now s) (fun s' => rb_inv s' /\ rb_start_screen s' = rb_start_screen s).
Proof.
  intros Hs. unfold spawn_pipes. destruct (_ && _ && _); [|by apply always_ret].
  apply (always_bind _ _ (fun pos => In pos (hd 0 pipe_pos_range :: tl pipe_pos_range)));
    [apply choice_in|].
  intros pos Hpos. apply always_ret. split; [|done]. apply add_pipes_inv; [done|].
  by apply spawn_gap.
Qed.

Lemma move_step_inv (m : bool) (s : RBGame) : rb_inv s -> rb_start_screen s = false ->
  mid_inv (move_step m s).
Proof.
  intros [(Hw & Hf & Hb & ? & ? & Hst & ? & Hp & ?) [_ Hbird]] Hs.
  destruct (Hbird Hs) as (Hl & Hy & _).
  unfold mid_inv, core_inv, move_step. game_simpl. rewrite Grumpy_update_alive.
  split_and!; auto using Grumpy_update_wf, Grumpy_update_flap_ok, pipe_group_update_paired,
    Grumpy_update_low.
  apply Base_update_ok; [lia | done].
Qed.

Lemma crash_step_inv (s : RBGame) : mid_inv s ->
  Always (crash_step s) (fun s' => mid_inv s' /\
    (g_alive (rb_grumpy s') = true -> 0 < ry (g_rect (rb_grumpy s')))).
Proof.
  intros Hs. unfold crash_step. destruct (hits_pipe _ _ || _) eqn:E.
  - apply (always_bind _ _ (Forall particle_ok)).
    + destruct Hs as ((_ & _ & _ & _ & _ & _ & _ & _ & Hpt) & _).
      destruct (g_alive _); [apply create_particles_ok | apply always_ret]; exact Hpt.
    + intros ps Hps. apply always_ret.
      destruct Hs as ((Hw & Hf & ? & ? & ? & ? & ? & ? & ?) & Hs & Hl).
      unfold with_grumpy, mid_inv, core_inv. game_simpl. split_and!; auto; discriminate.
  - apply always_ret. split; [done|]. intros _.
    apply orb_false_iff in E as [_ E]. by apply Z.leb_gt in E.
Qed.

Lemma score_step_inv (s : RBGame) : rb_inv s -> Always (score_step s) rb_inv.
Proof.
  intros [Hcore Hbird]. pose proof Hcore as (? & ? & ? & ? & ? & ? & ? & ? & Hpt).
  unfold score_step. destruct (rb_pipes s) as [|p ps] eqn:Ep; [by apply always_ret|].
  cbv zeta. destruct (_ && (Rect.right _ <? Rect.left _)).
  - apply (always_bind _ _ (Forall particle_ok)); [apply create_particles_ok; exact Hpt|].
    intros parts Hparts. apply always_ret. split; [|exact Hbird].
    unfold core_inv, with_score. game_simpl. split_and!; auto; [lia | by rewrite Ep].
  - apply always_ret. split; [exact Hcore | exact Hbird].
Qed.

Lemma play_step_inv (now : Z) (m : bool) (s : RBGame) : rb_inv s -> rb_start_screen s = false ->
  Always (play_step now m s) rb_inv.
Proof.
  intros Hs Hstart. unfold play_step.
  apply (always_bind _ _ _ _ (spawn_pipes_inv now s Hs)).
  intros s1 [Hs1 Hst1]. rewrite Hstart in Hst1.
  apply (always_bind _ _ _ _ (crash_step_inv _ (move_step_inv m s1 Hs1 Hst1))).
  intros s3 [Hs3 Hy3]. apply score_step_inv, ground_step_inv; done.
Qed.

Lemma start_round_inv (now : Z) (s : RBGame) : rb_inv s -> rb_start_screen s = true ->
  Always (start_round now s) rb_inv.
Proof.
  intros [(Hw & Hf & ? & ? & ? & ? & ? & ? & Hpt) [Hbird _]] Hs.
  destruct (Hbird Hs) as [Ha Hy]. pose proof Hw as (_ & Hh & _).
  unfold start_round. always_run. split.
  - unfold core_inv. game_simpl.
    split_and!; auto using Base_init_ok, pipes_paired_nil; inv_close.
  - apply bird_inv_play; game_simpl; [done | | intros; unfold flap_ok in Hf; lia |].
    + apply bird_low_high; [done|]. unfold flap_ok in Hf. lia.
    + intros _. unfold flap_ok in Hf. unfold Rect.bottom. lia.
Qed.

Lemma back_to_title_inv (s : RBGame) : rb_inv s -> Always (back_to_title s) rb_inv.
Proof.
  intros [(? & ? & ? & ? & ? & ? & ? & ? & ?) _]. unfold back_to_title.
  apply (always_bind _ _ _ _ Grumpy_init_fresh). intros g (Hw & Hf & Ha & Hy & Hp).
  apply always_ret. split.
  - unfold core_inv. game_simpl. split_and!; auto.
  - split; game_simpl; [intros _; split; [done | lia] | discriminate].
Qed.

Lemma rb_handle_event_inv (now : Z) (s : RBGame) (e : RBEvent) : rb_inv s ->
  Always (handle_event now s e) rb_inv.
Proof.
  intros Hs. destruct e as [| [] | |]; cbn [handle_event];
    try (apply always_ret; done).
  apply (always_bind _ _ rb_inv).
  - destruct (rb_start_screen s) eqn:E; [by apply start_round_inv | by apply always_ret].
  - intros s1 Hs1. destruct (rb_game_over s1); [by apply back_to_title_inv | by apply always_ret].
Qed.

Lemma rb_handle_events_inv (now : Z) (s : RBGame) (es : list RBEvent) : rb_inv s ->
  Always (handle_events now s es) rb_inv.
Proof.
  revert s. induction es as [|e es IH]; intros s Hs; cbn [handle_events]; [by apply always_ret|].
  apply (always_bind _ _ _ _ (rb_handle_event_inv now s e Hs)). intros s1 Hs1. by apply IH.
Qed.

Lemma rb_frame_inv (inp : FrameInput) (s : RBGame) : rb_inv s -> Always (rb_frame inp s) rb_inv.
Proof.
  intros Hs. unfold rb_frame. apply (always_bind _ _ rb_inv).
  - destruct (rb_start_screen s) eqn:E;
      [apply always_ret; by apply title_step_inv | by apply play_step_inv].
  - intros s1 Hs1. by apply rb_handle_events_inv, with_particles_inv.
Qed.

Lemma RB_init_inv : Always RB_init rb_inv.
Proof.
  unfold RB_init. apply always_bind_any; intros _. apply always_bind_any; intros c.
  apply (always_bind _ _ _ _ Grumpy_init_fresh). intros g (Hw & Hf & Ha & Hy & Hp).
  apply always_ret. split.
  - unfold core_inv. game_simpl.
    split_and!; auto using Base_init_ok, pipes_paired_nil; inv_close.
  - split; game_simpl; [intros _; split; [done | lia] | discriminate].
Qed.

(** C2: Every state the loop of RetroBird reaches satisfies the invariant:
    the bird is 40x40 with its velocity in [[-6, 8]] and its bobbing in
    range, the floor tiles within [(-WIDTH, WIDTH]], the speed 0 or 2 and 0
    once the round is over, a started round has a live bird, the score is
    non-negative, the pipes come in top/bottom pairs around a 100-pixel gap
    centred in [[104, 300]], the particles live 1 to 30 frames; and the bird
    bobs around [y = 204] on the start screen, is below the ceiling while
    alive in play, never more than 66 pixels above the screen, and above the
    floor until the round is over. *)
Theorem rb_reachable_inv (s : RBGame) : rb_reachable (G := G) s -> rb_inv s.
Proof.
  induction 1 as [g | s inp g _ IH _].
  - apply RB_init_inv.
  - by apply rb_frame_inv.
Qed.
End InvariantDraws.

(** ** A dead bird ends the round *)

(** A round in progress, with a dead bird. *)
Definition dead_in_play (s : RBGame) : bool :=
  rb_running s && negb (rb_start_screen s) && negb (rb_game_over s) &&
  negb (g_alive (rb_grumpy s)).

Lemma dead_in_play_spec (s : RBGame) : dead_in_play s = true <->
  rb_running s = true /\ rb_start_screen s = false /\ rb_game_over s = false /\
  g_alive (rb_grumpy s) = false.
Proof. unfold dead_in_play. rewrite !andb_true_iff, !negb_true_iff. tauto. Qed.

Lemma kill_bird_dead (g : Grumpy) : g_alive g = false ->
  kill_bird g = set_theta g (g_vel g * (-2)).
Proof. destruct g; cbn. by intros ->. Qed.

Lemma set_theta_id (g : Grumpy) : set_theta g (g_theta g) = g.
Proof. by destruct g. Qed.

Section Liveness.
Context {G : Type} `{PyRandom G} `{!PyRandomLaws G}.

(** The events leave the bird alone, or bring in a live one. *)
Lemma handle_events_bird (now : Z) (s : RBGame) (es : list RBEvent) :
  Always (handle_events now s es)
    (fun s' => rb_grumpy s' = rb_grumpy s \/ g_alive (rb_grumpy s') = true).
Proof.
  revert s. induction es as [|e es IH]; intros s; cbn [handle_events];
    [by apply always_ret; left|].
  apply (always_bind _ _ (fun s1 => rb_grumpy s1 = rb_grumpy s \/ g_alive (rb_grumpy s1) = true)).
  - destruct e as [| [] | |]; cbn [handle_event]; try (apply always_ret; by left).
    apply (always_bind _ _ (fun s1 => rb_grumpy s1 = rb_grumpy s)).
    + destruct (rb_start_screen s); [unfold start_round; by always_run | by apply always_ret].
    + intros s1 Hs1. destruct (rb_game_over s1); [|apply always_ret; by left].
      unfold back_to_title. apply (always_bind _ _ _ _ Grumpy_init_fresh).
      intros g (_ & _ & Ha & _). apply always_ret. by right.
  - intros s1 Hs1. apply (always_mono _ _ _ (IH s1)).
    intros s2 [E | ?]; [rewrite E; destruct Hs1; [left | right] | right]; done.
Qed.

Lemma score_step_bird (s : RBGame) :
  Always (score_step s) (fun s' => rb_grumpy s' = rb_grumpy s).
Proof.
  unfold score_step. destruct (rb_pipes s); [by apply always_ret|].
  cbv zeta. destruct (_ && _); [always_run|]; done.
Qed.

(** A frame of play moves a dead bird as [Grumpy.update] does. *)
Lemma play_step_dead_bird (now : Z) (m : bool) (s : RBGame) : g_alive (rb_grumpy s) = false ->
  Always (play_step now m s)
    (fun s' => exists t, rb_grumpy s' = set_theta (Grumpy_update m (rb_grumpy s)) t).
Proof.
  intros Ha. unfold play_step.
  apply (always_bind _ _ (fun s1 => rb_grumpy s1 = rb_grumpy s)).
  { unfold spawn_pipes. destruct (_ && _ && _); [by always_run | by apply always_ret]. }
  intros s1 Hs1.
  apply (always_bind _ _ (fun s3 => exists t,
           rb_grumpy s3 = set_theta (Grumpy_update m (rb_grumpy s)) t)).
  - unfold crash_step. cbn [move_step rb_grumpy]. rewrite Hs1.
    assert (Ha' : g_alive (Grumpy_update m (rb_grumpy s)) = false)
      by by rewrite Grumpy_update_alive.
    destruct (_ || _).
    + rewrite Ha'. always_run. eexists. cbn. by apply kill_bird_dead.
    + apply always_ret. exists (g_theta (Grumpy_update m (rb_grumpy s))).
      rewrite set_theta_id. cbn [move_step rb_grumpy]. by rewrite Hs1.
  - intros s3 Ht. apply (always_mono _ _ _ (score_step_bird _)). intros s4 ->.
    unfold ground_step. by destruct (_ <=q? _).
Qed.

Lemma rb_frame_dead_bird (inp : FrameInput) (s : RBGame) : dead_in_play s = true ->
  Always (rb_frame inp s) (fun s1 => dead_in_play s1 = true ->
    exists t, rb_grumpy s1 = set_theta (Grumpy_update (fi_mouse inp) (rb_grumpy s)) t).
Proof.
  intros Hd. apply dead_in_play_spec in Hd as (_ & Hs & _ & Ha).
  unfold rb_frame. rewrite Hs.
  apply (always_bind _ _ _ _ (play_step_dead_bird (fi_ticks inp) (fi_mouse inp) s Ha)).
  intros s1 [t Ht]. apply (always_mono _ _ _ (handle_events_bird _ _ _)).
  intros s2 Hs2 Hd2. apply dead_in_play_spec in Hd2 as (_ & _ & _ & Ha2).
  destruct Hs2 as [-> | Ha2']; [by exists t | congruence].
Qed.

Lemma dead_bird_frames (inps : list FrameInput) (s : RBGame) (g : G) :
  rb_inv s -> dead_in_play s = true ->
  (410 <= Rect.bottom (g_rect (fold_left (fun h m => Grumpy_update m h)
                                 (map fi_mouse inps) (rb_grumpy s)))) ->
  exists n, (n <= length inps)%nat /\ dead_in_play (fst (rb_run (firstn n inps) s g)) = false.
Proof.
  revert s g. induction inps as [|i inps IH]; intros s g Hinv Hd Hb.
  - destruct Hinv as [_ [_ Hbird]]. apply dead_in_play_spec in Hd as (_ & Hs & Ho & _).
    destruct (Hbird Hs) as (_ & _ & Hb'). specialize (Hb' Ho). cbn in Hb. lia.
  - pose proof (rb_frame_inv i s Hinv g) as Hinv1.
    pose proof (rb_frame_dead_bird i s Hd g) as Hbird1.
    pose proof Hd as Hd'. apply dead_in_play_spec in Hd' as (Hrun & _).
    destruct (rb_frame i s g) as [s1 g1] eqn:E. cbn [fst] in Hinv1, Hbird1.
    destruct (dead_in_play s1) eqn:Hd1.
    + destruct (Hbird1 eq_refl) as [t Ht].
      destruct (IH s1 g1 Hinv1 Hd1) as (n & Hn & Hrun1).
      { rewrite Ht, fold_update_theta. exact Hb. }
      exists (S n). split; [cbn; lia|]. cbn [firstn rb_run]. rewrite Hrun.
      unfold bind. by rewrite E.
    + exists 1%nat. split; [cbn; lia|]. cbn [firstn rb_run]. rewrite Hrun.
      unfold bind. by rewrite E.
Qed.

(** C5: A dead bird cannot keep a round going: from any reachable state in
    which the round is running with a dead bird, within 800 frames, whatever
    the player does and whatever the generator draws, the loop leaves that
    state (the bird reaches the floor and [game_over] is set, or the player
    quits). *)
Theorem dead_bird_ends_round (s : RBGame) (inps : list FrameInput) (g : G) :
  rb_reachable (G := G) s -> dead_in_play s = true -> (800 <= length inps)%nat ->
  exists n, (n <= 800)%nat /\ dead_in_play (fst (rb_run (firstn n inps) s g)) = false.
Proof.
  intros Hr Hd Hl. pose proof (rb_reachable_inv s Hr) as Hinv.
  pose proof Hinv as [(Hw & _) [_ Hbird]].
  pose proof Hd as Hd'. apply dead_in_play_spec in Hd' as (_ & Hs & _ & Ha).
  destruct (Hbird Hs) as (Hlow & _).
  destruct (dead_bird_frames (firstn 800 inps) s g Hinv Hd) as (n & Hn & Hrun).
  { apply dead_bird_lands; [done | done | | rewrite length_map, length_firstn; lia].
    pose proof (bird_low_top _ Hw Hlow). lia. }
  exists n. rewrite length_firstn in Hn. rewrite firstn_firstn in Hrun.
  split; [lia|]. by replace n with (Nat.min n 800) by lia.
Qed.
End Liveness.

(** ** What a frame of play does to the round *)

(** No pipe to the right of the bird's right edge touches it. *)
Lemma hits_pipe_far (g : Grumpy) (ps : list Pipe) : Rect.positive (g_rect g) ->
  Forall (fun p => Rect.positive (pipe_rect p) /\
                   Rect.right (g_rect g) <= Rect.left (pipe_rect p)) ps ->
  hits_pipe g ps = false.
Proof.
  intros Hg Hps. unfold hits_pipe. apply not_true_iff_false. rewrite existsb_exists.
  intros (p & Hin & Hc). rewrite List.Forall_forall in Hps. destruct (Hps p Hin).
  by rewrite Rect.colliderect_left_of in Hc.
Qed.

Lemma hits_pipe_app (g : Grumpy) (ps qs : list Pipe) :
  hits_pipe g (ps ++ qs) = hits_pipe g ps || hits_pipe g qs.
Proof. apply existsb_app. Qed.

Lemma pipe_group_update_app (speed : Z) (ps qs : list Pipe) :
  pipe_group_update speed (ps ++ qs) = pipe_group_update speed ps ++ pipe_group_update speed qs.
Proof. unfold pipe_group_update. by rewrite map_app, List.filter_app. Qed.

Lemma crash_step_no_hit {G} `{PyRandom G} (s : RBGame) :
  hits_pipe (rb_grumpy s) (rb_pipes s) = false -> 0 < Rect.top (g_rect (rb_grumpy s)) ->
  crash_step s = ret s.
Proof.
  intros Hh Ht. unfold crash_step. rewrite Hh. cbn [orb].
  by destruct (Z.leb_spec (Rect.top (g_rect (rb_grumpy s))) 0); [lia|].
Qed.

(** What [score_step] leaves alone. *)
Definition score_frame (s s' : RBGame) : Prop :=
  rb_grumpy s' = rb_grumpy s /\ rb_game_over s' = rb_game_over s.

Lemma ground_step_frame (s : RBGame) :
  rb_pipes (ground_step s) = rb_pipes s /\ rb_pipe_pass (ground_step s) = rb_pipe_pass s /\
  rb_score (ground_step s) = rb_score s /\ rb_grumpy (ground_step s) = rb_grumpy s.
Proof. unfold ground_step. by destruct (_ <=q? _). Qed.

Lemma pipe_group_update_keep (speed : Z) (p : Pipe) (ps : list Pipe) :
  0 <= Rect.right (pipe_rect p) - speed ->
  pipe_group_update speed (p :: ps) = Pipe_move speed p :: pipe_group_update speed ps.
Proof.
  intros Hp. unfold pipe_group_update. cbn [map List.filter].
  replace (Rect.right (pipe_rect (Pipe_move speed p)) <? 0) with false; [done|].
  symmetry. apply Z.ltb_ge. revert Hp. unfold Rect.right; cbn. lia.
Qed.

Section Behaviour.
Context {G : Type} `{PyRandom G}.

Lemma crash_step_frame (s : RBGame) :
  Always (crash_step s) (fun s' =>
    rb_pipes s' = rb_pipes s /\ rb_pipe_pass s' = rb_pipe_pass s /\ rb_score s' = rb_score s /\
    g_rect (rb_grumpy s') = g_rect (rb_grumpy s) /\
    (g_alive (rb_grumpy s) = false -> g_alive (rb_grumpy s') = false)).
Proof.
  unfold crash_step. destruct (_ || _); [always_run | apply always_ret]; done.
Qed.

(** The bird passing the right edge of the oldest pipe with [pipe_pass]
    armed scores. *)
Lemma score_step_scores (s : RBGame) (q : Pipe) (qs : list Pipe) :
  rb_pipes s = q :: qs -> rb_pipe_pass s = true ->
  Rect.right (pipe_rect q) < Rect.left (g_rect (rb_grumpy s)) ->
  Always (score_step s) (fun s' => rb_score s' = rb_score s + 1 /\ rb_grumpy s' = rb_grumpy s).
Proof.
  intros Hq Hpass Hr. unfold score_step. rewrite Hq. cbv zeta. rewrite Hpass, andb_false_r.
  cbn [andb negb]. apply Z.ltb_lt in Hr as ->. cbn [andb]. by always_run.
Qed.

(** A spawn changes only the pipes, which gain pipes at the right edge. *)
Lemma spawn_pipes_shape (now : Z) (s : RBGame) :
  Always (spawn_pipes now s) (fun s1 =>
    rb_grumpy s1 = rb_grumpy s /\ rb_speed s1 = rb_speed s /\
    rb_pipe_pass s1 = rb_pipe_pass s /\ rb_score s1 = rb_score s /\
    rb_game_over s1 = rb_game_over s /\
    exists extra, rb_pipes s1 = rb_pipes s ++ extra /\
      Forall (fun p => rx (pipe_rect p) = WIDTH /\ rw (pipe_rect p) = 52 /\
                       rh (pipe_rect p) = 320) extra).
Proof.
  unfold spawn_pipes. destruct (_ && _ && _).
  - always_run. split_and!; try done. eexists; split; [done|]. repeat constructor.
  - apply always_ret. split_and!; try done. exists []. by rewrite app_nil_r.
Qed.

Lemma score_step_frame (s : RBGame) : Always (score_step s) (score_frame s).
Proof.
  unfold score_step, score_frame. destruct (rb_pipes s); [by apply always_ret|].
  cbv zeta. destruct (_ && _); [always_run|]; done.
Qed.

(** C19: A bird that comes down on the floor without touching a pipe or the
    ceiling ends the round but stays alive: [grumpy.alive] is only cleared
    by a crash, so [draw_retro_gameover], drawn [if not grumpy.alive], never
    shows, and no hit particles are emitted. *)
Theorem floor_landing_keeps_alive (now : Z) (m : bool) (s : RBGame) :
  rb_start_screen s = false -> g_alive (rb_grumpy s) = true -> 0 <= rb_speed s <= 2 ->
  let g' := Grumpy_update m (rb_grumpy s) in
  hits_pipe g' (pipe_group_update (rb_speed s) (rb_pipes s)) = false ->
  Rect.right (g_rect g') < 280 -> 0 < Rect.top (g_rect g') -> 410 <= Rect.bottom (g_rect g') ->
  Always (play_step now m s)
    (fun s' => rb_game_over s' = true /\ g_alive (rb_grumpy s') = true).
Proof.
  intros Hs Ha Hsp. cbv zeta. intros Hh Hr Ht Hb. unfold play_step.
  apply (always_bind _ _ _ _ (spawn_pipes_shape now s)).
  intros s1 (Hg & Hsp1 & _ & _ & _ & extra & Hp & Hextra).
  rewrite crash_step_no_hit; cycle 1.
  { cbn [move_step rb_grumpy rb_pipes rb_speed]. rewrite Hg, Hp, Hsp1, pipe_group_update_app,
      hits_pipe_app, Hh. apply hits_pipe_far; [unfold Rect.positive; rewrite Grumpy_update_rect; cbn; lia|].
    apply (Forall_filter_map _ _ _ _ _ Hextra). intros p (Hx & Hw & Hhp) _.
    revert Hr. unfold Rect.positive, Rect.left, Rect.right, WIDTH in *; cbn. lia. }
  { cbn [move_step rb_grumpy]. by rewrite Hg. }
  cbn [bind ret]. apply (always_mono _ _ _ (score_step_frame _)). intros s' [-> ->].
  unfold ground_step. cbn [move_step rb_grumpy]. rewrite Hg, display_height_ge.
  destruct (Z.leb_spec 410 (Rect.bottom (g_rect (Grumpy_update m (rb_grumpy s))))); [|lia].
  cbn. split; [done|]. by rewrite Grumpy_update_alive.
Qed.

(** C18: A dead bird still scores: when the bird died inside the gap of the
    oldest pipe ([pipe_pass] armed) and that pipe, still scrolling, passes
    its left edge, [score] goes up although the bird is dead. *)
Theorem dead_bird_scores (now : Z) (m : bool) (s : RBGame) (p : Pipe) (ps : list Pipe) :
  g_alive (rb_grumpy s) = false -> rb_pipe_pass s = true -> rb_pipes s = p :: ps ->
  0 <= Rect.right (pipe_rect p) - rb_speed s < Rect.left (g_rect (rb_grumpy s)) ->
  Always (play_step now m s)
    (fun s' => rb_score s' = rb_score s + 1 /\ g_alive (rb_grumpy s') = false).
Proof.
  intros Ha Hpass Hp Hr. unfold play_step.
  apply (always_bind _ _ _ _ (spawn_pipes_shape now s)).
  intros s1 (Hg & Hsp & Hpass1 & Hsc & _ & extra & Hp1 & _).
  apply (always_bind _ _ _ _ (crash_step_frame _)).
  intros s3 (Hp3 & Hpass3 & Hsc3 & Hr3 & Ha3). cbn [move_step rb_grumpy rb_pipes rb_speed
    rb_pipe_pass rb_score] in Hp3, Hpass3, Hsc3, Hr3, Ha3.
  rewrite Hp1, Hp, Hsp, <- app_comm_cons, pipe_group_update_keep in Hp3 by lia.
  destruct (ground_step_frame s3) as (Hp4 & Hpass4 & Hsc4 & Hg4).
  assert (Hlt : Rect.right (pipe_rect (Pipe_move (rb_speed s) p)) <
                Rect.left (g_rect (rb_grumpy (ground_step s3)))).
  { rewrite Hg4, Hr3, Hg, Grumpy_update_rect. revert Hr. unfold Rect.left, Rect.right; cbn. lia. }
  apply (always_mono _ _ _ (score_step_scores (ground_step s3) _ _ (eq_trans Hp4 Hp3)
                             (eq_trans Hpass4 (eq_trans Hpass3 (eq_trans Hpass1 Hpass))) Hlt)).
  intros s' [-> ->]. rewrite Hg4, Hsc4, Hsc3, Hsc. split; [done|].
  apply Ha3. by rewrite Hg, Grumpy_update_alive.
Qed.
End Behaviour.

(** ** Clicks and quitting *)

Lemma stop_running (s : RBGame) : rb_running (stop s) = false.
Proof. done. Qed.

(** A quit event is a [QUIT] or a key press of [Escape] or [q]. *)
Definition is_quit (e : RBEvent) : Prop := e = QUIT \/ e = KEYDOWN K_ESCAPE \/ e = KEYDOWN K_q.

Lemma rb_run_stopped {G} `{PyRandom G} (inps : list FrameInput) (s : RBGame) :
  rb_running s = false -> rb_run inps s = ret s.
Proof. intros Hs. destruct inps; cbn; [done | by rewrite Hs]. Qed.

Section Clicks.
Context {G : Type} `{PyRandom G} `{!PyRandomLaws G}.

Lemma handle_event_stopped (now : Z) (s : RBGame) (e : RBEvent) : rb_running s = false ->
  Always (handle_event now s e) (fun s' => rb_running s' = false).
Proof.
  intros Hs. destruct e as [| [] | |]; cbn [handle_event]; try (by apply always_ret).
  apply (always_bind _ _ (fun s1 => rb_running s1 = false)).
  - destruct (rb_start_screen s); [unfold start_round; by always_run | by apply always_ret].
  - intros s1 Hs1. destruct (rb_game_over s1); [unfold back_to_title; by always_run|].
    by apply always_ret.
Qed.

Lemma handle_events_stopped (now : Z) (s : RBGame) (es : list RBEvent) :
  rb_running s = false -> Always (handle_events now s es) (fun s' => rb_running s' = false).
Proof.
  revert s. induction es as [|e es IH]; intros s Hs; cbn [handle_events]; [by apply always_ret|].
  apply (always_bind _ _ _ _ (handle_event_stopped now s e Hs)). intros s1 Hs1. by apply IH.
Qed.


(** C36: A quit event ([QUIT], [Escape] or [q]) anywhere in a frame's event
    queue stops the game: [running] is [False] after the queue whatever
    follows the event, and the loop runs no further frame. *)
Theorem quit_stops_loop (now : Z) (s : RBGame) (es : list RBEvent) (e : RBEvent) :
  In e es -> is_quit e ->
  Always (handle_events now s es) (fun s' =>
    rb_running s' = false /\ forall (inps : list FrameInput), rb_run (G := G) inps s' = ret s').
Proof.
  intros Hin He. apply (always_mono _ (fun s' => rb_running s' = false)).
  2: { intros s' Hs'. split; [done|]. intros inps. by apply rb_run_stopped. }
  revert s. induction es as [|e' es IH]; intros s; [done|]. cbn [handle_events].
  destruct Hin as [<- | Hin].
  - destruct He as [-> | [-> | ->]]; cbn [handle_event]; rewrite (bind_ret_l (G := G));
      by apply handle_events_stopped.
  - apply always_bind_any. intros s1. by apply IH.
Qed.

(** C32: A click on the start screen starts a round: the game is started and
    not over, scrolls at speed 2 with no pipe and a zero score, the pipe
    timer is set so that the first pair comes at once, the bird is the one
    of the title screen, and a new pipe colour is drawn for the pipes and
    the floor; [pipe_pass] is not reset and carries over from the last
    round. *)
Theorem start_click_starts_round (now : Z) (s : RBGame) : rb_start_screen s = true ->
  Always (handle_event now s MOUSEBUTTONDOWN) (fun s' =>
    rb_start_screen s' = false /\ rb_game_started s' = true /\ rb_game_over s' = false /\
    rb_speed s' = 2 /\ rb_pipes s' = [] /\ rb_score s' = 0 /\
    rb_last_pipe s' = now - pipe_frequency /\ rb_grumpy s' = rb_grumpy s /\
    In (rb_pipe_color s') pipe_colors /\ rb_base s' = Base_init (rb_pipe_color s') /\
    rb_pipe_pass s' = rb_pipe_pass s).
Proof.
  intros Hs g. pose proof (choice_in NEON_GREEN [NEON_PINK; NEON_YELLOW; NEON_BLUE] g) as Hc.
  cbn [handle_event]. rewrite Hs. unfold start_round, bind.
  destruct (choice _ _ g) as [c g'] eqn:E. cbn in *. split_and!; done.
Qed.

(** C33: A click once the round is over goes back to the start screen with a
    new bird and no particle; [game_over] stays set, and the pipes and the
    score stay as they were until the next round starts. *)
Theorem game_over_click_returns_title (now : Z) (s : RBGame) :
  rb_start_screen s = false -> rb_game_over s = true ->
  Always (handle_event now s MOUSEBUTTONDOWN) (fun s' =>
    rb_start_screen s' = true /\ rb_game_over s' = true /\ rb_particles s' = [] /\
    fresh_bird (rb_grumpy s') /\ rb_pipes s' = rb_pipes s /\ rb_score s' = rb_score s).
Proof.
  intros Hs Ho. cbn [handle_event]. rewrite Hs, (bind_ret_l (G := G)), Ho. unfold back_to_title.
  apply (always_bind _ _ _ _ Grumpy_init_fresh). intros g' Hg. by apply always_ret.
Qed.
End Clicks.

Lemma rb_run_reachable {G} `{PyRandom G} (inps : list FrameInput) (s : RBGame) (g : G) :
  rb_reachable s -> rb_reachable (fst (rb_run inps s g)).
Proof.
  revert s g. induction inps as [|i inps IH]; intros s g Hs; [done|]. cbn [rb_run].
  destruct (rb_running s) eqn:Er; [|done]. unfold bind.
  pose proof (rb_reach_step s i g Hs Er) as Hs1.
  destruct (rb_frame i s g) as [s1 g1]. by apply IH.
Qed.

(** ** Concrete runs

    The generator is the scripted one of [PyRandom]; the empty script draws
    zeros. *)

Definition rb_start_state : RBGame := fst (RB_init (G := list Z) []).
Definition rb_start_gen : list Z := snd (RB_init (G := list Z) []).

(** A click on the title screen, then 42 frames of presses on every other
    frame: the bird flies into the ceiling before the first pipes reach it. *)
Definition ceiling_inputs : list FrameInput :=
  mkFrameInput 0 false [MOUSEBUTTONDOWN] 0 ::
  map (fun k : nat => mkFrameInput 0 (Nat.even k) [] 0) (seq 0 42).

Definition ceiling_crash : RBGame := fst (rb_run ceiling_inputs rb_start_state rb_start_gen).

Definition idle_inputs : list FrameInput := repeat (mkFrameInput 0 false [] 0) 800.

(** A live bird 41 pixels above the floor, falling at full speed. *)
Definition landing_state : RBGame :=
  mkRBGame [] (Base_init NEON_GREEN) (mkGrumpy NEON_GREEN (mkRect 124 369 40 40) 0 8 false true 0 0 1)
    2 true false 3 false false 0 [] NEON_GREEN true.

(** A pipe whose right edge is 4 pixels short of the bird's left edge. *)
Definition scoring_pipe : Pipe := mkPipe NEON_GREEN (mkRect 70 (-216) 52 320) true.

(** A dead bird that died in the gap of [scoring_pipe], with [pipe_pass]
    armed. *)
Definition scoring_state : RBGame :=
  mkRBGame [scoring_pipe] (Base_init NEON_GREEN)
    (mkGrumpy NEON_GREEN (mkRect 124 200 40 40) 0 2 false false 0 0 1)
    2 false false 3 false true 0 [] NEON_GREEN true.

(** The round is over, the start screen not shown yet. *)
Definition over_state : RBGame :=
  mkRBGame [] (Base_init NEON_GREEN) (mkGrumpy NEON_GREEN (mkRect 124 371 40 40) 0 8 false false 0 0 1)
    0 false true 3 false false 0 [] NEON_GREEN true.

Section Witnesses.

Lemma rb_reachable_inv_witness : rb_inv rb_start_state.
Proof. apply (rb_reachable_inv (G := list Z)). apply rb_reach_init. Defined.

Lemma dead_bird_ends_round_witness : dead_in_play ceiling_crash = true /\
  exists n, (n <= 800)%nat /\
            dead_in_play (fst (rb_run (firstn n idle_inputs) ceiling_crash [])) = false.
Proof.
  split; [vm_compute; reflexivity|].
  apply (dead_bird_ends_round (G := list Z) ceiling_crash idle_inputs []).
  - apply rb_run_reachable, rb_reach_init.
  - vm_compute. reflexivity.
  - vm_compute. lia.
Defined.

Lemma floor_landing_keeps_alive_witness :
  Always (G := list Z) (play_step 0 false landing_state)
    (fun s' => rb_game_over s' = true /\ g_alive (rb_grumpy s') = true).
Proof.
  apply (floor_landing_keeps_alive 0 false landing_state);
    first [reflexivity | decide_concrete].
Defined.

Lemma dead_bird_scores_witness :
  Always (G := list Z) (play_step 0 false scoring_state)
    (fun s' => rb_score s' = rb_score scoring_state + 1 /\ g_alive (rb_grumpy s') = false).
Proof.
  apply (dead_bird_scores 0 false scoring_state scoring_pipe []);
    first [reflexivity | decide_concrete].
Defined.

Lemma start_click_starts_round_witness :
  Always (G := list Z) (handle_event 5000 rb_start_state MOUSEBUTTONDOWN) (fun s' =>
    rb_start_screen s' = false /\ rb_game_started s' = true /\ rb_game_over s' = false /\
    rb_speed s' = 2 /\ rb_pipes s' = [] /\ rb_score s' = 0 /\
    rb_last_pipe s' = 5000 - pipe_frequency /\ rb_grumpy s' = rb_grumpy rb_start_state /\
    In (rb_pipe_color s') pipe_colors /\ rb_base s' = Base_init (rb_pipe_color s') /\
    rb_pipe_pass s' = rb_pipe_pass rb_start_state).
Proof. apply start_click_starts_round. vm_compute. reflexivity. Defined.

Lemma game_over_click_returns_title_witness :
  Always (G := list Z) (handle_event 0 over_state MOUSEBUTTONDOWN) (fun s' =>
    rb_start_screen s' = true /\ rb_game_over s' = true /\ rb_particles s' = [] /\
    fresh_bird (rb_grumpy s') /\ rb_pipes s' = rb_pipes over_state /\
    rb_score s' = rb_score over_state).
Proof. apply game_over_click_returns_title; reflexivity. Defined.

Lemma quit_stops_loop_witness :
  Always (G := list Z) (handle_events 0 landing_state [MOUSEBUTTONDOWN; KEYDOWN K_q; MOUSEBUTTONDOWN])
    (fun s' => rb_running s' = false /\
               forall inps : list FrameInput, rb_run (G := list Z) inps s' = ret s').
Proof.
  apply (quit_stops_loop 0 landing_state _ (KEYDOWN K_q)); [by right; left | by right; right].
Defined.
End Witnesses.
End RetroBirdGame.
