(* ===== verification/RBParticleLoop.v ===== *)
(** RBParticleLoop: RetroBird's [update_particles] (lines 168-180 of
    [src/apps/arcade/games/RetroBird/main.py]) as the code runs it.

    [for particle in particles[:]] iterates over a copy of the list whose
    elements are the same dict objects as those of [particles]; the loop
    body updates the dict in place and [particles.remove(particle)] removes
    the first element of [particles] that compares equal to it, [==] on
    dicts comparing values, not identity.  The model keeps the objects in a
    store (a list indexed by object identity): [particles] and its copy are
    lists of identities, an in-place update writes the store, and
    [py_list_remove] searches [particles] by value.

    [update_particles_py_eq] shows that the loop computes [update_particles]
    of [RBGame], the filter-after-map the rest of the development uses: the
    element [remove] finds is always the current particle itself. *)

From S2P Require Import Prelude PyRandom RBObjects RBGame.

Module RBParticleLoop.
Import RetroBird RetroBirdGame.
Local Open Scope Z_scope.

(** [==] on two particle dicts: the same keys, equal values. *)
Definition particle_eqb (p q : RBParticle) : bool :=
  Qeq_bool (bp_x p) (bp_x q) && Qeq_bool (bp_y p) (bp_y q) && Qeq_bool (bp_vx p) (bp_vx q) &&
  Qeq_bool (bp_vy p) (bp_vy q) && (bp_life p =? bp_life q) &&
  bool_decide (bp_color p = bp_color q).

(** [list.remove(x)]: the first element for which [eqx] holds is removed;
    [None] is the [ValueError] raised when there is none. *)
Fixpoint py_list_remove {A} (eqx : A -> bool) (l : list A) : option (list A) :=
  match l with
  | [] => None
  | y :: l' => if eqx y then Some l' else option_map (cons y) (py_list_remove eqx l')
  end.

(** The objects a list of identities refers to. *)
Definition deref (store : list RBParticle) (ids : list nat) : list RBParticle :=
  omap (fun j => store !! j) ids.

(** The loop over the copy [copy]: the store and the identities in
    [particles] after it. *)
Fixpoint update_particles_loop (copy : list nat) (store : list RBParticle) (live : list nat)
    : option (list RBParticle * list nat) :=
  match copy with
  | [] => Some (store, live)
  | i :: copy' =>
      match store !! i with
      | None => None
      | Some p =>
          let p' := particle_step p in
          let store' := <[i := p']> store in
          if bp_life p' <=? 0 then
            match py_list_remove (fun j => match store' !! j with
                                           | Some q => particle_eqb q p'
                                           | None => false
                                           end) live with
            | None => None
            | Some live' => update_particles_loop copy' store' live'
            end
          else update_particles_loop copy' store' live
      end
  end.

(** [update_particles(surface)] on the list [ps] of distinct dicts. *)
Definition update_particles_py (ps : list RBParticle) : option (list RBParticle) :=
  let ids := seq 0 (length ps) in
  match update_particles_loop ids ps ids with
  | Some (store, live) => Some (deref store live)
  | None => None
  end.

(** ** The loop is [update_particles] *)

Lemma particle_eqb_refl (p : RBParticle) : particle_eqb p p = true.
Proof.
  unfold particle_eqb. rewrite !Qeq_bool_refl, Z.eqb_refl, bool_decide_true; done.
Qed.

Lemma particle_eqb_life (p q : RBParticle) : particle_eqb p q = true -> bp_life p = bp_life q.
Proof. unfold particle_eqb. intros H. repeat apply andb_prop in H as [H ?]. by apply Z.eqb_eq. Qed.

Lemma py_list_remove_app {A} (eqx : A -> bool) (l1 l2 : list A) (x : A) :
  Forall (fun y => eqx y = false) l1 -> eqx x = true ->
  py_list_remove eqx (l1 ++ x :: l2) = Some (l1 ++ l2).
Proof. intros H1 Hx. induction H1 as [|y l1 Hy _ IH]; cbn; [by rewrite Hx|]. by rewrite Hy, IH. Qed.

Lemma deref_app (store : list RBParticle) (l1 l2 : list nat) :
  deref store (l1 ++ l2) = deref store l1 ++ deref store l2.
Proof. apply omap_app. Qed.

(** The identities already kept point to updated particles still alive. *)
Definition kept_ok (store : list RBParticle) (done : list nat) : Prop :=
  Forall (fun j => exists q, store !! j = Some q /\ 0 < bp_life q) done.

Lemma kept_ok_app_store (store extra : list RBParticle) (done : list nat) :
  kept_ok store done -> kept_ok (store ++ extra) done.
Proof.
  intros H. eapply Forall_impl; [exact H|]. intros j (q & Hq & Hl). exists q. split; [|done].
  by apply lookup_app_l_Some.
Qed.

(** After the particles [pre] (updated, kept ones in [done]), the loop over
    the identities of [post] updates them all and keeps those alive. *)
Lemma update_particles_loop_spec (post pre : list RBParticle) (done : list nat) :
  kept_ok pre done ->
  exists kept, update_particles_loop (seq (length pre) (length post)) (pre ++ post)
                 (done ++ seq (length pre) (length post)) =
               Some (pre ++ map particle_step post, done ++ kept) /\
               deref (pre ++ map particle_step post) kept = update_particles post.
Proof.
  revert pre done. induction post as [|p post IH]; intros pre done Hk.
  { exists []. by rewrite !app_nil_r. }
  cbn [length seq update_particles_loop].
  rewrite lookup_app_r, Nat.sub_diag by lia. cbn [lookup list_lookup].
  rewrite insert_app_r_alt, Nat.sub_diag by lia. cbn [insert list_insert].
  set (p' := particle_step p). replace (pre ++ p' :: post) with ((pre ++ [p']) ++ post)
    by by rewrite <- app_assoc.
  assert (Hlen : length (pre ++ [p']) = S (length pre)) by (rewrite length_app; cbn; lia).
  unfold update_particles. cbn [map List.filter]. fold p'.
  destruct (Z.leb_spec (bp_life p') 0) as [Hd | Ha].
  - rewrite py_list_remove_app.
    + destruct (IH (pre ++ [p']) done) as (kept & Hl & Hv); [by apply kept_ok_app_store|].
      rewrite <- Hlen. rewrite Hl. exists kept. rewrite <- app_assoc in *. cbn [app] in *. split; [done|].
      rewrite Hv. by destruct (Z.ltb_spec 0 (bp_life p')); [lia|].
    + eapply Forall_impl; [exact Hk|]. intros j (q & Hq & Hl).
      rewrite (lookup_app_l_Some _ _ _ _ (lookup_app_l_Some _ _ _ _ Hq)).
      destruct (particle_eqb q p') eqn:E; [|done]. apply particle_eqb_life in E. lia.
    + rewrite lookup_app_l by (rewrite Hlen; lia).
      rewrite lookup_app_r, Nat.sub_diag by lia. apply particle_eqb_refl.
  - destruct (IH (pre ++ [p']) (done ++ [length pre])) as (kept & Hl & Hv).
    { apply Forall_app. split; [by apply kept_ok_app_store|]. constructor; [|done].
      exists p'. split; [|lia]. rewrite lookup_app_r, Nat.sub_diag by lia. done. }
    rewrite <- Hlen. rewrite <- (app_assoc done [length pre]) in Hl. cbn [app] in Hl. rewrite Hl.
    exists (length pre :: kept). rewrite <- app_assoc in *. cbn [app] in *. split; [by rewrite <- app_assoc|].
    destruct (Z.ltb_spec 0 (bp_life p')); [|lia].
    cbn [deref omap list_omap]. rewrite lookup_app_r, Nat.sub_diag by lia.
    cbn [lookup list_lookup]. f_equal. exact Hv.
Qed.

(** C11: RetroBird's [update_particles], run as the code runs it (iterating
    over [particles[:]], updating each dict in place and removing it with
    [particles.remove], which compares dicts by value), never raises and
    leaves in [particles] exactly the updated particles still alive, in
    their order: the filter-after-map [update_particles] of the model. *)
Theorem update_particles_py_eq (ps : list RBParticle) :
  update_particles_py ps = Some (update_particles ps).
Proof.
  unfold update_particles_py.
  destruct (update_particles_loop_spec ps [] [] ltac:(constructor)) as (kept & Hl & Hv).
  cbn [length app] in Hl, Hv. rewrite Hl. by rewrite Hv.
Qed.

End RBParticleLoop.
