(* ===== verification/RBRender.v ===== *)
(** RBRender: what RetroBird draws ([src/apps/arcade/games/RetroBird/main.py]
    and [src/arcade-flipper/src/games/RetroBird/objects.py]).

    In RetroBird the sprites draw themselves as they update: [Grumpy.update]
    and [Grumpy.draw_flap] end with [draw_bird], [Base.update] and
    [Pipe.update] draw the floor and the pipe at their new position (a pipe
    that has just [kill()]ed itself is still drawn), and [update_particles]
    draws each particle that survives its update.  [rb_frame_render] is an
    iteration of [while running:] with the calls it draws, in the order of
    the source: the pre-rendered background [bg_surface] (the stars
    [draw_retro_background] drew at set-up and the grid), the start screen
    or the play pass with [draw_retro_score], the particles, and
    [draw_retro_gameover] while the bird is dead.  Fonts are the three
    [SysFont] sizes of the module; [pygame.time.get_ticks()] for the blinking
    texts is an argument.

    The theorem of the file: everything an iteration draws from a reachable
    state passes pygame's argument checks.  The colours that come from the
    state (the bird's, the floor's, the pipes' and the particles') are
    palette colours in every reachable state ([colors_inv]). *)

From Stdlib Require Import String.
From S2P Require Import Prelude PyRandom Rect Draw RBObjects RBGame.

Module RBRender.
Import RetroBird RetroBirdGame Draw.
Local Open Scope Z_scope.

Definition BLACK : Color := (0, 0, 0).
Definition ARCADE_ORANGE : Color := (255, 165, 0).

(** [arcade_font], [title_font], [score_font]. *)
Definition arcade_font : Z := 24.
Definition title_font : Z := 48.
Definition score_font : Z := 72.

Definition pt (x y : Z) : Q * Q := (inject_Z x, inject_Z y).

(** [pygame.draw.rect(surface, colour, r, width)] *)
Definition rect_cmd (c : Color) (r : Rect) (width : Z) : DrawCmd :=
  DRect (rgb c) (rx r) (ry r) (rw r) (rh r) width 0.

(** [bg_surface]: filled, then [draw_retro_background]'s stars and grid. *)
Definition bg_surface (stars : list (Z * Z * Z * Color)) : DrawCmd :=
  DLayer WIDTH HEIGHT
    (DFill (rgb (10, 5, 30)) ::
     map (fun '(x, y, size, color) => DCircle (rgb color) (pt x y) size 0) stars ++
     map (fun y => DLine (rgb (0, 100, 150)) (pt 0 y) (pt WIDTH y) 1) (py_range_step 0 HEIGHT 20) ++
     map (fun x => DLine (rgb (0, 100, 150)) (pt x 0) (pt x HEIGHT) 1) (py_range_step 0 WIDTH 20))
    (0, 0).

(** [Grumpy.draw_bird] *)
Definition draw_bird (g : Grumpy) : list DrawCmd :=
  let cx := Rect.centerx (g_rect g) in
  let cy := Rect.centery (g_rect g) in
  let size := 20 in
  let eye_x := cx + 8 in
  let eye_y := cy - 5 in
  let beak_points := [pt (cx + 15) cy; pt (cx + 25) (cy - 3); pt (cx + 25) (cy + 3)] in
  [DCircle (rgb (g_color g)) (pt cx cy) size 0; DCircle (rgb BLACK) (pt cx cy) size 2;
   DCircle (rgb WHITE) (pt eye_x eye_y) 5 0; DCircle (rgb BLACK) (pt eye_x eye_y) 3 0;
   DPolygon (rgb NEON_YELLOW) beak_points 0; DPolygon (rgb BLACK) beak_points 2].

(** The drawing of [Base.update], at the floor's new position. *)
Definition Base_draw (b : Base) : list DrawCmd :=
  let height := HEIGHT - base_y b in
  [DRect (rgb (base_color b)) (base_x1 b) (base_y b) WIDTH height 0 0;
   DRect (rgb (base_color b)) (base_x2 b) (base_y b) WIDTH height 0 0;
   DLine (rgb WHITE) (pt 0 (base_y b)) (pt WIDTH (base_y b)) 3] ++
  map (fun x => DLine (rgb BLACK) (pt x (base_y b)) (pt x HEIGHT) 1)
    (py_range_step (base_x1 b) (base_x1 b + WIDTH) 20) ++
  map (fun x => DLine (rgb BLACK) (pt x (base_y b)) (pt x HEIGHT) 1)
    (py_range_step (base_x2 b) (base_x2 b + WIDTH) 20).

(** [Pipe.width] *)
Definition Pipe_width : Z := 52.

(** The drawing of [Pipe.update], at the pipe's new position. *)
Definition Pipe_draw (p : Pipe) : list DrawCmd :=
  let r := pipe_rect p in
  let cap_rect := if pipe_is_top p then mkRect (rx r - 3) (Rect.bottom r - 20) (Pipe_width + 6) 20
                  else mkRect (rx r - 3) (Rect.top r) (Pipe_width + 6) 20 in
  [rect_cmd (pipe_color p) r 0; rect_cmd BLACK r 3; rect_cmd BLACK (Rect.inflate r (-10) (-10)) 2] ++
  map (fun y => DLine (rgb BLACK) (pt (Rect.left r) y) (pt (Rect.right r) y) 1)
    (py_range_step (Rect.top r) (Rect.bottom r) 15) ++
  [rect_cmd (pipe_color p) cap_rect 0; rect_cmd BLACK cap_rect 3].

(** The circle [update_particles] draws for a surviving particle. *)
Definition particle_draw (p : RBParticle) : DrawCmd :=
  DCircle (rgb (bp_color p)) (pt (py_int (bp_x p)) (py_int (bp_y p))) (Z.max 1 (bp_life p / 10)) 0.

(** [draw_retro_title(win)] at [get_ticks() = t]; [range(5, 0, -1)] is
    [5 - i] for [i] in [range(5)]. *)
Definition draw_retro_title (t : Z) : list DrawCmd :=
  map (fun i => let offset := 5 - i in
                DText title_font [TStr "RETRO"] (rgb NEON_BLUE) TopLeft
                  (WIDTH / 2 - 80 + offset, 50 + offset)) (py_range 5) ++
  [DText title_font [TStr "RETRO"] (rgb NEON_YELLOW) TopLeft (WIDTH / 2 - 80, 50)] ++
  map (fun i => let offset := 5 - i in
                DText title_font [TStr "BIRD"] (rgb NEON_PINK) TopLeft
                  (WIDTH / 2 - 70 + offset, 100 + offset)) (py_range 5) ++
  [DText title_font [TStr "BIRD"] (rgb NEON_GREEN) TopLeft (WIDTH / 2 - 70, 100)] ++
  (if t mod 1000 <? 500 then
     [DText arcade_font [TStr "CLICK TO START"] (rgb WHITE) TopLeft (WIDTH / 2 - 90, HEIGHT - 100)]
   else []).

(** [draw_retro_gameover(win, score)] at [get_ticks() = t]. *)
Definition draw_retro_gameover (score t : Z) : list DrawCmd :=
  let box_rect := mkRect 20 150 (WIDTH - 40) 200 in
  [rect_cmd BLACK box_rect 0; rect_cmd RED box_rect 4; rect_cmd RED (Rect.inflate box_rect (-4) (-4)) 2;
   DText title_font [TStr "GAME"] (rgb RED) TopLeft (WIDTH / 2 - 60, 170);
   DText title_font [TStr "OVER"] (rgb RED) TopLeft (WIDTH / 2 - 60, 220);
   DText arcade_font [TStr "SCORE: "; TInt score] (rgb NEON_YELLOW) TopLeft (WIDTH / 2 - 60, 280)] ++
  (if t mod 800 <? 400 then
     [DText arcade_font [TStr "CLICK TO RESTART"] (rgb WHITE) TopLeft (WIDTH / 2 - 100, 320)]
   else []).

(** [draw_retro_score(win, score)]: the glow, [range(3, 0, -1)], then the
    score and the border line. *)
Definition draw_retro_score (score : Z) : list DrawCmd :=
  map (fun i => let offset := 3 - i in
                DText score_font [TInt score] (rgb ARCADE_ORANGE) Center
                  (WIDTH / 2 + offset, 60 + offset)) (py_range 3) ++
  [DText score_font [TInt score] (rgb NEON_YELLOW) Center (WIDTH / 2, 60);
   DLine (rgb NEON_YELLOW) (pt 0 100) (pt WIDTH 100) 2].

Section Frame.
Context {G : Type} `{PyRandom G}.

(** Lines 187-191: the start screen and what it draws. *)
Definition title_render (t : Z) (s : RBGame) : RBGame * list DrawCmd :=
  let s' := title_step s in
  (s', draw_bird (rb_grumpy s') ++ Base_draw (rb_base s') ++ draw_retro_title t).

(** Lines 194-236: a frame of play and what it draws: every pipe of the
    group at its new position, the floor, the bird, then the score. *)
Definition play_render (now : Z) (mouse : bool) (s : RBGame) : Rand G (RBGame * list DrawCmd) :=
  s1 <- spawn_pipes now s;;
  let m := move_step mouse s1 in
  let drawn := flat_map Pipe_draw (map (Pipe_move (rb_speed s1)) (rb_pipes s1)) ++
               Base_draw (rb_base m) ++ draw_bird (rb_grumpy m) in
  s3 <- crash_step m;;
  s4 <- score_step (ground_step s3);;
  ret (s4, drawn ++ draw_retro_score (rb_score s4)).

(** One iteration of [while running:] with its drawing. *)
Definition rb_frame_render (stars : list (Z * Z * Z * Color)) (t : Z) (inp : FrameInput)
    (s : RBGame) : Rand G (RBGame * list DrawCmd) :=
  '(s1, ds1) <- (if rb_start_screen s then ret (title_render t s)
                 else play_render (fi_ticks inp) (fi_mouse inp) s);;
  let ps := update_particles (rb_particles s1) in
  let s2 := with_particles s1 ps in
  let ds3 := if g_alive (rb_grumpy s2) then [] else draw_retro_gameover (rb_score s2) t in
  s3 <- handle_events (fi_event_ticks inp) s2 (fi_events inp);;
  ret (s3, bg_surface stars :: ds1 ++ map particle_draw ps ++ ds3).

End Frame.
(** ** The colours of the state *)

Definition color_ok (c : Color) : Prop := valid_color (rgb c) = true.

Definition colors_inv (s : RBGame) : Prop :=
  color_ok (g_color (rb_grumpy s)) /\ color_ok (base_color (rb_base s)) /\
  color_ok (rb_pipe_color s) /\ Forall (fun p => color_ok (pipe_color p)) (rb_pipes s) /\
  Forall (fun p => color_ok (bp_color p)) (rb_particles s).

Lemma palette_ok (c : Color) (l : list Color) :
  In c l -> Forall color_ok l -> color_ok c.
Proof. intros Hc Hl. by apply (proj1 (List.Forall_forall _ _) Hl). Qed.

Lemma update_particles_colors (ps : list RBParticle) :
  Forall (fun p => color_ok (bp_color p)) ps ->
  Forall (fun p => color_ok (bp_color p)) (update_particles ps).
Proof. intros Hps. eapply Forall_filter_map; [exact Hps|]. intros p Hp _. exact Hp. Qed.

Section ColorProofs.
Context {G : Type} `{PyRandom G} `{!PyRandomLaws G}.

Lemma choice_palette (c : Color) (cs : list Color) :
  Forall color_ok (c :: cs) -> Always (choice c cs) color_ok.
Proof. intros Hl. eapply always_mono; [apply choice_in|]. intros x Hx. by apply (palette_ok x (c :: cs)). Qed.

Lemma bird_palette : Always (choice NEON_GREEN [NEON_PINK; NEON_YELLOW; NEON_BLUE]) color_ok.
Proof. apply choice_palette. repeat constructor. Qed.

Lemma Grumpy_init_color : Always Grumpy_init (fun g => color_ok (g_color g)).
Proof. unfold Grumpy_init. eapply always_bind; [apply bird_palette|]. intros c Hc. by apply always_ret. Qed.

Lemma create_particles_colors (x y : Q) (c : Color) (ps : list RBParticle) :
  Forall (fun p => color_ok (bp_color p)) ps -> color_ok c ->
  Always (create_particles x y c ps) (Forall (fun p => color_ok (bp_color p))).
Proof.
  intros Hps Hc. unfold create_particles.
  eapply always_bind; [apply always_repeatM with (P := fun p => color_ok (bp_color p))|].
  - always_run. exact Hc.
  - intros news Hn. apply always_ret. by apply Forall_app.
Qed.

Lemma spawn_pipes_colors (now : Z) (s : RBGame) :
  colors_inv s -> Always (spawn_pipes now s) colors_inv.
Proof.
  intros Hs. unfold spawn_pipes. case_match; [|by apply always_ret].
  always_run. destruct Hs as (Hg & Hb & Hc & Hp & Hq).
  split_and!; try done. apply Forall_app. split; [done|]. repeat constructor; exact Hc.
Qed.

Lemma move_step_colors (mouse : bool) (s : RBGame) : colors_inv s -> colors_inv (move_step mouse s).
Proof.
  intros (Hg & Hb & Hc & Hp & Hq). split_and!; try done.
  - unfold move_step, Grumpy_update. cbn. by repeat case_match.
  - eapply Forall_filter_map; [exact Hp|]. intros p Hp' _. exact Hp'.
Qed.

Lemma crash_step_colors (s : RBGame) : colors_inv s -> Always (crash_step s) colors_inv.
Proof.
  intros Hs. unfold crash_step. case_match; [|by apply always_ret].
  eapply always_bind with (P := Forall (fun p => color_ok (bp_color p))).
  - case_match; [apply create_particles_colors; [apply Hs | reflexivity] | apply always_ret, Hs].
  - intros ps Hps. apply always_ret. destruct Hs as (Hg & Hb & Hc & Hp & _). by split_and!.
Qed.

Lemma ground_step_colors (s : RBGame) : colors_inv s -> colors_inv (ground_step s).
Proof. unfold ground_step. by case_match. Qed.

Lemma score_step_colors (s : RBGame) : colors_inv s -> Always (score_step s) colors_inv.
Proof.
  intros Hs. unfold score_step. destruct (rb_pipes s); [by apply always_ret|].
  case_match; [|apply always_ret; apply Hs].
  eapply always_bind; [apply create_particles_colors; [apply Hs | reflexivity]|].
  intros ps Hps. apply always_ret. destruct Hs as (Hg & Hb & Hc & Hp & _). by split_and!.
Qed.

Lemma handle_event_colors (now : Z) (s : RBGame) (e : RBEvent) :
  colors_inv s -> Always (handle_event now s e) colors_inv.
Proof.
  intros Hs. destruct e as [| k | |]; cbn [handle_event];
    [apply always_ret; exact Hs | destruct k; apply always_ret; exact Hs | | apply always_ret; exact Hs].
  apply always_bind with (P := colors_inv).
  - case_match; [|by apply always_ret]. unfold start_round.
    eapply always_bind; [apply bird_palette|]. intros c Hc. apply always_ret.
    destruct Hs as (Hg & _ & _ & _ & Hq). split_and!; try done; constructor.
  - intros s1 Hs1. case_match; [|by apply always_ret]. unfold back_to_title.
    eapply always_bind; [apply Grumpy_init_color|]. intros g Hg. apply always_ret.
    destruct Hs1 as (_ & Hb & Hc & Hp & _). split_and!; try done; constructor.
Qed.

Lemma handle_events_colors (now : Z) (es : list RBEvent) (s : RBGame) :
  colors_inv s -> Always (handle_events now s es) colors_inv.
Proof.
  revert s. induction es as [|e es IH]; intros s Hs; cbn [handle_events]; [by apply always_ret|].
  eapply always_bind; [by apply handle_event_colors|]. exact IH.
Qed.

Lemma RB_init_colors : Always RB_init colors_inv.
Proof.
  unfold RB_init. apply always_bind_any. intros _.
  eapply always_bind; [apply bird_palette|]. intros c Hc.
  eapply always_bind; [apply Grumpy_init_color|]. intros g Hg. apply always_ret. by split_and!.
Qed.

End ColorProofs.

(** ** Everything drawn is well typed *)

(** A star of the background: its colour. *)
Definition star_ok (st : Z * Z * Z * Color) : Prop := color_ok (snd st).

Lemma bg_surface_ok (stars : list (Z * Z * Z * Color)) :
  Forall star_ok stars -> cmd_ok (bg_surface stars) = true.
Proof.
  intros Hst. cbn [cmd_ok bg_surface]. fold (cmds_ok (DFill (rgb (10, 5, 30)) :: map (fun '(x, y, size, color) => DCircle (rgb color) (pt x y) size 0) stars ++
     map (fun y => DLine (rgb (0, 100, 150)) (pt 0 y) (pt WIDTH y) 1) (py_range_step 0 HEIGHT 20) ++
     map (fun x => DLine (rgb (0, 100, 150)) (pt x 0) (pt x HEIGHT) 1) (py_range_step 0 WIDTH 20))).
  rewrite cmds_ok_cons, !cmds_ok_app, !cmds_ok_map; try reflexivity.
  intros [[[x y] size] c] Hin. exact (proj1 (List.Forall_forall _ _) Hst _ Hin).
Qed.

Lemma draw_bird_ok (g : Grumpy) : color_ok (g_color g) -> cmds_ok (draw_bird g) = true.
Proof. intros Hc. unfold draw_bird, cmds_ok. cbn [forallb cmd_ok]. by rewrite Hc. Qed.

Lemma Base_draw_ok (b : Base) : color_ok (base_color b) -> cmds_ok (Base_draw b) = true.
Proof.
  intros Hc. unfold Base_draw. rewrite !cmds_ok_app, !cmds_ok_map; try reflexivity.
  unfold cmds_ok. cbn [forallb cmd_ok]. by rewrite Hc.
Qed.

Lemma Pipe_draw_ok (p : Pipe) : color_ok (pipe_color p) -> cmds_ok (Pipe_draw p) = true.
Proof.
  intros Hc. unfold Pipe_draw. rewrite !cmds_ok_app, cmds_ok_map; [|reflexivity].
  unfold cmds_ok, rect_cmd. cbn [forallb cmd_ok]. by rewrite Hc.
Qed.

Lemma draw_retro_title_ok (t : Z) : cmds_ok (draw_retro_title t) = true.
Proof. unfold draw_retro_title. by case_match. Qed.

Lemma draw_retro_gameover_ok (score t : Z) : cmds_ok (draw_retro_gameover score t) = true.
Proof. unfold draw_retro_gameover. by case_match. Qed.

Lemma draw_retro_score_ok (score : Z) : cmds_ok (draw_retro_score score) = true.
Proof. reflexivity. Qed.

(** A dead bird is drawn as it was alive: [draw_bird] reads neither
    [alive] nor the [theta] that [grumpy.theta = grumpy.vel * -2] sets when
    the bird dies. *)
Lemma draw_bird_ignores_death (g : Grumpy) : draw_bird (kill_bird g) = draw_bird g.
Proof. reflexivity. Qed.

Section FrameProofs.
Context {G : Type} `{PyRandom G}.

Lemma play_render_step (now : Z) (mouse : bool) (s : RBGame) (g : G) :
  (let '(r, g') := play_render now mouse s g in (fst r, g')) = play_step now mouse s g.
Proof. unfold play_render, play_step, bind, ret. repeat case_match; simplify_eq; reflexivity. Qed.

(** The state [rb_frame_render] leaves is the one [rb_frame] computes. *)
Lemma rb_frame_render_step (stars : list (Z * Z * Z * Color)) (t : Z) (inp : FrameInput)
    (s : RBGame) (g : G) :
  fst (fst (rb_frame_render stars t inp s g)) = fst (rb_frame inp s g).
Proof.
  unfold rb_frame_render, rb_frame. pose proof (play_render_step (fi_ticks inp) (fi_mouse inp) s g) as E.
  unfold bind, ret. destruct (rb_start_screen s); cbn -[handle_events update_particles title_step play_render play_step].
  - by destruct (handle_events _ _ _ g).
  - destruct (play_render _ _ s g) as [[s1 ds1] g1]. rewrite <- E. cbn -[handle_events update_particles]. by destruct (handle_events _ _ _ g1).
Qed.

Context `{!PyRandomLaws G}.

Lemma play_render_ok (now : Z) (mouse : bool) (s : RBGame) :
  colors_inv s ->
  Always (play_render now mouse s) (fun r => colors_inv (fst r) /\ cmds_ok (snd r) = true).
Proof.
  intros Hs. unfold play_render.
  eapply always_bind; [by apply spawn_pipes_colors|]. intros s1 Hs1.
  pose proof (move_step_colors mouse s1 Hs1) as Hm.
  assert (Hd : cmds_ok (flat_map Pipe_draw (map (Pipe_move (rb_speed s1)) (rb_pipes s1)) ++
                        Base_draw (rb_base (move_step mouse s1)) ++
                        draw_bird (rb_grumpy (move_step mouse s1))) = true).
  { destruct Hm as (Hg & Hb & _). destruct Hs1 as (_ & _ & _ & Hp & _).
    rewrite !cmds_ok_app, Base_draw_ok, draw_bird_ok by done. rewrite cmds_ok_flat_map; [done|].
    intros p (q & <- & Hq)%in_map_iff. apply Pipe_draw_ok.
    exact (proj1 (List.Forall_forall _ _) Hp q Hq). }
  eapply always_bind; [by apply crash_step_colors|]. intros s3 Hs3.
  eapply always_bind; [by apply score_step_colors, ground_step_colors|]. intros s4 Hs4.
  apply always_ret. split; [done|]. cbn [snd]. by rewrite cmds_ok_app, Hd, draw_retro_score_ok.
Qed.

Lemma rb_frame_render_inv (stars : list (Z * Z * Z * Color)) (t : Z) (inp : FrameInput)
    (s : RBGame) :
  colors_inv s -> Forall star_ok stars ->
  Always (rb_frame_render stars t inp s) (fun r => colors_inv (fst r) /\ cmds_ok (snd r) = true).
Proof.
  intros Hs Hst. unfold rb_frame_render.
  apply always_bind with (P := fun r => colors_inv (fst r) /\ cmds_ok (snd r) = true).
  - case_match; [|by apply play_render_ok]. apply always_ret. split.
    + destruct Hs as (Hg & Hb & Hc & Hp & Hq). by split_and!.
    + destruct Hs as (Hg & Hb & _). cbn [snd title_render].
      by rewrite !cmds_ok_app, draw_bird_ok, Base_draw_ok, draw_retro_title_ok.
  - intros [s1 ds1] [Hs1 Hd1]. cbn [fst snd] in *.
    assert (Hps := update_particles_colors _ (proj2 (proj2 (proj2 (proj2 Hs1))))).
    eapply always_bind; [apply handle_events_colors; destruct Hs1 as (? & ? & ? & ? & _); by split_and!|].
    intros s3 Hs3. apply always_ret. split; [done|]. cbn [snd].
    rewrite cmds_ok_cons, bg_surface_ok, !cmds_ok_app, Hd1 by done. rewrite cmds_ok_map; cbn [andb].
    + case_match; [done | apply draw_retro_gameover_ok].
    + intros p Hp. exact (proj1 (List.Forall_forall _ _) Hps p Hp).
Qed.

Lemma reachable_colors (s : RBGame) : rb_reachable (G := G) s -> colors_inv s.
Proof.
  induction 1 as [g | s inp g _ IH _].
  - apply RB_init_colors.
  - rewrite <- (rb_frame_render_step [] 0 inp s g).
    exact (proj1 (rb_frame_render_inv [] 0 inp s IH (List.Forall_nil _) g)).
Qed.

Lemma draw_retro_background_ok : Always draw_retro_background (Forall star_ok).
Proof.
  apply always_repeatM. do 3 (apply always_bind_any; intros ?).
  eapply always_bind; [apply choice_palette; repeat constructor|]. intros c Hc. by apply always_ret.
Qed.

(** C16: Every call an iteration of RetroBird's loop draws from a state it
    can reach passes pygame's argument checks, whatever the background
    stars drawn at start-up: the bird, the floor and the pipes in their
    palette colours, the particles in red or yellow, the beak a triangle,
    the title, score and game-over texts. *)
Theorem rb_frame_render_ok (t : Z) (inp : FrameInput) (s : RBGame) :
  rb_reachable (G := G) s ->
  Always draw_retro_background
    (fun stars => Always (rb_frame_render stars t inp s) (fun r => cmds_ok (snd r) = true)).
Proof.
  intros Hr%reachable_colors. eapply always_mono; [apply draw_retro_background_ok|].
  intros stars Hst. eapply always_mono; [by apply rb_frame_render_inv|]. by intros r [_ ->].
Qed.

End FrameProofs.

(** ** Witness *)

Lemma rb_frame_render_ok_witness :
  Always (G := list Z) draw_retro_background
    (fun stars => Always (rb_frame_render stars 0 (mkFrameInput 0 false [MOUSEBUTTONDOWN] 0)
                            (fst (RB_init (G := list Z) [])))
                    (fun r => cmds_ok (snd r) = true)).
Proof. apply rb_frame_render_ok, rb_reach_init. Defined.

End RBRender.
