(* ===== verification/Pong.v ===== *)
(** Pong: [src/arcade-flipper/src/games/pong.py].

    Module [Pong] holds the constants, the field size (the class [Field]:
    [screen.get_size()] of a full-screen window), the [Paddle] with
    [move_player] and [move_ai], the [Ball] with [reset] and [update] (wall
    bounce, paddle bounce, the side that scores), one iteration of the loop
    of [game()] ([pong_frame]: events, pause, moves, point, win at 7, serve),
    the loop of [win_screen] and the program's [while True: game()] as the
    phases [InGame], [InWinScreen] and [Quit] ([pong_step],
    [pong_reachable]).  The drawing, the overlays, [clock.tick] and
    [pygame.time.delay] are left out.

    The theorems: the invariant of every reachable phase (paddles inside the
    field and in their columns, scores below 7 during a game, ball speed in
    [[25, 100]], ball velocity bounded by its speed, trail of at most 10
    points, ball between the walls), the first to 7 wins, the pause freezes
    the game, the serve after a point, a paddle sends the ball back towards
    the other side, the AI paddle closes the gap to the ball by 27.3 pixels
    a frame, quitting, restarting from the win screen, and the
    ball passing through a paddle when it moves more than a paddle and a ball
    width in one frame. *)

From S2P Require Import Prelude PyRandom PyMath Rect.

Module Pong.
Local Open Scope Z_scope.

(** [WIDTH, HEIGHT = screen.get_size()]. *)
Class Field := { WIDTH : Z; HEIGHT : Z }.

(** The size of any screen the game runs on full-screen. *)
Class FieldLaws `{Field} := { field_min : 640 <= WIDTH /\ 480 <= HEIGHT }.

Definition PAD_W : Z := 19.
Definition PAD_H : Z := 185.
Definition BALL_R : Z := 10.
Definition PAD_SPEED : Z := 35.
Definition INIT_SPEED : Z := 25.
Definition WIN_SCORE : Z := 7.
Definition MARGIN : Z := 50.

Definition Color : Type := (Z * Z * Z)%type.
Definition GREEN : Color := (0, 255, 70).
Definition AMBER : Color := (255, 180, 0).

Record Paddle := mkPaddle { pd_x : Z; pd_y : Q; pd_colour : Color; pd_vy : Q }.

Record Ball := mkBall {
  bl_trail : list (Z * Z); bl_colour : Color;
  bl_x : Q; bl_y : Q; bl_vx : Q; bl_vy : Q; bl_speed : Q }.

(** The value [Ball.update] returns: ["player"], ["ai"] or [None]. *)
Inductive Side := SidePlayer | SideAI.

(** The argument of [win_screen]: ["SPELER"] or ["A.I."]. *)
Inductive Winner := SPELER | AI.

Inductive PongKey := K_ESCAPE | K_p | K_RETURN | K_other.
Inductive PongEvent := QUIT | KEYDOWN (k : PongKey) | OtherEvent.

Record PongGame := mkPongGame {
  pg_player : Paddle; pg_ai : Paddle; pg_ball : Ball;
  pg_score_p : Z; pg_score_ai : Z; pg_paused : bool; pg_direction : Z }.

(** What one iteration reads: the event queue and [keys[K_UP]],
    [keys[K_DOWN]] of [pygame.key.get_pressed()]. *)
Record PongInput := mkPongInput { pi_events : list PongEvent; pi_up : bool; pi_down : bool }.

(** The program: in [game()], in [win_screen(winner)], or gone. *)
Inductive PongPhase := InGame (g : PongGame) | InWinScreen (w : Winner) | Quit.

Section Field.
Context `{Field}.

(** [Paddle.__init__] *)
Definition Paddle_init (x : Z) (colour : Color) : Paddle :=
  mkPaddle x (inject_Z (HEIGHT / 2 - PAD_H / 2)) colour 0.

(** [Paddle.rect] *)
Definition Paddle_rect (p : Paddle) : Rect := mkRect (pd_x p) (py_int (pd_y p)) PAD_W PAD_H.

(** [max(0, min(HEIGHT - PAD_H, y))] *)
Definition clamp_pad (y : Q) : Q := Qmax 0 (Qmin (inject_Z (HEIGHT - PAD_H)) y).

(** [Paddle.move_player(up, down)] *)
Definition Paddle_move_player (up down : bool) (p : Paddle) : Paddle :=
  let vy := if up then inject_Z (- PAD_SPEED) else if down then inject_Z PAD_SPEED
            else (pd_vy p * (6 # 10))%Q in
  mkPaddle (pd_x p) (clamp_pad (pd_y p + vy)) (pd_colour p) vy.

(** [Paddle.move_ai(ball)]: towards the ball at most [PAD_SPEED * 0.78]. *)
Definition Paddle_move_ai (b : Ball) (p : Paddle) : Paddle :=
  let center := (pd_y p + inject_Z PAD_H / 2)%Q in
  let diff := (bl_y b - center)%Q in
  let speed := Qmin (Qabs diff) (inject_Z PAD_SPEED * (78 # 100)) in
  mkPaddle (pd_x p) (clamp_pad (pd_y p + copysign speed diff)) (pd_colour p) (pd_vy p).

(** [Ball.rect] *)
Definition Ball_rect (b : Ball) : Rect :=
  mkRect (py_int (bl_x b) - BALL_R) (py_int (bl_y b) - BALL_R) (BALL_R * 2) (BALL_R * 2).

(** [self.trail.append(p); if len(self.trail) > 10: self.trail.pop(0)] *)
Definition trail_push (p : Z * Z) (trail : list (Z * Z)) : list (Z * Z) :=
  let t := trail ++ [p] in if 10 <? Z.of_nat (length t) then tl t else t.

(** The wall bounce of [Ball.update]. *)
Definition wall_bounce (b : Ball) : Ball :=
  if bl_y b - inject_Z BALL_R <=q? 0 then
    mkBall (bl_trail b) (bl_colour b) (bl_x b) (inject_Z BALL_R) (bl_vx b) (Qabs (bl_vy b))
      (bl_speed b)
  else if inject_Z HEIGHT <=q? bl_y b + inject_Z BALL_R then
    mkBall (bl_trail b) (bl_colour b) (bl_x b) (inject_Z (HEIGHT - BALL_R)) (bl_vx b)
      (- Qabs (bl_vy b)) (bl_speed b)
  else b.

Context `{Trig}.

(** One pass of [for pad in (player, ai)]: [is_player] is [pad is player]. *)
Definition paddle_bounce (is_player : bool) (pad : Paddle) (b : Ball) : Ball :=
  if Rect.colliderect (Ball_rect b) (Paddle_rect pad) then
    let half := (inject_Z PAD_H / 2)%Q in
    let rel := Qmax (-1) (Qmin 1 ((bl_y b - (pd_y pad + half)) / half)) in
    let speed := Qmin (bl_speed b + (3 # 2)) 100 in
    let angle := (rel * math_pi / (7 # 2))%Q in
    let direction := if is_player then 1%Q else (-1)%Q in
    let x := if is_player then inject_Z (pd_x pad + PAD_W + BALL_R + 1)
             else inject_Z (pd_x pad - BALL_R - 1) in
    mkBall (bl_trail b) (bl_colour b) x (bl_y b) (math_cos angle * speed * direction)
      (math_sin angle * speed) speed
  else b.

(** [Ball.update(player, ai)]: the new ball and the side that scored. *)
Definition Ball_update (player ai : Paddle) (b : Ball) : Ball * option Side :=
  let trail := trail_push (py_int (bl_x b), py_int (bl_y b)) (bl_trail b) in
  let b1 := mkBall trail (bl_colour b) (bl_x b + bl_vx b) (bl_y b + bl_vy b) (bl_vx b) (bl_vy b)
              (bl_speed b) in
  let b2 := paddle_bounce false ai (paddle_bounce true player (wall_bounce b1)) in
  (b2, if bl_x b2 <q? 0 then Some SideAI
       else if inject_Z WIDTH <q? bl_x b2 then Some SidePlayer else None).

(** [Ball.reset(direction)] without the drawing of the trail. *)
Definition Ball_reset {G} `{PyRandom G} (direction : Z) (b : Ball) : Rand G Ball :=
  angle <- uniform (- (6 # 10)) (6 # 10);;
  ret (mkBall [] (bl_colour b) (inject_Z WIDTH / 2) (inject_Z HEIGHT / 2)
         (math_cos angle * inject_Z INIT_SPEED * inject_Z direction)
         (math_sin angle * inject_Z INIT_SPEED) (inject_Z INIT_SPEED)).

(** [Ball.__init__]: an empty trail, green, then [reset(1)]. *)
Definition Ball_init {G} `{PyRandom G} : Rand G Ball :=
  Ball_reset 1 (mkBall [] GREEN 0 0 0 0 0).

(** The start of [game()]. *)
Definition Game_init {G} `{PyRandom G} : Rand G PongGame :=
  ball <- Ball_init;;
  ret (mkPongGame (Paddle_init MARGIN GREEN) (Paddle_init (WIDTH - MARGIN - PAD_W) AMBER)
         ball 0 0 false 1).

(** The event loop of [game()]: the new [paused], or [None] when the program
    exits ([QUIT] or [Escape]). *)
Fixpoint game_events (paused : bool) (es : list PongEvent) : option bool :=
  match es with
  | [] => Some paused
  | QUIT :: _ | KEYDOWN K_ESCAPE :: _ => None
  | KEYDOWN K_p :: es' => game_events (negb paused) es'
  | _ :: es' => game_events paused es'
  end.

(** What an iteration of [game()] leads to. *)
Inductive PongOutcome := Continue (g : PongGame) | Exit | Won (w : Winner).

Definition with_paused (g : PongGame) (paused : bool) : PongGame :=
  mkPongGame (pg_player g) (pg_ai g) (pg_ball g) (pg_score_p g) (pg_score_ai g) paused
    (pg_direction g).

(** Lines 283-300: a point is scored; the game ends at [WIN_SCORE], or the
    ball is served again towards [direction]. *)
Definition score_point {G} `{PyRandom G} (player ai : Paddle) (ball : Ball) (side : Side)
    (g : PongGame) : Rand G PongOutcome :=
  let '(sp, sai, direction) :=
    match side with
    | SidePlayer => (pg_score_p g + 1, pg_score_ai g, -1)
    | SideAI => (pg_score_p g, pg_score_ai g + 1, 1)
    end in
  if WIN_SCORE <=? sp then ret (Won SPELER)
  else if WIN_SCORE <=? sai then ret (Won AI)
  else ball' <- Ball_reset direction ball;;
       ret (Continue (mkPongGame player ai ball' sp sai false direction)).

(** One iteration of the loop of [game()]. *)
Definition pong_frame {G} `{PyRandom G} (inp : PongInput) (g : PongGame) : Rand G PongOutcome :=
  match game_events (pg_paused g) (pi_events inp) with
  | None => ret Exit
  | Some true => ret (Continue (with_paused g true))
  | Some false =>
      let player := Paddle_move_player (pi_up inp) (pi_down inp) (pg_player g) in
      let ai := Paddle_move_ai (pg_ball g) (pg_ai g) in
      let '(ball, result) := Ball_update player ai (pg_ball g) in
      match result with
      | None => ret (Continue (mkPongGame player ai ball (pg_score_p g) (pg_score_ai g) false
                                 (pg_direction g)))
      | Some side => score_point player ai ball side g
      end
  end.

(** What an iteration of [win_screen] leads to. *)
Inductive WinOutcome := WinExit | WinReturn | WinStay.

(** The event loop of [win_screen]: [QUIT] exits, [Return] returns. *)
Fixpoint win_events (es : list PongEvent) : WinOutcome :=
  match es with
  | [] => WinStay
  | QUIT :: _ => WinExit
  | KEYDOWN K_RETURN :: _ => WinReturn
  | _ :: es' => win_events es'
  end.

(** The program: [while True: game()], [game()] calling [win_screen] when a
    side reaches [WIN_SCORE]. *)
Definition pong_step {G} `{PyRandom G} (inp : PongInput) (ph : PongPhase) : Rand G PongPhase :=
  match ph with
  | InGame g =>
      o <- pong_frame inp g;;
      ret (match o with Continue g' => InGame g' | Exit => Quit | Won w => InWinScreen w end)
  | InWinScreen w =>
      match win_events (pi_events inp) with
      | WinExit => ret Quit
      | WinReturn => g <- Game_init;; ret (InGame g)
      | WinStay => ret (InWinScreen w)
      end
  | Quit => ret Quit
  end.

Inductive pong_reachable {G} `{PyRandom G} : PongPhase -> Prop :=
| pong_reach_init (gen : G) : pong_reachable (InGame (fst (Game_init gen)))
| pong_reach_step (ph : PongPhase) (inp : PongInput) (gen : G) :
    pong_reachable ph -> pong_reachable (fst (pong_step inp ph gen)).
End Field.

(** ** The invariant *)

Section Invariant.
Context `{Field} `{!FieldLaws} `{Trig} `{!TrigLaws}.

(** A paddle in its column and inside the field. *)
Definition pad_ok (x : Z) (p : Paddle) : Prop :=
  pd_x p = x /\ (0 <= pd_y p <= inject_Z (HEIGHT - PAD_H))%Q.

(** The ball's speed in [[25, 100]], its velocity bounded by the speed, its
    trail of at most 10 points. *)
Definition ball_moving_ok (b : Ball) : Prop :=
  (inject_Z INIT_SPEED <= bl_speed b <= 100)%Q /\
  (- bl_speed b <= bl_vx b <= bl_speed b)%Q /\ (- bl_speed b <= bl_vy b <= bl_speed b)%Q /\
  (length (bl_trail b) <= 10)%nat.

(** ... and the ball between the walls. *)
Definition ball_ok (b : Ball) : Prop :=
  ball_moving_ok b /\ (inject_Z BALL_R <= bl_y b <= inject_Z (HEIGHT - BALL_R))%Q.

Definition game_ok (g : PongGame) : Prop :=
  pad_ok MARGIN (pg_player g) /\ pad_ok (WIDTH - MARGIN - PAD_W) (pg_ai g) /\
  ball_ok (pg_ball g) /\ 0 <= pg_score_p g < WIN_SCORE /\ 0 <= pg_score_ai g < WIN_SCORE /\
  (pg_direction g = 1 \/ pg_direction g = -1).

Definition pong_inv (ph : PongPhase) : Prop :=
  match ph with InGame g => game_ok g | _ => True end.

Lemma inject_Z_le_iff (a b : Z) : (inject_Z a <= inject_Z b)%Q <-> a <= b.
Proof. by rewrite Zle_Qle. Qed.

Lemma clamp_pad_range (y : Q) : (0 <= clamp_pad y <= inject_Z (HEIGHT - PAD_H))%Q.
Proof.
  apply Qclamp_range. change 0%Q with (inject_Z 0). apply inject_Z_le_iff.
  pose proof field_min. unfold PAD_H. lia.
Qed.

Lemma Paddle_init_ok (x : Z) (c : Color) : pad_ok x (Paddle_init x c).
Proof.
  split; [done|]. cbn. change 0%Q with (inject_Z 0). rewrite !inject_Z_le_iff.
  pose proof field_min. unfold PAD_H. Z.div_mod_to_equations. lia.
Qed.

Lemma Paddle_move_player_ok (x : Z) (up down : bool) (p : Paddle) :
  pad_ok x p -> pad_ok x (Paddle_move_player up down p).
Proof. intros [Hx _]. split; [done | apply clamp_pad_range]. Qed.

Lemma Paddle_move_ai_ok (x : Z) (b : Ball) (p : Paddle) :
  pad_ok x p -> pad_ok x (Paddle_move_ai b p).
Proof. intros [Hx _]. split; [done | apply clamp_pad_range]. Qed.

Lemma trail_push_length (q : Z * Z) (t : list (Z * Z)) :
  (length t <= 10)%nat -> (length (trail_push q t) <= 10)%nat.
Proof.
  unfold trail_push. rewrite length_app. cbn [length]. intros Ht.
  destruct (Z.ltb_spec 10 (Z.of_nat (length t + 1))).
  - rewrite length_tl, length_app. cbn. lia.
  - rewrite length_app. cbn. lia.
Qed.

(** The value of [math.pi] is between 3 and 4. *)
Lemma math_pi_range : (3 <= math_pi <= 4)%Q.
Proof. unfold math_pi, Qle; cbn. lia. Qed.

(** The field's height as a rational, with its lower bound. *)
Lemma height_min : (480 <= inject_Z HEIGHT)%Q.
Proof. change 480%Q with (inject_Z 480). apply inject_Z_le_iff, field_min. Qed.

Lemma wall_bounce_ok (b : Ball) : ball_moving_ok b -> ball_ok (wall_bounce b).
Proof.
  intros (Hs & Hvx & Hvy & Ht). pose proof height_min as Hh.
  pose proof (Qabs_nonneg (bl_vy b)). pose proof Hvy as Habs. apply Qabs_Qle_condition in Habs.
  unfold wall_bounce, ball_ok, ball_moving_ok, BALL_R, INIT_SPEED in *. qcase; cbn;
    split_and!; try done; qz; lra.
Qed.

(** The speed after a paddle hit: [min(speed + 1.5, 100)]. *)
Lemma bounce_speed_range (s : Q) : (25 <= s <= 100)%Q -> (25 <= Qmin (s + (3 # 2)) 100 <= 100)%Q.
Proof.
  intros Hs. split; [apply Q.min_glb; lra | apply Q.le_min_r].
Qed.

Lemma paddle_bounce_ok (is_player : bool) (pad : Paddle) (b : Ball) :
  ball_ok b -> ball_ok (paddle_bounce is_player pad b).
Proof.
  intros [(Hs & Hvx & Hvy & Ht) Hy]. unfold paddle_bounce.
  destruct (Rect.colliderect _ _); [|by split]. cbv zeta. split; [|exact Hy].
  unfold INIT_SPEED in Hs. qz.
  set (angle := (_ * math_pi / _)%Q).
  pose proof (bounce_speed_range (bl_speed b) Hs) as Hs'.
  set (s := Qmin (bl_speed b + (3 # 2)) 100) in *.
  pose proof (sin_range angle). pose proof (cos_range angle).
  unfold ball_moving_ok, INIT_SPEED; cbn. qz.
  split_and!; try done; destruct is_player; nra.
Qed.

Lemma Ball_update_ok (player ai : Paddle) (b : Ball) :
  ball_ok b -> ball_ok (fst (Ball_update player ai b)).
Proof.
  intros [(Hs & Hvx & Hvy & Ht) _]. cbn [Ball_update fst].
  apply paddle_bounce_ok, paddle_bounce_ok, wall_bounce_ok.
  refine (conj Hs (conj Hvx (conj Hvy _))). by apply trail_push_length.
Qed.
End Invariant.

(** What an iteration of [game()] leaves: a game within the invariant. *)
Definition outcome_ok `{Field} (o : PongOutcome) : Prop :=
  match o with Continue g => game_ok g | _ => True end.

Section Frames.
Context `{Field} `{!FieldLaws} `{Trig} `{!TrigLaws} {G : Type} `{PyRandom G}.

Lemma Ball_reset_ok (d : Z) (b : Ball) : d = 1 \/ d = -1 -> Always (Ball_reset d b) ball_ok.
Proof.
  intros Hd. unfold Ball_reset. apply always_bind_any. intros angle. apply always_ret.
  pose proof (sin_range angle). pose proof (cos_range angle). pose proof height_min.
  unfold ball_ok, ball_moving_ok, INIT_SPEED, BALL_R; cbn -[Qle]. qz.
  unfold Qdiv. change (/ 2)%Q with (1 # 2)%Q.
  destruct Hd as [-> | ->]; split_and!; cbn [length]; try lia; nra.
Qed.

Lemma Game_init_ok : Always Game_init game_ok.
Proof.
  unfold Game_init, Ball_init. apply (always_bind _ _ _ _ (Ball_reset_ok 1 _ (or_introl eq_refl))).
  intros b Hb. apply always_ret.
  split_and!; try apply Paddle_init_ok; cbn; try done; unfold WIN_SCORE; lia.
Qed.

Lemma score_point_ok (player ai : Paddle) (ball : Ball) (side : Side) (g : PongGame) :
  pad_ok MARGIN player -> pad_ok (WIDTH - MARGIN - PAD_W) ai -> ball_ok ball ->
  0 <= pg_score_p g -> 0 <= pg_score_ai g ->
  Always (score_point player ai ball side g) outcome_ok.
Proof.
  intros Hp Ha Hb Hsp Hsa. unfold score_point.
  destruct side; cbv zeta; zcase; try (apply always_ret; exact I);
    (apply (always_bind _ _ ball_ok); [apply Ball_reset_ok; lia|]; intros b' Hb';
     apply always_ret; split_and!; cbn; try done; lia).
Qed.

Lemma pong_frame_ok (inp : PongInput) (g : PongGame) :
  game_ok g -> Always (pong_frame inp g) outcome_ok.
Proof.
  intros Hg. pose proof Hg as (Hp & Ha & Hb & Hsp & Hsa & Hd). unfold pong_frame.
  destruct (game_events _ _) as [[]|]; try (apply always_ret; done).
  pose proof (Ball_update_ok (Paddle_move_player (pi_up inp) (pi_down inp) (pg_player g))
                (Paddle_move_ai (pg_ball g) (pg_ai g)) (pg_ball g) Hb) as Hb'.
  destruct (Ball_update _ _ _) as [ball []] eqn:E; cbn [fst] in Hb'.
  - apply score_point_ok; auto using Paddle_move_player_ok, Paddle_move_ai_ok; lia.
  - apply always_ret.
    split_and!; cbn [pg_player pg_ai pg_ball pg_score_p pg_score_ai pg_direction];
      auto using Paddle_move_player_ok, Paddle_move_ai_ok; lia.
Qed.

Lemma pong_step_ok (inp : PongInput) (ph : PongPhase) :
  pong_inv ph -> Always (pong_step inp ph) pong_inv.
Proof.
  intros Hph. destruct ph as [g | w |]; cbn [pong_step].
  - apply (always_bind _ _ _ _ (pong_frame_ok inp g Hph)).
    intros [g' | |] Ho; by apply always_ret.
  - destruct (win_events _); try (by apply always_ret).
    apply (always_bind _ _ _ _ Game_init_ok). intros g Hg. by apply always_ret.
  - by apply always_ret.
Qed.

(** C3: Every phase the program reaches satisfies the invariant: during a
    game the paddles stay in their columns and inside the field, both scores
    are between 0 and 6, the serve direction is 1 or -1, the ball's speed is
    between 25 and 100 with both velocity components bounded by it, its
    trail has at most 10 points and it is between the walls. *)
Theorem pong_reachable_inv (ph : PongPhase) : pong_reachable (G := G) ph -> pong_inv ph.
Proof.
  induction 1 as [gen | ph inp gen _ IH].
  - apply Game_init_ok.
  - by apply pong_step_ok.
Qed.
End Frames.

(** ** What a frame does *)

Lemma game_events_quit (paused : bool) (es : list PongEvent) (e : PongEvent) :
  In e es -> e = QUIT \/ e = KEYDOWN K_ESCAPE -> game_events paused es = None.
Proof.
  revert paused. induction es as [|e' es IH]; intros paused Hin He; [done|].
  destruct Hin as [-> | Hin]; [by destruct He as [-> | ->]|].
  destruct e' as [| [] |]; cbn; auto.
Qed.

Lemma wall_bounce_x (b : Ball) `{Field} :
  bl_x (wall_bounce b) = bl_x b /\ bl_vx (wall_bounce b) = bl_vx b.
Proof. unfold wall_bounce. by qcase. Qed.

(** A ball whose right edge is left of a paddle's left edge does not
    touch it. *)
Lemma paddle_bounce_left_of `{Field} `{Trig} (is_player : bool) (pad : Paddle) (b : Ball) :
  py_int (bl_x b) + BALL_R <= pd_x pad -> paddle_bounce is_player pad b = b.
Proof.
  intros Hx. unfold paddle_bounce. rewrite Rect.colliderect_left_of; [done | | |].
  all: unfold Rect.positive, Rect.right, Rect.left, Ball_rect, Paddle_rect, BALL_R, PAD_W, PAD_H in *;
    cbn [Rect.rx Rect.rw Rect.rh]; lia.
Qed.

(** C22: The AI paddle closes the gap to the ball by [PAD_SPEED * 0.78 = 27.3]
    pixels a frame and stops on the ball: when the ball is at least half a
    paddle away from both walls, the distance between the ball and the
    paddle's centre after [move_ai] is [max(0, d - 27.3)] for the distance
    [d] before. *)
Theorem Paddle_move_ai_tracks `{Field} (x : Z) (b : Ball) (p : Paddle) :
  pad_ok x p -> (inject_Z PAD_H / 2 <= bl_y b <= inject_Z HEIGHT - inject_Z PAD_H / 2)%Q ->
  (Qabs (bl_y b - (pd_y (Paddle_move_ai b p) + inject_Z PAD_H / 2)) ==
   Qmax 0 (Qabs (bl_y b - (pd_y p + inject_Z PAD_H / 2)) - inject_Z PAD_SPEED * (78 # 100)))%Q.
Proof.
  intros [_ Hp] Hb. unfold Paddle_move_ai, copysign, clamp_pad. cbn [pd_y].
  rewrite inject_Z_sub in *. assert (Hph : inject_Z PAD_H == 185) by reflexivity.
  set (h := (inject_Z PAD_H / 2)%Q) in *. set (k := (inject_Z PAD_SPEED * (78 # 100))%Q).
  assert (Hh : h == 185 # 2) by reflexivity. assert (Hk : k == 273 # 10) by reflexivity.
  set (d := (bl_y b - (pd_y p + h))%Q).
  assert (Hs : (0 <= Qmin (Qabs d) k)%Q) by (apply Q.min_glb; [apply Qabs_nonneg | lra]).
  pose proof (Q.le_min_l (Qabs d) k). pose proof (Q.le_min_r (Qabs d) k).
  qcase; rewrite (Qabs_pos (Qmin (Qabs d) k) Hs);
    [rewrite (Qabs_neg d) in * by lra; destruct (Q.min_spec (- d) k) as [[? Em] | [? Em]]
    |rewrite (Qabs_pos d) in * by lra; destruct (Q.min_spec d k) as [[? Em] | [? Em]]];
    rewrite Em in *; (rewrite Qclamp_id; [|split; unfold d in *; lra]);
    apply Qabs_eq_Qmax0; unfold d in *; [left | right; right | left | right; left]; split; lra.
Qed.

Section Behaviour.
Context `{Field} `{!FieldLaws} `{Trig} `{!TrigLaws} {G : Type} `{PyRandom G}.

(** C6: First to 7 wins: a frame of a game within the invariant changes
    the scores by at most one point, never lets the game go on with a score
    of 7, ends it with [win_screen("SPELER")] only when the player had 6 and
    with [win_screen("A.I.")] only when the AI had 6, and exits only on a
    quit event. *)
Theorem pong_frame_scores (inp : PongInput) (g : PongGame) : game_ok g ->
  Always (pong_frame inp g) (fun o =>
    match o with
    | Continue g' =>
        pg_score_p g' < WIN_SCORE /\ pg_score_ai g' < WIN_SCORE /\
        ((pg_score_p g' = pg_score_p g /\ pg_score_ai g' = pg_score_ai g) \/
         (pg_score_p g' = pg_score_p g + 1 /\ pg_score_ai g' = pg_score_ai g) \/
         (pg_score_p g' = pg_score_p g /\ pg_score_ai g' = pg_score_ai g + 1))
    | Won SPELER => pg_score_p g = WIN_SCORE - 1
    | Won AI => pg_score_ai g = WIN_SCORE - 1
    | Exit => game_events (pg_paused g) (pi_events inp) = None
    end).
Proof.
  intros (_ & _ & _ & Hsp & Hsa & _). unfold pong_frame.
  destruct (game_events _ _) as [[]|] eqn:E; [by apply always_ret; cbn; lia| |by apply always_ret].
  destruct (Ball_update _ _ _) as [ball [side|]] eqn:Eb; [|by apply always_ret; cbn; lia].
  unfold score_point. destruct side; cbv zeta; zcase;
    try (apply always_ret; unfold WIN_SCORE in *; lia);
    (apply always_bind_any; intros b'; apply always_ret; cbn; unfold WIN_SCORE in *; lia).
Qed.

(** C30: The pause freezes the game: while paused, a frame whose events
    leave the pause on changes nothing and draws no random number. *)
Theorem pause_freezes (inp : PongInput) (g : PongGame) (gen : G) :
  pg_paused g = true -> game_events true (pi_events inp) = Some true ->
  pong_frame inp g gen = (Continue g, gen).
Proof.
  intros Hp He. unfold pong_frame. rewrite Hp, He. destruct g; cbn in *. by subst.
Qed.

(** A quit event ([QUIT] or [Escape]) anywhere in a frame's queue exits
    the program, paused or not, without drawing a random number. *)
Theorem quit_exits (inp : PongInput) (g : PongGame) (e : PongEvent) (gen : G) :
  In e (pi_events inp) -> e = QUIT \/ e = KEYDOWN K_ESCAPE ->
  pong_frame inp g gen = (Exit, gen).
Proof. intros Hin He. unfold pong_frame. by rewrite (game_events_quit _ _ e Hin He). Qed.

(** C20: The ball goes through a paddle it should hit when it moves more than
    a paddle and a ball width in one frame: a ball in front of the player's
    paddle ([rect.left >= paddle.right]) that ends the frame behind it
    ([rect.right <= paddle.left]), clear of the AI paddle, is not bounced,
    whatever its height. *)
Theorem ball_passes_through_paddle (player ai : Paddle) (b : Ball) :
  pd_x player + PAD_W <= py_int (bl_x b) - BALL_R ->
  py_int (bl_x b + bl_vx b) + BALL_R <= pd_x player ->
  py_int (bl_x b + bl_vx b) + BALL_R <= pd_x ai ->
  bl_x (fst (Ball_update player ai b)) = (bl_x b + bl_vx b)%Q /\
  bl_vx (fst (Ball_update player ai b)) = bl_vx b.
Proof.
  intros _ Hp Ha. cbn [Ball_update fst].
  set (b1 := mkBall _ _ _ _ _ _ _).
  destruct (wall_bounce_x b1) as [Hx Hvx].
  rewrite (paddle_bounce_left_of true player), (paddle_bounce_left_of false ai);
    rewrite ?Hx; done.
Qed.
End Behaviour.

(** C21: A ball that touches a paddle leaves it towards the other side
    (to the right off the player's paddle, to the left off the AI's), one
    pixel in front of the paddle, 1.5 faster up to 100: the angle
    [rel * pi / 3.5] stays within [pi/3.5 < 3/2] so its cosine is positive. *)
Theorem paddle_bounce_direction `{Field} `{Trig} `{!TrigLaws} (is_player : bool)
    (pad : Paddle) (b : Ball) :
  (inject_Z INIT_SPEED <= bl_speed b)%Q ->
  Rect.colliderect (Ball_rect b) (Paddle_rect pad) = true ->
  (0 < bl_vx (paddle_bounce is_player pad b) * (if is_player then 1 else -1))%Q /\
  bl_speed (paddle_bounce is_player pad b) = Qmin (bl_speed b + (3 # 2)) 100 /\
  bl_x (paddle_bounce is_player pad b) =
    inject_Z (if is_player then pd_x pad + PAD_W + BALL_R + 1 else pd_x pad - BALL_R - 1).
Proof.
  intros Hs Hc. unfold paddle_bounce. rewrite Hc. cbv zeta. cbn [bl_vx bl_speed bl_x].
  set (rel := Qmax _ _). set (sp := Qmin _ _).
  assert (Hrel : (-1 <= rel <= 1)%Q) by (apply Qclamp_range; lra).
  assert (Hsp : (25 <= sp)%Q) by (unfold INIT_SPEED in Hs; apply Q.min_glb; qz; lra).
  pose proof math_pi_range.
  assert (Hc' : (0 < math_cos (rel * math_pi / (7 # 2)))%Q).
  { apply cos_pos. unfold Qdiv. change (/ (7 # 2))%Q with (2 # 7)%Q. nra. }
  destruct is_player; split_and!; try reflexivity; nra.
Qed.

Section Serve.
Context `{Field} `{Trig} `{!TrigLaws} {G : Type} `{PyRandom G} `{!PyRandomLaws G}.

(** [Ball.reset(direction)] serves from the centre at speed 25 with an empty
    trail, towards [direction]. *)
Lemma Ball_reset_serve (d : Z) (b : Ball) : d = 1 \/ d = -1 ->
  Always (Ball_reset d b) (fun b' =>
    bl_x b' = (inject_Z WIDTH / 2)%Q /\ bl_y b' = (inject_Z HEIGHT / 2)%Q /\
    bl_speed b' = inject_Z INIT_SPEED /\ bl_trail b' = [] /\ (0 < bl_vx b' * inject_Z d)%Q).
Proof.
  intros Hd. unfold Ball_reset.
  apply (always_bind _ _ (fun a => - (6 # 10) <= a <= 6 # 10)%Q); [apply uniform_range; lra|].
  intros a Ha. apply always_ret. cbn [bl_x bl_y bl_speed bl_trail bl_vx].
  pose proof (cos_pos a ltac:(lra)).
  split_and!; try reflexivity. unfold INIT_SPEED. destruct Hd as [-> | ->]; qz; nra.
Qed.

(** C24: After a point that does not end the game, the ball is served again
    from the centre at speed 25, with an empty trail, towards the side that
    scored: a point for the player ([SidePlayer], the ball out on the right)
    serves to the left ([direction = -1]), a point for the AI to the right. *)
Theorem serve_after_point (player ai : Paddle) (ball : Ball) (side : Side) (g : PongGame) :
  pg_score_p g < WIN_SCORE - 1 -> pg_score_ai g < WIN_SCORE - 1 ->
  Always (score_point player ai ball side g) (fun o => exists g', o = Continue g' /\
    bl_x (pg_ball g') = (inject_Z WIDTH / 2)%Q /\ bl_y (pg_ball g') = (inject_Z HEIGHT / 2)%Q /\
    bl_speed (pg_ball g') = inject_Z INIT_SPEED /\ bl_trail (pg_ball g') = [] /\
    pg_direction g' = (match side with SidePlayer => -1 | SideAI => 1 end) /\
    (0 < bl_vx (pg_ball g') * inject_Z (pg_direction g'))%Q).
Proof.
  intros Hp Ha. unfold score_point, WIN_SCORE in *.
  destruct side; cbv zeta; zcase; try lia;
    (refine (always_bind _ _ _ _ (Ball_reset_serve _ ball _) _); [auto|]);
    intros b' Hb; apply always_ret; eexists; (split; [reflexivity|]); cbn; tauto.
Qed.

(** C34: [Return] on the win screen starts a new game: 0-0, not paused,
    both paddles back at mid-height, the ball served from the centre towards
    the AI. *)
Theorem win_screen_restart (inp : PongInput) (w : Winner) :
  win_events (pi_events inp) = WinReturn ->
  Always (pong_step inp (InWinScreen w)) (fun ph => exists g, ph = InGame g /\
    pg_score_p g = 0 /\ pg_score_ai g = 0 /\ pg_paused g = false /\ pg_direction g = 1 /\
    pg_player g = Paddle_init MARGIN GREEN /\
    pg_ai g = Paddle_init (WIDTH - MARGIN - PAD_W) AMBER /\
    bl_x (pg_ball g) = (inject_Z WIDTH / 2)%Q /\ (0 < bl_vx (pg_ball g))%Q).
Proof.
  intros E. cbn [pong_step]. rewrite E.
  refine (always_bind _ _ (fun g => pg_score_p g = 0 /\ pg_score_ai g = 0 /\
    pg_paused g = false /\ pg_direction g = 1 /\ pg_player g = Paddle_init MARGIN GREEN /\
    pg_ai g = Paddle_init (WIDTH - MARGIN - PAD_W) AMBER /\
    bl_x (pg_ball g) = (inject_Z WIDTH / 2)%Q /\ (0 < bl_vx (pg_ball g))%Q) _ _ _).
  - unfold Game_init, Ball_init.
    refine (always_bind _ _ _ _ (Ball_reset_serve 1 _ _) _); [auto|].
    intros b (Hx & _ & _ & _ & Hv). apply always_ret. rewrite Qmult_1_r in Hv. cbn. by split_and!.
  - intros g Hg. apply always_ret. eexists; split; [reflexivity | exact Hg].
Qed.
End Serve.

(** ** Concrete runs *)

(** A full-HD screen. *)
#[export] Instance field_hd : Field := {| WIDTH := 1920; HEIGHT := 1080 |}.
#[export] Instance field_hd_laws : @FieldLaws field_hd.
Proof. constructor. cbn. lia. Qed.

(** A game in progress: both paddles at mid-height, the ball at the centre
    going right at 25, the score 3-2. *)
Definition mid_game : PongGame :=
  mkPongGame (Paddle_init MARGIN GREEN) (Paddle_init (WIDTH - MARGIN - PAD_W) AMBER)
    (mkBall [] GREEN 960 540 25 0 25) 3 2 false 1.

(** A fast ball ([vx = -90]) in front of the player's paddle. *)
Definition fast_ball : Ball := mkBall [] GREEN 100 540 (-90) 0 100.

(** A ball touching the player's paddle. *)
Definition touching_ball : Ball := mkBall [] GREEN 75 500 (-25) 0 25.

(** A ball 160 pixels below the AI paddle's centre. *)
Definition low_ball : Ball := mkBall [] GREEN 960 700 25 0 25.

Ltac concrete_q :=
  repeat (first [split | left; reflexivity]); vm_compute;
  first [reflexivity | discriminate | lia].

Section Witnesses.
#[local] Existing Instances trig_flat trig_flat_laws.

Lemma pong_reachable_inv_witness : pong_inv (InGame (fst (Game_init (G := list Z) []))).
Proof. apply (pong_reachable_inv (G := list Z)). apply pong_reach_init. Defined.

Lemma pong_frame_scores_witness :
  game_ok mid_game /\
  Always (G := list Z) (pong_frame (mkPongInput [] false false) mid_game) (fun o =>
    match o with
    | Continue g' =>
        pg_score_p g' < WIN_SCORE /\ pg_score_ai g' < WIN_SCORE /\
        ((pg_score_p g' = pg_score_p mid_game /\ pg_score_ai g' = pg_score_ai mid_game) \/
         (pg_score_p g' = pg_score_p mid_game + 1 /\ pg_score_ai g' = pg_score_ai mid_game) \/
         (pg_score_p g' = pg_score_p mid_game /\ pg_score_ai g' = pg_score_ai mid_game + 1))
    | Won SPELER => pg_score_p mid_game = WIN_SCORE - 1
    | Won AI => pg_score_ai mid_game = WIN_SCORE - 1
    | Exit => game_events (pg_paused mid_game) [] = None
    end).
Proof.
  assert (H : game_ok mid_game) by concrete_q.
  split; [exact H | apply (pong_frame_scores (mkPongInput [] false false) mid_game H)].
Defined.

Lemma pause_freezes_witness :
  pong_frame (G := list Z) (mkPongInput [] true false) (with_paused mid_game true) [] =
  (Continue (with_paused mid_game true), []).
Proof. apply pause_freezes; reflexivity. Defined.

Lemma quit_exits_witness :
  pong_frame (G := list Z) (mkPongInput [KEYDOWN K_p; QUIT] false false) mid_game [] = (Exit, []).
Proof. apply (quit_exits _ _ QUIT); [right; left; reflexivity | left; reflexivity]. Defined.

Lemma ball_passes_through_paddle_witness :
  bl_x (fst (Ball_update (pg_player mid_game) (pg_ai mid_game) fast_ball)) = 10%Q /\
  bl_vx (fst (Ball_update (pg_player mid_game) (pg_ai mid_game) fast_ball)) = (-90)%Q.
Proof. apply ball_passes_through_paddle; vm_compute; discriminate. Defined.

Lemma paddle_bounce_direction_witness :
  (0 < bl_vx (paddle_bounce true (pg_player mid_game) touching_ball) * 1)%Q /\
  bl_speed (paddle_bounce true (pg_player mid_game) touching_ball) = Qmin (25 + (3 # 2)) 100 /\
  bl_x (paddle_bounce true (pg_player mid_game) touching_ball) = inject_Z 80.
Proof. apply (paddle_bounce_direction true); [concrete_q | reflexivity]. Defined.

Lemma serve_after_point_witness :
  Always (G := list Z) (score_point (pg_player mid_game) (pg_ai mid_game) fast_ball SideAI mid_game)
    (fun o => exists g', o = Continue g' /\
      bl_x (pg_ball g') = (inject_Z WIDTH / 2)%Q /\ bl_y (pg_ball g') = (inject_Z HEIGHT / 2)%Q /\
      bl_speed (pg_ball g') = inject_Z INIT_SPEED /\ bl_trail (pg_ball g') = [] /\
      pg_direction g' = 1 /\ (0 < bl_vx (pg_ball g') * inject_Z (pg_direction g'))%Q).
Proof. apply serve_after_point; vm_compute; reflexivity. Defined.

Lemma win_screen_restart_witness :
  Always (G := list Z) (pong_step (mkPongInput [KEYDOWN K_p; KEYDOWN K_RETURN] false false)
    (InWinScreen AI)) (fun ph => exists g, ph = InGame g /\
    pg_score_p g = 0 /\ pg_score_ai g = 0 /\ pg_paused g = false /\ pg_direction g = 1 /\
    pg_player g = Paddle_init MARGIN GREEN /\
    pg_ai g = Paddle_init (WIDTH - MARGIN - PAD_W) AMBER /\
    bl_x (pg_ball g) = (inject_Z WIDTH / 2)%Q /\ (0 < bl_vx (pg_ball g))%Q).
Proof. apply win_screen_restart. reflexivity. Defined.
Lemma Paddle_move_ai_tracks_witness :
  (Qabs (bl_y low_ball - (pd_y (Paddle_move_ai low_ball (pg_ai mid_game)) + inject_Z PAD_H / 2)) ==
   Qmax 0 (Qabs (bl_y low_ball - (pd_y (pg_ai mid_game) + inject_Z PAD_H / 2)) -
           inject_Z PAD_SPEED * (78 # 100)))%Q.
Proof. apply (Paddle_move_ai_tracks (WIDTH - MARGIN - PAD_W)); concrete_q. Defined.
End Witnesses.
End Pong.
