(* ===== verification/PongRender.v ===== *)
(** PongRender: what Pong draws ([src/arcade-flipper/src/games/pong.py]).

    The overlays the module pre-renders once ([make_scanlines],
    [make_vignette], [make_field_bg]) are layers of draw calls;
    [pixel_text], the paddle surface of [Paddle._make_surf], [Paddle.draw],
    [Ball.draw] with its fading trail, [draw_hud] and the frame of
    [win_screen] are lists of [Draw.DrawCmd].  A font is known by its size
    ([SysFont] always returns one).  [pong_step_render] is an iteration of
    the program with what it draws: [game()] draws the board once per frame,
    twice in a frame that scores a point without ending the game (before and
    after the serve), and [win_screen] draws its flashing frame while it
    waits.  [pygame.time.get_ticks()] and the frame counter [t] of
    [win_screen] are arguments.

    The theorem of the file: everything a reachable phase draws passes
    pygame's argument checks; the paddles keep the colours [GREEN] and
    [AMBER] their surfaces are drawn with, and the trail's colour fades with
    [alpha = (i + 1) / len(trail)], which stays in [(0, 1]]. *)

From Stdlib Require Import String.
From S2P Require Import Prelude PyRandom PyMath Rect Draw Pong.

Module PongRender.
Import Pong Draw.
Local Open Scope Z_scope.

Definition BLACK : Color := (0, 0, 0).
Definition GREEN_DIM : Color := (0, 80, 25).
Definition GREEN_DARK : Color := (0, 20, 8).
Definition AMBER_DIM : Color := (100, 60, 0).
Definition WHITE : Color := (255, 255, 255).

(** [font_big], [font_med], [font_small]. *)
Definition font_big : Z := 96.
Definition font_med : Z := 42.
Definition font_small : Z := 22.

Definition pt (x y : Z) : Q * Q := (inject_Z x, inject_Z y).

Section Render.
Context `{Field}.

Definition make_scanlines : list DrawCmd :=
  map (fun y => DLine (rgba BLACK 60) (pt 0 y) (pt WIDTH y) 1) (py_range_step 0 HEIGHT 3).

Definition make_vignette : list DrawCmd :=
  let steps := 80 in
  map (fun i => let alpha := py_int (160 * (1 - inject_Z i / inject_Z steps)) in
                DRect (rgba BLACK alpha) i i (WIDTH - i * 2) (HEIGHT - i * 2) 1 0)
    (py_range steps).

Definition make_field_bg : list DrawCmd :=
  DFill (rgb BLACK) ::
  map (fun gx => DLine (rgb GREEN_DARK) (pt gx 0) (pt gx HEIGHT) 1) (py_range_step 0 WIDTH 80) ++
  map (fun gy => DLine (rgb GREEN_DARK) (pt 0 gy) (pt WIDTH gy) 1) (py_range_step 0 HEIGHT 80) ++
  map (fun y => DRect (rgb GREEN_DIM) (WIDTH / 2 - 4) y 8 14 0 0) (py_range_step 0 HEIGHT 24) ++
  [DRect (rgb GREEN) 0 0 WIDTH 8 0 0; DRect (rgb GREEN) 0 (HEIGHT - 8) WIDTH 8 0 0].

(** [screen.blit(field_bg / scanlines / vignette, (0, 0))] *)
Definition field_bg : DrawCmd := DLayer WIDTH HEIGHT make_field_bg (0, 0).
Definition scanlines : DrawCmd := DLayer WIDTH HEIGHT make_scanlines (0, 0).
Definition vignette : DrawCmd := DLayer WIDTH HEIGHT make_vignette (0, 0).

(** [pixel_text(surf, text, font, colour, cx, cy, shadow)] *)
Definition pixel_text (text : list TextPiece) (font : Z) (colour : Color) (cx cy : Z)
    (shadow : bool) : list DrawCmd :=
  (if shadow then [DText font text (rgb GREEN_DARK) Center (cx + 3, cy + 3)] else []) ++
  [DText font text (rgb colour) Center (cx, cy)].

(** [Paddle._make_surf]: a dimmed frame, the body and a highlight. *)
Definition Paddle_make_surf (colour : Color) : list DrawCmd :=
  let '(r, g, b) := colour in
  let dim := (py_int (inject_Z r * (1 # 4)), py_int (inject_Z g * (1 # 4)),
              py_int (inject_Z b * (1 # 4))) in
  [DRect (rgb dim) 0 0 (PAD_W + 8) (PAD_H + 8) 0 4;
   DRect (rgb colour) 4 4 PAD_W PAD_H 0 4;
   DRect (rgb WHITE) 6 8 4 (PAD_H - 16) 0 2].

Definition Paddle_draw (p : Paddle) : list DrawCmd :=
  [DLayer (PAD_W + 8) (PAD_H + 8) (Paddle_make_surf (pd_colour p)) (pd_x p - 4, py_int (pd_y p) - 4)].

(** The [i]-th point of a trail of [n] points, drawn with
    [alpha = (i + 1) / max(n, 1)]. *)
Definition trail_circle (n : nat) (i : nat) (p : Z * Z) : DrawCmd :=
  let '(tx, ty) := p in
  let alpha := (inject_Z (Z.of_nat i + 1) / inject_Z (Z.max (Z.of_nat n) 1))%Q in
  let g := py_int (120 * alpha) in
  DCircle (rgb (0, g, py_int (30 * alpha))) (pt tx ty)
    (Z.max 3 (py_int (inject_Z BALL_R * alpha * (6 # 10)))) 0.

Definition Ball_draw (b : Ball) : list DrawCmd :=
  let x := py_int (bl_x b) in
  let y := py_int (bl_y b) in
  imap (trail_circle (length (bl_trail b))) (bl_trail b) ++
  [DCircle (rgb GREEN_DIM) (pt x y) (BALL_R + 4) 0;
   DCircle (rgb GREEN) (pt x y) BALL_R 0;
   DCircle (rgb WHITE) (pt (x - 3) (y - 3)) 3 0].

(** [draw_hud(surf, score_p, score_ai, paused)] at [pygame.time.get_ticks() = t]. *)
Definition draw_hud (score_p score_ai : Z) (paused : bool) (t : Z) : list DrawCmd :=
  pixel_text [TInt score_p] font_big GREEN (WIDTH / 4) 70 true ++
  pixel_text [TInt score_ai] font_big AMBER (WIDTH * 3 / 4) 70 true ++
  pixel_text [TStr "< SPELER >"] font_small GREEN_DIM (WIDTH / 4) 130 false ++
  pixel_text [TStr "<  A.I.  >"] font_small AMBER_DIM (WIDTH * 3 / 4) 130 false ++
  pixel_text [TStr "[ UP/DN ] BEWEEG    [ P ] PAUZE    [ ESC ] STOP"] font_small GREEN_DIM
    (WIDTH / 2) (HEIGHT - 22) false ++
  (if (t / 700) mod 2 =? 0 then
     pixel_text [TStr "* EERSTE TOT 7 WINT *"] font_small GREEN_DIM (WIDTH / 2) (HEIGHT - 50) false
   else []) ++
  (if paused then
     DLayer WIDTH HEIGHT [DFill (rgba BLACK 170)] (0, 0) ::
     pixel_text [TStr "** PAUZE **"] font_med GREEN (WIDTH / 2) (HEIGHT / 2) true ++
     pixel_text [TStr "DRUK  P  OM  VERDER  TE  GAAN"] font_small GREEN_DIM (WIDTH / 2)
       (HEIGHT / 2 + 60) true
   else []).

(** The board as [game()] draws it: background, paddles, ball, HUD, overlays. *)
Definition game_draw (player ai : Paddle) (ball : Ball) (score_p score_ai : Z) (paused : bool)
    (t : Z) : list DrawCmd :=
  [field_bg] ++ Paddle_draw player ++ Paddle_draw ai ++ Ball_draw ball ++
  draw_hud score_p score_ai paused t ++ [scanlines; vignette].

Definition game_draw_state (g : PongGame) (t : Z) : list DrawCmd :=
  game_draw (pg_player g) (pg_ai g) (pg_ball g) (pg_score_p g) (pg_score_ai g) (pg_paused g) t.

Definition winner_text (w : Winner) : string := match w with SPELER => "SPELER" | AI => "A.I." end.

(** A frame of [win_screen(winner)] at frame count [t]. *)
Definition win_screen_draw (t : Z) (w : Winner) : list DrawCmd :=
  let colour := if w is SPELER then GREEN else AMBER in
  let flash := if (t / 15) mod 2 =? 0 then WHITE else colour in
  [field_bg] ++
  (if (t / 20) mod 2 =? 0 then [DRect (rgb colour) 40 40 (WIDTH - 80) (HEIGHT - 80) 4 0] else []) ++
  pixel_text [TStr "** GAME  OVER **"] font_med GREEN_DIM (WIDTH / 2) (HEIGHT / 2 - 130) true ++
  pixel_text [TStr "WINNAAR"] font_big flash (WIDTH / 2) (HEIGHT / 2 - 40) true ++
  pixel_text [TStr (winner_text w)] font_big colour (WIDTH / 2) (HEIGHT / 2 + 70) true ++
  pixel_text [TStr "DRUK  ENTER  OM  OPNIEUW  TE  SPELEN"] font_small GREEN_DIM (WIDTH / 2)
    (HEIGHT / 2 + 160) true ++
  [scanlines; vignette].

Context `{Trig} {G : Type} `{PyRandom G}.

(** The scores after a point. *)
Definition scores_after (side : Side) (g : PongGame) : Z * Z :=
  match side with
  | SidePlayer => (pg_score_p g + 1, pg_score_ai g)
  | SideAI => (pg_score_p g, pg_score_ai g + 1)
  end.

(** An iteration of [game()] with what it draws: [t1] and [t2] are the
    clock at its two [draw_hud] calls. *)
Definition pong_frame_render (t1 t2 : Z) (inp : PongInput) (g : PongGame)
    : Rand G (PongOutcome * list DrawCmd) :=
  match game_events (pg_paused g) (pi_events inp) with
  | None => ret (Exit, [])
  | Some true => ret (Continue (with_paused g true), game_draw_state (with_paused g true) t1)
  | Some false =>
      let player := Paddle_move_player (pi_up inp) (pi_down inp) (pg_player g) in
      let ai := Paddle_move_ai (pg_ball g) (pg_ai g) in
      let '(ball, result) := Ball_update player ai (pg_ball g) in
      match result with
      | None =>
          let g' := mkPongGame player ai ball (pg_score_p g) (pg_score_ai g) false (pg_direction g) in
          ret (Continue g', game_draw_state g' t1)
      | Some side =>
          let '(sp, sai) := scores_after side g in
          o <- score_point player ai ball side g;;
          ret (o, game_draw player ai ball sp sai false t1 ++
                  match o with Continue g' => game_draw_state g' t2 | _ => [] end)
      end
  end.

(** An iteration of the program with its drawing; [wt] is the frame count of
    [win_screen]. *)
Definition pong_step_render (t1 t2 wt : Z) (inp : PongInput) (ph : PongPhase)
    : Rand G (PongPhase * list DrawCmd) :=
  match ph with
  | InGame g =>
      '(o, ds) <- pong_frame_render t1 t2 inp g;;
      ret (match o with Continue g' => InGame g' | Exit => Quit | Won w => InWinScreen w end, ds)
  | InWinScreen w =>
      match win_events (pi_events inp) with
      | WinExit => ret (Quit, [])
      | WinReturn => g <- Game_init;; ret (InGame g, [])
      | WinStay => ret (InWinScreen w, win_screen_draw wt w)
      end
  | Quit => ret (Quit, [])
  end.

End Render.

(** ** The paddles keep their colours *)

Section Colours.
Context `{Field} `{Trig} {G : Type} `{PyRandom G}.

Definition paddles_ok (g : PongGame) : Prop :=
  pd_colour (pg_player g) = GREEN /\ pd_colour (pg_ai g) = AMBER.

Definition outcome_paddles (o : PongOutcome) : Prop :=
  match o with Continue g => paddles_ok g | _ => True end.

Definition colours_inv (ph : PongPhase) : Prop :=
  match ph with InGame g => paddles_ok g | _ => True end.

Lemma Game_init_paddles : Always Game_init paddles_ok.
Proof. unfold Game_init. always_run. split; reflexivity. Qed.

Lemma score_point_paddles (player ai : Paddle) (ball : Ball) (side : Side) (g : PongGame) :
  pd_colour player = GREEN -> pd_colour ai = AMBER ->
  Always (score_point player ai ball side g) outcome_paddles.
Proof.
  intros Hp Ha. unfold score_point.
  destruct side; cbv zeta; zcase; always_run; first [exact I | split; assumption].
Qed.

Lemma pong_frame_render_paddles (t1 t2 : Z) (inp : PongInput) (g : PongGame) :
  paddles_ok g -> Always (pong_frame_render t1 t2 inp g) (fun r => outcome_paddles (fst r)).
Proof.
  intros [Hp Ha]. unfold pong_frame_render.
  destruct (game_events _ _) as [[]|]; [apply always_ret; by split| |by apply always_ret].
  destruct (Ball_update _ _ _) as [ball [side|]]; [|apply always_ret; by split].
  destruct (scores_after side g).
  eapply always_bind; [by apply score_point_paddles|]. intros o Ho. by apply always_ret.
Qed.

Lemma pong_step_render_colours (t1 t2 wt : Z) (inp : PongInput) (ph : PongPhase) :
  colours_inv ph -> Always (pong_step_render t1 t2 wt inp ph) (fun r => colours_inv (fst r)).
Proof.
  intros Hph. destruct ph as [g | w |]; cbn [pong_step_render].
  - eapply always_bind; [by apply pong_frame_render_paddles|].
    intros [[g'| |] ds] Ho; by apply always_ret.
  - destruct (win_events _); try by apply always_ret.
    eapply always_bind; [apply Game_init_paddles|]. intros g Hg. by apply always_ret.
  - by apply always_ret.
Qed.

(** The phase [pong_step_render] leads to is the one [pong_step] computes. *)
Lemma pong_step_render_step (t1 t2 wt : Z) (inp : PongInput) (ph : PongPhase) (gen : G) :
  fst (fst (pong_step_render t1 t2 wt inp ph gen)) = fst (pong_step inp ph gen).
Proof.
  destruct ph as [g | w |]; cbn [pong_step_render pong_step];
    unfold pong_frame_render, pong_frame, bind, ret; repeat case_match; simplify_eq; reflexivity.
Qed.

Lemma reachable_colours (ph : PongPhase) : pong_reachable (G := G) ph -> colours_inv ph.
Proof.
  induction 1 as [gen | ph inp gen _ IH].
  - apply Game_init_paddles.
  - rewrite <- (pong_step_render_step 0 0 0 inp ph gen).
    exact (pong_step_render_colours 0 0 0 inp ph IH gen).
Qed.

End Colours.

(** ** Everything drawn is well typed *)

Section DrawProofs.
Context `{Field}.

Lemma field_bg_ok : cmd_ok field_bg = true.
Proof.
  cbn [cmd_ok field_bg]. fold (cmds_ok make_field_bg). unfold make_field_bg.
  rewrite cmds_ok_cons, !cmds_ok_app, !cmds_ok_map; reflexivity.
Qed.

Lemma scanlines_ok : cmd_ok scanlines = true.
Proof. cbn [cmd_ok scanlines]. fold (cmds_ok make_scanlines). by apply cmds_ok_map. Qed.

Lemma vignette_ok : cmd_ok vignette = true.
Proof. reflexivity. Qed.

(** The trail's [alpha] is in [(0, 1]], so its colour is valid. *)
Lemma trail_circle_ok (n i : nat) (p : Z * Z) : (i < n)%nat -> cmd_ok (trail_circle n i p) = true.
Proof.
  intros Hi. destruct p as [tx ty]. unfold trail_circle.
  pose proof (Qdiv_unit (Z.of_nat i + 1) (Z.max (Z.of_nat n) 1) ltac:(lia) ltac:(lia)) as Ha.
  revert Ha. generalize (inject_Z (Z.of_nat i + 1) / inject_Z (Z.max (Z.of_nat n) 1))%Q.
  intros alpha Ha.
  assert (0 <= py_int (120 * alpha) <= 120) by (apply py_int_range; unfold inject_Z; split; lra).
  assert (0 <= py_int (30 * alpha) <= 30) by (apply py_int_range; unfold inject_Z; split; lra).
  cbn [cmd_ok]. apply valid_color_rgb; lia.
Qed.

Lemma Ball_draw_ok (b : Ball) : cmds_ok (Ball_draw b) = true.
Proof.
  unfold Ball_draw. rewrite cmds_ok_app, cmds_ok_imap; [reflexivity|].
  intros i p Hp. apply trail_circle_ok. by eapply lookup_lt_Some.
Qed.

Lemma Paddle_draw_ok (p : Paddle) :
  pd_colour p = GREEN \/ pd_colour p = AMBER -> cmds_ok (Paddle_draw p) = true.
Proof. unfold Paddle_draw. intros [E | E]; rewrite E; reflexivity. Qed.

(** Splits a drawing into its parts and checks the constant ones. *)
Ltac board_ok :=
  rewrite ?cmds_ok_app, ?cmds_ok_cons, ?field_bg_ok, ?scanlines_ok, ?vignette_ok;
  repeat case_match; reflexivity.

Lemma draw_hud_ok (sp sai : Z) (paused : bool) (t : Z) : cmds_ok (draw_hud sp sai paused t) = true.
Proof. unfold draw_hud. board_ok. Qed.

Lemma win_screen_draw_ok (t : Z) (w : Winner) : cmds_ok (win_screen_draw t w) = true.
Proof. unfold win_screen_draw. destruct w; board_ok. Qed.

Lemma game_draw_ok (player ai : Paddle) (ball : Ball) (sp sai : Z) (paused : bool) (t : Z) :
  pd_colour player = GREEN -> pd_colour ai = AMBER ->
  cmds_ok (game_draw player ai ball sp sai paused t) = true.
Proof.
  intros Hp Ha. unfold game_draw.
  rewrite !cmds_ok_app, Paddle_draw_ok, Paddle_draw_ok, Ball_draw_ok, draw_hud_ok by auto.
  board_ok.
Qed.

Context `{Trig} {G : Type} `{PyRandom G}.

Lemma pong_frame_render_ok (t1 t2 : Z) (inp : PongInput) (g : PongGame) :
  paddles_ok g -> Always (pong_frame_render t1 t2 inp g) (fun r => cmds_ok (snd r) = true).
Proof.
  intros [Hp Ha]. unfold pong_frame_render.
  destruct (game_events _ _) as [[]|]; [apply always_ret; by apply game_draw_ok| |by apply always_ret].
  destruct (Ball_update _ _ _) as [ball [side|]]; [|apply always_ret; by apply game_draw_ok].
  destruct (scores_after side g).
  eapply always_bind; [by apply score_point_paddles|]. intros o Ho. apply always_ret.
  cbn [snd]. rewrite cmds_ok_app, game_draw_ok by done.
  destruct o as [g' | |]; [destruct Ho; by apply game_draw_ok | done..].
Qed.

(** C15: Every call the program draws in an iteration from a phase it can
    reach passes pygame's argument checks: every colour is three or four
    integers in [[0, 255]] (the paddle surfaces' dimmed colours and the
    fading trail included) in the game, on the scoring frame that draws
    twice, in the pause overlay and on the win screen. *)
Theorem pong_step_render_ok (t1 t2 wt : Z) (inp : PongInput) (ph : PongPhase) :
  pong_reachable (G := G) ph ->
  Always (pong_step_render t1 t2 wt inp ph) (fun r => cmds_ok (snd r) = true).
Proof.
  intros Hr%reachable_colours. destruct ph as [g | w |]; cbn [pong_step_render].
  - eapply always_bind; [by apply pong_frame_render_ok|]. intros [o ds] Hds. by apply always_ret.
  - destruct (win_events _); [by apply always_ret| |apply always_ret, win_screen_draw_ok].
    apply always_bind_any. intros g. by apply always_ret.
  - by apply always_ret.
Qed.

End DrawProofs.

(** ** Witnesses *)

Section Witnesses.
#[local] Existing Instance trig_flat.

(** A 1280x720 screen. *)
Definition field_720p : Field := {| WIDTH := 1280; HEIGHT := 720 |}.
#[local] Existing Instance field_720p.

Lemma pong_step_render_ok_witness :
  Always (G := list Z)
    (pong_step_render 0 0 0 (mkPongInput [] true false) (InGame (fst (Game_init (G := list Z) []))))
    (fun r => cmds_ok (snd r) = true).
Proof. apply pong_step_render_ok, pong_reach_init. Defined.
End Witnesses.

End PongRender.
