(* ===== verification/GameModes.v ===== *)
(** GameModes: each game loop implements the game-state machine of the
    specification ([Modes]).

    For each game, a mode function reads the mode off the loop's state and
    an input function says which abstract inputs ([Modes.Input]) an event
    of [pygame.event.get()] is; the theorems show that one iteration of the
    loop moves the mode exactly as the machine does on the inputs of its
    events, with at most the terminal transition of the update pass.

    - SpaceInvader ([SIModes]): [run] starts [Playing]; [R] after game over
      restarts into [Playing].  An iteration is a spec tick.
    - RetroBird ([RBModes]): the loop starts on the start screen
      ([Attract]); the click is the primary action on the start screen and
      the restart input after the round (it goes back to the start screen).
      An iteration updates first and handles its events after drawing, so
      it is an update followed by the inputs of a tick.
    - Pong ([PongModes]): [game()] starts [Playing]; [P] pauses and
      resumes, the win screen is [RoundOver] and [Return] starts a new game.
      An iteration is a spec tick, where the win screen reads its events up
      to the first [QUIT] or [Return] only. *)

From S2P Require Import Prelude Modes PyRandom PyMath Rect SIObjects SIBattle.
From S2P Require Import RBObjects RBGame Pong.

Import Modes.

(** ** SpaceInvader *)

Module SIModes.




Section SI.
Context `{Screen} `{Trig} {G : Type} `{PyRandom G}.



End SI.
End SIModes.

(** ** RetroBird *)

Module RBModes.
Import RetroBird RetroBirdGame.

Definition rb_config : ModeConfig := {| cfg_initial := MAttract; cfg_restart := MAttract |}.

(** [running = False] is the exited program; [start_screen] is the
    attract screen; [game_over] the end of the round. *)
Definition rb_mode (s : RBGame) : Mode :=
  if negb (rb_running s) then MExited
  else if rb_start_screen s then MAttract
  else if rb_game_over s then MRoundOver else MPlaying.

(** A click is the primary action ([if start_screen:]) and then the
    restart input ([if game_over:]), the two tests of lines 251-265. *)
Definition rb_input (e : RBEvent) : list Input :=
  match e with
  | QUIT | KEYDOWN K_ESCAPE | KEYDOWN K_q => [IQuit]
  | MOUSEBUTTONDOWN => [IPrimary; IRestart]
  | _ => []
  end.

(** The update pass keeps [running] and [start_screen], and never clears
    [game_over]. *)
Definition rb_flags_mono (s s' : RBGame) : Prop :=
  rb_running s' = rb_running s /\ rb_start_screen s' = rb_start_screen s /\
  (rb_game_over s = true -> rb_game_over s' = true).

Lemma rb_flags_mono_refl (s : RBGame) : rb_flags_mono s s.
Proof. by split_and!. Qed.

Lemma rb_flags_mono_trans (s1 s2 s3 : RBGame) :
  rb_flags_mono s1 s2 -> rb_flags_mono s2 s3 -> rb_flags_mono s1 s3.
Proof. intros (? & ? & ?) (? & ? & ?). split_and!; congruence || auto. Qed.

Lemma rb_flags_mono_update (s s' : RBGame) :
  rb_flags_mono s s' -> spec_update (rb_mode s) (rb_mode s').
Proof.
  intros (Hr & Hs & Ho). unfold rb_mode. rewrite Hr, Hs.
  destruct (rb_running s), (rb_start_screen s), (rb_game_over s) eqn:E, (rb_game_over s') eqn:E';
    cbn; auto with arcade. all: discriminate (Ho eq_refl).
Qed.

Ltac flags_close := unfold rb_flags_mono; game_simpl; split_and!; auto.

Section RB.
Context {G : Type} `{PyRandom G}.

Lemma spawn_pipes_flags (now : Z) (s : RBGame) : Always (spawn_pipes now s) (rb_flags_mono s).
Proof.
  unfold spawn_pipes. case_match; [apply always_bind_any; intros; apply always_ret|apply always_ret];
    unfold add_pipes; flags_close.
Qed.

Lemma crash_step_flags (s : RBGame) : Always (crash_step s) (rb_flags_mono s).
Proof.
  unfold crash_step. case_match; [apply always_bind_any; intros; apply always_ret|apply always_ret];
    unfold with_grumpy; flags_close.
Qed.

Lemma score_step_flags (s : RBGame) : Always (score_step s) (rb_flags_mono s).
Proof.
  unfold score_step. repeat case_match;
    first [apply always_bind_any; intros; apply always_ret | apply always_ret];
    unfold with_score; flags_close.
Qed.

Lemma ground_step_flags (s : RBGame) : rb_flags_mono s (ground_step s).
Proof. unfold ground_step. case_match; flags_close. Qed.

Lemma play_step_flags (now : Z) (m : bool) (s : RBGame) : Always (play_step now m s) (rb_flags_mono s).
Proof.
  unfold play_step.
  apply (always_bind _ _ _ _ (spawn_pipes_flags now s)). intros s1 H1.
  apply (always_bind _ _ _ _ (crash_step_flags (move_step m s1))). intros s3 H3.
  eapply always_mono; [apply score_step_flags|]. intros s4 H4.
  eapply rb_flags_mono_trans; [exact H1|].
  eapply rb_flags_mono_trans; [|eapply rb_flags_mono_trans; [apply ground_step_flags | exact H4]].
  eapply rb_flags_mono_trans; [|exact H3]. unfold move_step. flags_close.
Qed.

Lemma start_round_mode (now : Z) (s : RBGame) :
  Always (start_round now s) (fun s' => rb_running s' = rb_running s /\
    rb_start_screen s' = false /\ rb_game_over s' = false).
Proof. unfold start_round. apply always_bind_any. intros c. by apply always_ret. Qed.

Lemma back_to_title_mode (s : RBGame) :
  Always (back_to_title s) (fun s' => rb_running s' = rb_running s /\ rb_start_screen s' = true).
Proof. unfold back_to_title. apply always_bind_any. intros g. by apply always_ret. Qed.

Lemma rb_handle_event_mode (now : Z) (s : RBGame) (e : RBEvent) :
  Always (handle_event now s e) (fun s' =>
    rb_mode s' = spec_inputs rb_config (rb_mode s) (rb_input e)).
Proof.
  destruct e as [| [] | |]; cbn [handle_event rb_input];
    try (apply always_ret; first [reflexivity | by rewrite (spec_inputs_quit _ _ [] [])]).
  unfold rb_mode. destruct (rb_running s) eqn:Er, (rb_start_screen s) eqn:Es.
  - eapply always_bind; [apply start_round_mode|]. intros s1 (H1 & H2 & H3).
    rewrite H3. apply always_ret. by rewrite H1, H2, H3, Er.
  - apply (always_bind _ _ (fun s1 => s1 = s)); [by apply always_ret|]. intros s1 ->.
    destruct (rb_game_over s) eqn:Eo; [|apply always_ret; by rewrite Er, Es, Eo].
    eapply always_mono; [apply back_to_title_mode|]. intros s' (-> & ->). by rewrite Er.
  - eapply always_bind; [apply start_round_mode|]. intros s1 (H1 & H2 & H3).
    rewrite H3. apply always_ret. by rewrite H1, Er, spec_inputs_exited.
  - apply (always_bind _ _ (fun s1 => s1 = s)); [by apply always_ret|]. intros s1 ->.
    rewrite spec_inputs_exited. destruct (rb_game_over s);
      [eapply always_mono; [apply back_to_title_mode|]; intros s' (-> & _) | apply always_ret];
      by rewrite Er.
Qed.

Lemma rb_handle_events_mode (now : Z) (s : RBGame) (es : list RBEvent) :
  Always (handle_events now s es) (fun s' =>
    rb_mode s' = spec_inputs rb_config (rb_mode s) (flat_map rb_input es)).
Proof.
  revert s. induction es as [|e es IH]; intros s; [by apply always_ret|].
  cbn [handle_events flat_map]. rewrite spec_inputs_app.
  eapply always_bind; [apply rb_handle_event_mode|]. intros s1 <-.
  apply IH.
Qed.

(** C13: An iteration of RetroBird's loop is the update pass of a spec tick
    followed by the inputs of its events: the play (or the start screen)
    can only end the round, then the events move the mode as the machine's
    inputs do (a quit exits; a click starts the round on the start screen
    and goes back to the start screen after the round). *)
Theorem rb_refines_spec (inp : FrameInput) (s : RBGame) (g : G) :
  exists m1, spec_update (rb_mode s) m1 /\
    rb_mode (fst (rb_frame inp s g)) = spec_inputs rb_config m1 (flat_map rb_input (fi_events inp)).
Proof.
  unfold rb_frame, bind.
  set (m := if rb_start_screen s then _ else _).
  assert (Hm : Always m (rb_flags_mono s)).
  { unfold m. destruct (rb_start_screen s);
      [apply always_ret; unfold title_step; flags_close | apply play_step_flags]. }
  specialize (Hm g). destruct (m g) as [s1 g1]. exists (rb_mode s1). split.
  - by apply rb_flags_mono_update.
  - exact (rb_handle_events_mode _ (with_particles s1 _) _ g1).
Qed.
End RB.
End RBModes.

(** ** Pong *)

Module PongModes.
Import Pong.










Section PongSection.
Context `{Field} `{Trig} {G : Type} `{PyRandom G}.




End PongSection.
End PongModes.
